(** * ack_6wd_controller: the control tick of the six-wheel Ackermann controller

    A shallow embedding of [Ack6WDController::update] and [quadrant]
    (src/ack_6wd_controller.cpp) and of the properties the specification
    states about them.

    Numbers.  The controller computes on C++ [double].  The type [double]
    below keeps the three special values of IEEE-754 (the two infinities and
    NaN) and takes every finite value as a real number: rounding, overflow
    and the sign of zero are abstracted away, [M_PI] is the real [PI], and
    [sin] and [atan] are the real functions.  A zero divisor counts as [+0].
    The unqualified [abs] of the source is applied to [double] operands only
    and is read as the floating-point absolute value (the overload that
    <cmath> and the C headers of the ROS includes bring into scope). *)

From Stdlib Require Import Reals Lra ZArith List Bool Lia.
Import ListNotations.

Local Open Scope R_scope.

(** ** Extended reals standing for [double] *)

Inductive double : Type :=
| Fin (r : R)
| PInf
| NInf
| NaN.

Definition Rcmp (a b : R) : comparison :=
  match total_order_T a b with
  | inleft (left _) => Lt
  | inleft (right _) => Eq
  | inright _ => Gt
  end.

Definition inf (neg : bool) : double := if neg then NInf else PInf.

(** The product of an infinity of sign [neg] with a value whose comparison
    to zero is [c]. *)
Definition scale_inf (c : comparison) (neg : bool) : double :=
  match c with
  | Eq => NaN
  | Gt => inf neg
  | Lt => inf (negb neg)
  end.

Definition dopp (a : double) : double :=
  match a with
  | Fin x => Fin (- x)
  | PInf => NInf
  | NInf => PInf
  | NaN => NaN
  end.

Definition dabs (a : double) : double :=
  match a with
  | Fin x => Fin (Rabs x)
  | PInf | NInf => PInf
  | NaN => NaN
  end.

Definition dadd (a b : double) : double :=
  match a, b with
  | NaN, _ | _, NaN => NaN
  | Fin x, Fin y => Fin (x + y)
  | PInf, NInf | NInf, PInf => NaN
  | PInf, _ | _, PInf => PInf
  | NInf, _ | _, NInf => NInf
  end.

Definition dsub (a b : double) : double := dadd a (dopp b).

Definition dmul (a b : double) : double :=
  match a, b with
  | NaN, _ | _, NaN => NaN
  | Fin x, Fin y => Fin (x * y)
  | Fin x, PInf | PInf, Fin x => scale_inf (Rcmp x 0) false
  | Fin x, NInf | NInf, Fin x => scale_inf (Rcmp x 0) true
  | PInf, PInf | NInf, NInf => PInf
  | PInf, NInf | NInf, PInf => NInf
  end.

Definition ddiv (a b : double) : double :=
  match a, b with
  | NaN, _ | _, NaN => NaN
  | Fin x, Fin y =>
      match Rcmp y 0 with
      | Eq => scale_inf (Rcmp x 0) false
      | _ => Fin (x / y)
      end
  | Fin _, (PInf | NInf) => Fin 0
  | PInf, Fin y => match Rcmp y 0 with Lt => NInf | _ => PInf end
  | NInf, Fin y => match Rcmp y 0 with Lt => PInf | _ => NInf end
  | (PInf | NInf), (PInf | NInf) => NaN
  end.

(** [a < b]; every comparison with NaN is false. *)
Definition dlt (a b : double) : bool :=
  match a, b with
  | NaN, _ | _, NaN => false
  | Fin x, Fin y => match Rcmp x y with Lt => true | _ => false end
  | NInf, (Fin _ | PInf) => true
  | Fin _, PInf => true
  | _, _ => false
  end.

Definition deq (a b : double) : bool :=
  match a, b with
  | Fin x, Fin y => match Rcmp x y with Eq => true | _ => false end
  | PInf, PInf | NInf, NInf => true
  | _, _ => false
  end.

Definition dgt (a b : double) : bool := dlt b a.
Definition dge (a b : double) : bool := dlt b a || deq a b.
Definition dne (a b : double) : bool := negb (deq a b).

Definition isnan (a : double) : bool :=
  match a with NaN => true | _ => false end.

Definition isfinite (a : double) : bool :=
  match a with Fin _ => true | _ => false end.

(** [std::min(a, b)] is [(b < a) ? b : a] and [std::max(a, b)] is
    [(a < b) ? b : a]. *)
Definition dmin (a b : double) : double := if dlt b a then b else a.
Definition dmax (a b : double) : double := if dlt a b then b else a.

Definition dsin (a : double) : double :=
  match a with
  | Fin x => Fin (sin x)
  | _ => NaN
  end.

Definition datan (a : double) : double :=
  match a with
  | Fin x => Fin (atan x)
  | PInf => Fin (PI / 2)
  | NInf => Fin (- (PI / 2))
  | NaN => NaN
  end.

(** Conversions of an [int] and of a [size_t] operand to [double]. *)
Definition of_int (z : Z) : double := Fin (IZR z).
Definition of_size (n : nat) : double := Fin (INR n).

Definition M_PI : double := Fin PI.

Declare Scope double_scope.
Delimit Scope double_scope with D.
Bind Scope double_scope with double.
Infix "+" := dadd : double_scope.
Infix "-" := dsub : double_scope.
Infix "*" := dmul : double_scope.
Infix "/" := ddiv : double_scope.
Notation "- a" := (dopp a) : double_scope.

Local Open Scope double_scope.

(** ** Vehicle geometry and the kinematics solver *)

(** [WheelParams] as [update] and [on_configure] read it. *)
Record WheelParams : Type := {
  wheels_per_side : nat;
  base : double;
  separation : double;
  radius : double;
  base_multiplier : double;
  separation_multiplier : double;
  left_radius_multiplier : double;
  right_radius_multiplier : double;
  angular_velocity_compensation : double;
  steering_angle_correction : double
}.

(** "Apply (possibly new) multipliers". *)
Definition wheel_base (wheels : WheelParams) : double :=
  base_multiplier wheels * base wheels.
Definition wheel_separation (wheels : WheelParams) : double :=
  separation_multiplier wheels * separation wheels.
Definition left_wheel_radius (wheels : WheelParams) : double :=
  left_radius_multiplier wheels * radius wheels.
Definition right_wheel_radius (wheels : WheelParams) : double :=
  right_radius_multiplier wheels * radius wheels.

(** [Ack6WDController::quadrant]. *)
Definition quadrant (linear angular : double) : nat :=
  if dgt linear (Fin 0) then
    if dge angular (Fin 0) then 0%nat else 1%nat
  else
    if dgt angular (Fin 0) then 2%nat else 3%nat.

(** The direction matrix [int d[4][4]] of [update]. *)
Definition d : list (list Z) :=
  [ [ 1;  1;  1;  1];      (* Linear > 0, Angular > 0 *)
    [-1; -1;  1;  1];      (* Linear > 0, Angular < 0 *)
    [-1; -1; -1; -1];      (* Linear < 0, Angular > 0 *)
    [ 1;  1; -1; -1] ]%Z.  (* Linear < 0, Angular < 0 *)

Definition d_at (q i : nat) : double :=
  of_int (nth i (nth q d []) 0%Z).

(** The values of [angle_left], ..., [velocity_mid_right] before the
    direction matrix is applied. *)
Record Geometry : Type := {
  angle_left : double;
  angle_right : double;
  velocity_left : double;
  velocity_right : double;
  velocity_mid_left : double;
  velocity_mid_right : double
}.

(** The three-way branch on the shaped command; [None] is the branch that
    logs "Turning radius is too short!" and returns ERROR. *)
Definition geometry (wheels : WheelParams) (linear_command angular_command : double)
  : option Geometry :=
  let ang_vel_comp := angular_velocity_compensation wheels in
  if deq angular_command (Fin 0) then
    let velocity_left := dabs (linear_command / left_wheel_radius wheels) in
    let velocity_right := dabs (linear_command / right_wheel_radius wheels) in
    Some {| angle_left := Fin 0; angle_right := Fin 0;
            velocity_left := velocity_left; velocity_right := velocity_right;
            velocity_mid_left := velocity_left; velocity_mid_right := velocity_right |}
  else if dne linear_command (Fin 0) then
    let turning_radius := dabs (linear_command / angular_command) in
    let angle_left :=
      M_PI / Fin 2 - datan ((Fin 2 * turning_radius - wheel_base wheels) / wheel_separation wheels) in
    let angle_right :=
      M_PI / Fin 2 - datan ((Fin 2 * turning_radius + wheel_base wheels) / wheel_separation wheels) in
    let left_axis := dabs (wheel_separation wheels / (Fin 2 * dsin angle_left)) in
    let right_axis := dabs (wheel_separation wheels / (Fin 2 * dsin angle_right)) in
    Some {| angle_left := angle_left; angle_right := angle_right;
            velocity_left :=
              dabs (angular_command * left_axis / left_wheel_radius wheels) * ang_vel_comp;
            velocity_right :=
              dabs (angular_command * right_axis / right_wheel_radius wheels) * ang_vel_comp;
            velocity_mid_left :=
              dabs (angular_command * (turning_radius - wheel_base wheels) / left_wheel_radius wheels)
              * ang_vel_comp;
            velocity_mid_right :=
              dabs (angular_command * (turning_radius + wheel_base wheels) / right_wheel_radius wheels)
              * ang_vel_comp |}
  else None.

(** The signed values computed from the direction matrix. *)
Record Setpoint : Type := {
  steering_angle_left : double;
  steering_angle_right : double;
  wheel_velocity_left : double;
  wheel_velocity_right : double;
  wheel_velocity_mid_left : double;
  wheel_velocity_mid_right : double
}.

Definition near_is_left (q : nat) : bool := Nat.eqb q 0 || Nat.eqb q 3.

Definition direct (wheels : WheelParams) (q : nat) (g : Geometry) : Setpoint :=
  let steering_correction := steering_angle_correction wheels in
  let pick (l r : double) := if near_is_left q then l else r in
  {| steering_angle_left := d_at q 0 * pick (angle_left g) (angle_right g) * steering_correction;
     steering_angle_right := d_at q 1 * pick (angle_right g) (angle_left g) * steering_correction;
     wheel_velocity_left := d_at q 2 * pick (velocity_left g) (velocity_right g);
     wheel_velocity_right := d_at q 3 * pick (velocity_right g) (velocity_left g);
     wheel_velocity_mid_left := d_at q 2 * pick (velocity_mid_left g) (velocity_mid_right g);
     wheel_velocity_mid_right := d_at q 3 * pick (velocity_mid_right g) (velocity_mid_left g) |}.

(** The solver: from the shaped command to the signed setpoint. *)
Definition solve (wheels : WheelParams) (linear_command angular_command : double)
  : option Setpoint :=
  match geometry wheels linear_command angular_command with
  | Some g => Some (direct wheels (quadrant linear_command angular_command) g)
  | None => None
  end.

(** What is handed to [set_value]: wheel speeds are scaled by [60 / 6.283]
    ("to rpm"), the front steered wheels receive [{left, -right}] and the
    rear ones [{-left, right}]. *)
Definition to_rpm (v : double) : double := v * Fin 60 / Fin 6.283.

Record Actuation : Type := {
  left_wheels_rpm : double;
  right_wheels_rpm : double;
  middle_right_rpm : double;
  middle_left_rpm : double;
  front_left_steering : double;
  front_right_steering : double;
  rear_left_steering : double;
  rear_right_steering : double
}.

Definition actuation (sp : Setpoint) : Actuation :=
  {| left_wheels_rpm := to_rpm (wheel_velocity_left sp);
     right_wheels_rpm := to_rpm (wheel_velocity_right sp);
     middle_right_rpm := to_rpm (wheel_velocity_mid_right sp);
     middle_left_rpm := to_rpm (wheel_velocity_mid_left sp);
     front_left_steering := steering_angle_left sp;
     front_right_steering := - steering_angle_right sp;
     rear_left_steering := - steering_angle_left sp;
     rear_right_steering := steering_angle_right sp |}.

(** ** The controller and the objects it holds *)

(** Clock values and durations are counted in nanoseconds, as
    [rclcpp::Time] and [rclcpp::Duration] do. *)
Definition Time : Type := Z.

Definition seconds (dt : Z) : double := Fin (IZR dt / IZR 1000000000).

(** The stamped twist (of [geometry_msgs::msg::TwistStamped], the fields
    [update] touches). *)
Record Twist : Type := {
  stamp : Time;
  linear_x : double;
  angular_z : double
}.

Definition empty_twist : Twist :=
  {| stamp := 0%Z; linear_x := Fin 0; angular_z := Fin 0 |}.

(** "Brake if cmd_vel has timeout, override the stored command". *)
Definition brake (msg : Twist) : Twist :=
  {| stamp := stamp msg; linear_x := Fin 0; angular_z := Fin 0 |}.

(** Modelled from the spec: speed_limiter.hpp is not part of the sources.
    The limiter's configuration per axis is three enable flags (velocity,
    acceleration, jerk), each with its own minimum and maximum. *)
Record SpeedLimiter : Type := {
  has_velocity_limits : bool;
  has_acceleration_limits : bool;
  has_jerk_limits : bool;
  min_velocity : double;
  max_velocity : double;
  min_acceleration : double;
  max_acceleration : double;
  min_jerk : double;
  max_jerk : double
}.

(** The signature of [SpeedLimiter::limit(v, v0, v1, dt)], returning the
    value left in [v]. *)
Definition Limit : Type := SpeedLimiter -> double -> double -> double -> double -> double.

(** The estimator.  The bodies of [Odometry]'s methods (odometry.cpp) are not
    part of the sources and [update] only calls them, so the object is
    represented by the update calls made on it, the most recent first: every
    value its getters return is a function of that sequence. *)
Inductive OdometryCall : Type :=
| UpdateOpenLoop (linear angular : double) (time : Time)
| UpdateVel (angle velocity : double) (time : Time).

Definition Odometry : Type := list OdometryCall.

Definition updateOpenLoop (linear angular : double) (time : Time) (o : Odometry) : Odometry :=
  UpdateOpenLoop linear angular time :: o.

Definition updateVel (angle velocity : double) (time : Time) (o : Odometry) : Odometry :=
  UpdateVel angle velocity time :: o.

(** The registered handles.  [update] reads and writes a wheel through the
    one member [velocity] of its handle and a steering through the one member
    [position], so each handle is the cell that member refers to. *)
Record Handles : Type := {
  registered_left_wheel_handles_ : list double;
  registered_right_wheel_handles_ : list double;
  registered_middle_wheel_handles_ : list double;
  registered_left_steering_handles_ : list double;
  registered_right_steering_handles_ : list double
}.

(** The members of [Ack6WDController] that [update] reads or writes.
    [inactive] is [get_current_state().id() == PRIMARY_STATE_INACTIVE];
    [received_velocity_msg_ptr_] is the message the box's shared pointer
    refers to ([None] for [nullptr]); [cmd_vel_timeout_] is in milliseconds.
    The realtime publishers are write-only and are left out. *)
Record Controller : Type := {
  inactive : bool;
  is_halted : bool;
  received_velocity_msg_ptr_ : option Twist;
  cmd_vel_timeout_ : Z;
  wheel_params_ : WheelParams;
  open_loop : bool;
  odometry_ : Odometry;
  previous_publish_timestamp_ : Time;
  publish_period_ : Z;
  previous_update_timestamp_ : Time;
  previous_commands_ : list Twist;
  limiter_linear_ : SpeedLimiter;
  limiter_angular_ : SpeedLimiter;
  handles : Handles
}.

Definition set_is_halted (b : bool) (c : Controller) : Controller :=
  {| inactive := inactive c; is_halted := b;
     received_velocity_msg_ptr_ := received_velocity_msg_ptr_ c;
     cmd_vel_timeout_ := cmd_vel_timeout_ c; wheel_params_ := wheel_params_ c;
     open_loop := open_loop c; odometry_ := odometry_ c;
     previous_publish_timestamp_ := previous_publish_timestamp_ c;
     publish_period_ := publish_period_ c;
     previous_update_timestamp_ := previous_update_timestamp_ c;
     previous_commands_ := previous_commands_ c;
     limiter_linear_ := limiter_linear_ c; limiter_angular_ := limiter_angular_ c;
     handles := handles c |}.

Definition set_received (m : option Twist) (c : Controller) : Controller :=
  {| inactive := inactive c; is_halted := is_halted c;
     received_velocity_msg_ptr_ := m;
     cmd_vel_timeout_ := cmd_vel_timeout_ c; wheel_params_ := wheel_params_ c;
     open_loop := open_loop c; odometry_ := odometry_ c;
     previous_publish_timestamp_ := previous_publish_timestamp_ c;
     publish_period_ := publish_period_ c;
     previous_update_timestamp_ := previous_update_timestamp_ c;
     previous_commands_ := previous_commands_ c;
     limiter_linear_ := limiter_linear_ c; limiter_angular_ := limiter_angular_ c;
     handles := handles c |}.

Definition set_odometry (o : Odometry) (c : Controller) : Controller :=
  {| inactive := inactive c; is_halted := is_halted c;
     received_velocity_msg_ptr_ := received_velocity_msg_ptr_ c;
     cmd_vel_timeout_ := cmd_vel_timeout_ c; wheel_params_ := wheel_params_ c;
     open_loop := open_loop c; odometry_ := o;
     previous_publish_timestamp_ := previous_publish_timestamp_ c;
     publish_period_ := publish_period_ c;
     previous_update_timestamp_ := previous_update_timestamp_ c;
     previous_commands_ := previous_commands_ c;
     limiter_linear_ := limiter_linear_ c; limiter_angular_ := limiter_angular_ c;
     handles := handles c |}.

Definition set_previous_publish_timestamp (t : Time) (c : Controller) : Controller :=
  {| inactive := inactive c; is_halted := is_halted c;
     received_velocity_msg_ptr_ := received_velocity_msg_ptr_ c;
     cmd_vel_timeout_ := cmd_vel_timeout_ c; wheel_params_ := wheel_params_ c;
     open_loop := open_loop c; odometry_ := odometry_ c;
     previous_publish_timestamp_ := t;
     publish_period_ := publish_period_ c;
     previous_update_timestamp_ := previous_update_timestamp_ c;
     previous_commands_ := previous_commands_ c;
     limiter_linear_ := limiter_linear_ c; limiter_angular_ := limiter_angular_ c;
     handles := handles c |}.

Definition set_previous_update (t : Time) (q : list Twist) (c : Controller) : Controller :=
  {| inactive := inactive c; is_halted := is_halted c;
     received_velocity_msg_ptr_ := received_velocity_msg_ptr_ c;
     cmd_vel_timeout_ := cmd_vel_timeout_ c; wheel_params_ := wheel_params_ c;
     open_loop := open_loop c; odometry_ := odometry_ c;
     previous_publish_timestamp_ := previous_publish_timestamp_ c;
     publish_period_ := publish_period_ c;
     previous_update_timestamp_ := t;
     previous_commands_ := q;
     limiter_linear_ := limiter_linear_ c; limiter_angular_ := limiter_angular_ c;
     handles := handles c |}.

Definition set_handles (h : Handles) (c : Controller) : Controller :=
  {| inactive := inactive c; is_halted := is_halted c;
     received_velocity_msg_ptr_ := received_velocity_msg_ptr_ c;
     cmd_vel_timeout_ := cmd_vel_timeout_ c; wheel_params_ := wheel_params_ c;
     open_loop := open_loop c; odometry_ := odometry_ c;
     previous_publish_timestamp_ := previous_publish_timestamp_ c;
     publish_period_ := publish_period_ c;
     previous_update_timestamp_ := previous_update_timestamp_ c;
     previous_commands_ := previous_commands_ c;
     limiter_linear_ := limiter_linear_ c; limiter_angular_ := limiter_angular_ c;
     handles := h |}.

(** [controller_interface::return_type]. *)
Inductive return_type : Type := OK | ERROR.

(** The result of a tick: the value returned with the controller it leaves,
    or [Undefined] when the tick indexes a handle vector or the command queue
    out of range, which C++ leaves undefined. *)
Inductive outcome : Type :=
| Ret (r : return_type) (c : Controller)
| Undefined.

(** The result of a block of the tick: it falls through with a value, makes
    the tick return, or is undefined. *)
Inductive step (A : Type) : Type :=
| Next (a : A)
| Exit (r : return_type)
| Fault.
Arguments Next {A} a.
Arguments Exit {A} r.
Arguments Fault {A}.

(** [halt]: every wheel velocity and steering position is set to zero. *)
Definition halt (h : Handles) : Handles :=
  let zero := map (fun _ : double => Fin 0) in
  {| registered_left_wheel_handles_ := zero (registered_left_wheel_handles_ h);
     registered_right_wheel_handles_ := zero (registered_right_wheel_handles_ h);
     registered_middle_wheel_handles_ := zero (registered_middle_wheel_handles_ h);
     registered_left_steering_handles_ := zero (registered_left_steering_handles_ h);
     registered_right_steering_handles_ := zero (registered_right_steering_handles_ h) |}.

(** [handles[index].set_value(v)]. *)
Fixpoint set_value (index : nat) (v : double) (l : list double) : option (list double) :=
  match l, index with
  | [], _ => None
  | _ :: l', O => Some (v :: l')
  | x :: l', S i => option_map (cons x) (set_value i v l')
  end.

(** The loop "Set motor state" over the wheels of both sides. *)
Fixpoint set_side_wheels (k index : nat) (vl vr : double) (left right : list double)
  : option (list double * list double) :=
  match k with
  | O => Some (left, right)
  | S k' =>
      match set_value index vl left with
      | Some left' =>
          match set_value index vr right with
          | Some right' => set_side_wheels k' (S index) vl vr left' right'
          | None => None
          end
      | None => None
      end
  end.

Definition obind {A B : Type} (o : option A) (f : A -> option B) : option B :=
  match o with
  | Some a => f a
  | None => None
  end.

Notation "x <- o ;; k" := (obind o (fun x => k))
  (at level 61, o at next level, right associativity).

(** The writes that end [update], in the order of the source. *)
Definition write_setpoint (wheels_per_side : nat) (a : Actuation) (h : Handles)
  : option Handles :=
  sides <- set_side_wheels wheels_per_side 0 (left_wheels_rpm a) (right_wheels_rpm a)
             (registered_left_wheel_handles_ h) (registered_right_wheel_handles_ h) ;;
  middle0 <- set_value 0 (middle_right_rpm a) (registered_middle_wheel_handles_ h) ;;
  middle1 <- set_value 1 (middle_left_rpm a) middle0 ;;
  lsteer0 <- set_value 0 (front_left_steering a) (registered_left_steering_handles_ h) ;;
  rsteer0 <- set_value 0 (front_right_steering a) (registered_right_steering_handles_ h) ;;
  lsteer1 <- set_value 1 (rear_left_steering a) lsteer0 ;;
  rsteer1 <- set_value 1 (rear_right_steering a) rsteer0 ;;
  Some {| registered_left_wheel_handles_ := fst sides;
          registered_right_wheel_handles_ := snd sides;
          registered_middle_wheel_handles_ := middle1;
          registered_left_steering_handles_ := lsteer1;
          registered_right_steering_handles_ := rsteer1 |}.

(** ** Closed-loop feedback *)

(** The scaling of a wheel velocity read from its handle ("to rad/s"). *)
Definition to_rads (v : double) : double := v * Fin 2 * Fin 3.14 / Fin 60.

(** The locals of the feedback loop. *)
Record Feedback : Type := {
  q : nat;
  left_velocity_mean : double;
  right_velocity_mean : double;
  left_angle_mean : double;
  right_angle_mean : double
}.

Definition feedback_init : Feedback :=
  {| q := 0; left_velocity_mean := Fin 0; right_velocity_mean := Fin 0;
     left_angle_mean := Fin 0; right_angle_mean := Fin 0 |}.

(** The loop over [index < wheels_per_side], with [k] iterations left. *)
Fixpoint feedback_loop (h : Handles) (k index : nat) (acc : Feedback) : step Feedback :=
  match k with
  | O => Next acc
  | S k' =>
      match nth_error (registered_left_wheel_handles_ h) index,
            nth_error (registered_right_wheel_handles_ h) index,
            nth_error (registered_left_steering_handles_ h) index,
            nth_error (registered_right_steering_handles_ h) index with
      | Some lv, Some rv, Some left_angle, Some right_angle =>
          let left_velocity := to_rads lv in
          let right_velocity := to_rads rv in
          let q' := if Nat.eqb index 0 then quadrant left_velocity left_angle else q acc in
          if isnan left_velocity || isnan right_velocity then Exit ERROR
          else if isnan left_angle || isnan right_angle then Exit ERROR
          else
            feedback_loop h k' (S index)
              {| q := q';
                 left_velocity_mean := left_velocity_mean acc + dabs left_velocity;
                 right_velocity_mean := right_velocity_mean acc + dabs right_velocity;
                 left_angle_mean := left_angle_mean acc + dabs left_angle;
                 right_angle_mean := right_angle_mean acc + dabs right_angle |}
      | _, _, _, _ => Fault
      end
  end.

(** The sign factors [(q == 0 || q == 1 ? 1 : -1)] and
    [(q == 0 || q == 2 ? 1 : -1)]. *)
Definition velocity_sign (q : nat) : double :=
  of_int (if Nat.eqb q 0 || Nat.eqb q 1 then 1 else -1).
Definition angle_sign (q : nat) : double :=
  of_int (if Nat.eqb q 0 || Nat.eqb q 2 then 1 else -1).

(** The pair [(angle_encoder, velocity_encoder)] handed to [updateVel]. *)
Definition encoders (wheels_per_side : nat) (h : Handles) : step (double * double) :=
  match feedback_loop h wheels_per_side 0 feedback_init with
  | Next acc =>
      let n := of_size wheels_per_side in
      let left_velocity_mean := left_velocity_mean acc / n in
      let right_velocity_mean := right_velocity_mean acc / n in
      let left_angle_mean := left_angle_mean acc / n in
      let right_angle_mean := right_angle_mean acc / n in
      let velocity_encoder :=
        dmin (dabs left_velocity_mean) (dabs right_velocity_mean) * velocity_sign (q acc) in
      let angle_encoder :=
        dmax (dabs left_angle_mean) (dabs right_angle_mean) * angle_sign (q acc) in
      Next (angle_encoder, velocity_encoder)
  | Exit r => Exit r
  | Fault => Fault
  end.

(** ** The tick *)

(** The command fetched from the box, after the staleness override: the
    override is written through the shared pointer, so it is the stored
    message that changes. *)
Definition fetch (now : Time) (c : Controller) (msg : Twist) : Twist :=
  let dt := (now - stamp msg)%Z in
  if (dt >? cmd_vel_timeout_ c * 1000000)%Z then brake msg else msg.

(** The turning-radius check [angular_command != 0 && linear_command == 0]
    that precedes the odometry block. *)
Definition radius_undefined (command : Twist) : bool :=
  dne (angular_z command) (Fin 0) && deq (linear_x command) (Fin 0).

(** The odometry block: open loop, or the feedback reduction and [updateVel]. *)
Definition estimate (now : Time) (linear_command angular_command : double) (c : Controller)
  : step Controller :=
  if open_loop c then
    Next (set_odometry (updateOpenLoop linear_command angular_command now (odometry_ c)) c)
  else
    match encoders (wheels_per_side (wheel_params_ c)) (handles c) with
    | Next (angle_encoder, velocity_encoder) =>
        Next (set_odometry (updateVel angle_encoder velocity_encoder now (odometry_ c)) c)
    | Exit r => Exit r
    | Fault => Fault
    end.

(** The publishing block, as far as it changes the controller. *)
Definition publish (now : Time) (c : Controller) : Controller :=
  if (previous_publish_timestamp_ c + publish_period_ c <? now)%Z then
    set_previous_publish_timestamp (previous_publish_timestamp_ c + publish_period_ c)%Z c
  else c.

(** The limiter block: both axes are limited against the two previous
    commands, and the limited command replaces the older of them.  [front]
    and [back] of an empty queue are undefined. *)
Definition shape (limit : Limit) (now : Time) (command : Twist) (c : Controller)
  : option (Twist * Controller) :=
  match previous_commands_ c with
  | [] => None
  | second_to_last_command :: rest =>
      let last_command := last rest second_to_last_command in
      let update_dt := seconds (now - previous_update_timestamp_ c) in
      let command' :=
        {| stamp := stamp command;
           linear_x := limit (limiter_linear_ c) (linear_x command)
                         (linear_x last_command) (linear_x second_to_last_command) update_dt;
           angular_z := limit (limiter_angular_ c) (angular_z command)
                          (angular_z last_command) (angular_z second_to_last_command) update_dt |} in
      Some (command', set_previous_update now (rest ++ [command']) c)
  end.

(** The value [update] returns after the solver block. *)
Definition return_of (sp : option Setpoint) : return_type :=
  match sp with
  | Some _ => OK
  | None => ERROR
  end.

(** The solver block and the writes to the handles. *)
Definition actuate (command : Twist) (c : Controller) : outcome :=
  match solve (wheel_params_ c) (linear_x command) (angular_z command) with
  | None => Ret ERROR c
  | Some sp =>
      match write_setpoint (wheels_per_side (wheel_params_ c)) (actuation sp) (handles c) with
      | None => Undefined
      | Some h => Ret OK (set_handles h c)
      end
  end.

(** [Ack6WDController::update]. *)
Definition update (limit : Limit) (now : Time) (c : Controller) : outcome :=
  if inactive c then
    Ret OK (if is_halted c then c else set_is_halted true (set_handles (halt (handles c)) c))
  else
    match received_velocity_msg_ptr_ c with
    | None => Ret ERROR c
    | Some msg =>
        let last_msg := fetch now c msg in
        let c := set_received (Some last_msg) c in
        let command := last_msg in
        if radius_undefined command then Ret ERROR c
        else
          match estimate now (linear_x command) (angular_z command) c with
          | Fault => Undefined
          | Exit r => Ret r c
          | Next c =>
              let c := publish now c in
              match shape limit now command c with
              | None => Undefined
              | Some (command, c) => actuate command c
              end
          end
    end.

(** ** The limiter of the specification *)

Definition clamp (x lo hi : double) : double :=
  if dlt x lo then lo else if dlt hi x then hi else x.

(** Modelled from the spec: speed_limiter.cpp is not part of the sources.
    The value is first clamped to the velocity bounds; then the acceleration
    [(v - v0) / dt] is clamped and the value recomputed from it; then the jerk
    is clamped and the acceleration and the value recomputed.  Each stage runs
    only when its flag is set.  The previous acceleration is taken over the
    same [dt], and with [dt <= 0] an enabled acceleration or jerk stage
    reuses the previous value [v0]. *)
Definition SpeedLimiter_limit : Limit := fun lim v v0 v1 dt =>
  let v := if has_velocity_limits lim then clamp v (min_velocity lim) (max_velocity lim) else v in
  if has_acceleration_limits lim || has_jerk_limits lim then
    if dgt dt (Fin 0) then
      let acceleration := (v - v0) / dt in
      let acceleration :=
        if has_acceleration_limits lim
        then clamp acceleration (min_acceleration lim) (max_acceleration lim)
        else acceleration in
      let previous_acceleration := (v0 - v1) / dt in
      let acceleration :=
        if has_jerk_limits lim
        then previous_acceleration
             + clamp ((acceleration - previous_acceleration) / dt) (min_jerk lim) (max_jerk lim) * dt
        else acceleration in
      v0 + acceleration * dt
    else v0
  else v.

(** The limiter as [init] declares its parameters: no limit enabled, every
    bound NaN. *)
Definition unlimited : SpeedLimiter :=
  {| has_velocity_limits := false; has_acceleration_limits := false; has_jerk_limits := false;
     min_velocity := NaN; max_velocity := NaN;
     min_acceleration := NaN; max_acceleration := NaN;
     min_jerk := NaN; max_jerk := NaN |}.

(** ** The formulas of the specification *)

(** The steering angle of the specification for a turning radius: the near
    angle subtracts the wheel base, the far angle adds it. *)
Definition spec_angle (far : bool) (turningRadius wheelBase wheelSeparation : double) : double :=
  let offset := if far then Fin 2 * turningRadius + wheelBase
                else Fin 2 * turningRadius - wheelBase in
  M_PI / Fin 2 - datan (offset / wheelSeparation).

(** The steered-axle wheel speed of the specification, before the sign. *)
Definition spec_steered_speed (angular wheelSeparation angle wheelRadius compensation : double)
  : double :=
  dabs (angular * (wheelSeparation / (Fin 2 * dsin angle)) / wheelRadius) * compensation.

(** The middle-axle wheel speed of the specification, before the sign. *)
Definition spec_middle_speed (far : bool)
  (angular turningRadius wheelBase wheelRadius compensation : double) : double :=
  let arm := if far then turningRadius + wheelBase else turningRadius - wheelBase in
  dabs (angular * arm / wheelRadius) * compensation.

(** The sum the feedback loop accumulates over a list of readings. *)
Definition accumulate (acc : double) (vs : list double) : double :=
  fold_left (fun s v => s + dabs v) vs acc.

(** The mean of the absolute values of a list of readings. *)
Definition mean_abs (vs : list double) : double :=
  accumulate (Fin 0) vs / of_size (length vs).

(** The representative (angle, velocity) pair of the specification for the
    wheel velocities (in rad/s) and the steering angles of the two sides. *)
Definition spec_representative (lv rv la ra : list double) : double * double :=
  let q := quadrant (hd (Fin 0) lv) (hd (Fin 0) la) in
  (dmax (mean_abs la) (mean_abs ra)
     * (if Nat.eqb q 0 || Nat.eqb q 2 then Fin 1 else Fin (-1)),
   dmin (mean_abs lv) (mean_abs rv)
     * (if Nat.eqb q 0 || Nat.eqb q 1 then Fin 1 else Fin (-1))).

(** The exact radian-per-second value of a speed in revolutions per minute,
    and back. *)
Definition exact_rpm_to_rads (v : R) : R := (v * (2 * PI / 60))%R.
Definition exact_rads_to_rpm (v : R) : R := (v * (60 / (2 * PI)))%R.

(** ** Sample configurations *)

(** A vehicle whose lengths, radii and factors are all one. *)
Definition unit_wheels : WheelParams :=
  {| wheels_per_side := 2;
     base := Fin 1; separation := Fin 1; radius := Fin 1;
     base_multiplier := Fin 1; separation_multiplier := Fin 1;
     left_radius_multiplier := Fin 1; right_radius_multiplier := Fin 1;
     angular_velocity_compensation := Fin 1; steering_angle_correction := Fin 1 |}.

(** The same vehicle with the wheel radius that [WheelParams] is constructed
    with, [radius = 0.0]. *)
Definition default_radius_wheels : WheelParams :=
  {| wheels_per_side := 2;
     base := Fin 1; separation := Fin 1; radius := Fin 0;
     base_multiplier := Fin 1; separation_multiplier := Fin 1;
     left_radius_multiplier := Fin 1; right_radius_multiplier := Fin 1;
     angular_velocity_compensation := Fin 1; steering_angle_correction := Fin 1 |}.

(** What the solver computes from a NaN command. *)
Definition nan_geometry : Geometry :=
  {| angle_left := NaN; angle_right := NaN; velocity_left := NaN; velocity_right := NaN;
     velocity_mid_left := NaN; velocity_mid_right := NaN |}.

Definition nan_setpoint : Setpoint :=
  {| steering_angle_left := NaN; steering_angle_right := NaN;
     wheel_velocity_left := NaN; wheel_velocity_right := NaN;
     wheel_velocity_mid_left := NaN; wheel_velocity_mid_right := NaN |}.

(** ** The divisors of the curved case *)

(** The argument of [atan] in the two steering angles of the curved case,
    the quotient by [wheel_separation]. *)
Definition atan_argument (far : bool) (wheels : WheelParams)
  (linear_command angular_command : double) : double :=
  let turning_radius := dabs (linear_command / angular_command) in
  (if far then Fin 2 * turning_radius + wheel_base wheels
   else Fin 2 * turning_radius - wheel_base wheels) / wheel_separation wheels.

(** The unit vehicle with a zero wheel separation. *)
Definition zero_separation_wheels : WheelParams :=
  {| wheels_per_side := 2;
     base := Fin 1; separation := Fin 0; radius := Fin 1;
     base_multiplier := Fin 1; separation_multiplier := Fin 1;
     left_radius_multiplier := Fin 1; right_radius_multiplier := Fin 1;
     angular_velocity_compensation := Fin 1; steering_angle_correction := Fin 1 |}.

(** ** Well-formed controllers *)

(** The handle vectors are long enough for every index [update] uses (the
    wheels of both sides up to [wheels_per_side], two middle wheels, two
    steerings per side, and in closed loop the steerings up to
    [wheels_per_side]) and the queue of previous commands is not empty, as
    [on_configure] and [on_activate] leave them. *)
Definition well_formed (c : Controller) : bool :=
  let n := wheels_per_side (wheel_params_ c) in
  let h := handles c in
  (n <=? length (registered_left_wheel_handles_ h))%nat
  && (n <=? length (registered_right_wheel_handles_ h))%nat
  && (2 <=? length (registered_middle_wheel_handles_ h))%nat
  && (2 <=? length (registered_left_steering_handles_ h))%nat
  && (2 <=? length (registered_right_steering_handles_ h))%nat
  && (open_loop c
      || ((n <=? length (registered_left_steering_handles_ h))%nat
          && (n <=? length (registered_right_steering_handles_ h))%nat))
  && negb (Nat.eqb (length (previous_commands_ c)) 0).

(** The readings of the first [n] handles of a vector. *)
Definition readings (n : nat) (l : list double) : list double := firstn n l.

(** The limited command of a tick, read off the controller the limiter
    block starts from. *)
Definition shaped (limit : Limit) (now : Time) (command : Twist) (c : Controller) : Twist :=
  let second_to_last_command := hd empty_twist (previous_commands_ c) in
  let last_command := last (previous_commands_ c) empty_twist in
  let update_dt := seconds (now - previous_update_timestamp_ c) in
  {| stamp := stamp command;
     linear_x := limit (limiter_linear_ c) (linear_x command)
                   (linear_x last_command) (linear_x second_to_last_command) update_dt;
     angular_z := limit (limiter_angular_ c) (angular_z command)
                    (angular_z last_command) (angular_z second_to_last_command) update_dt |}.

(** Whether one of the four readings of an index is NaN. *)
Definition nan_at (h : Handles) (index : nat) : bool :=
  isnan (nth index (registered_left_wheel_handles_ h) (Fin 0))
  || isnan (nth index (registered_right_wheel_handles_ h) (Fin 0))
  || isnan (nth index (registered_left_steering_handles_ h) (Fin 0))
  || isnan (nth index (registered_right_steering_handles_ h) (Fin 0)).

(** The four handle vectors the feedback loop reads have [n] elements at
    least. *)
Definition in_range (h : Handles) (n : nat) : Prop :=
  (n <= length (registered_left_wheel_handles_ h))%nat /\
  (n <= length (registered_right_wheel_handles_ h))%nat /\
  (n <= length (registered_left_steering_handles_ h))%nat /\
  (n <= length (registered_right_steering_handles_ h))%nat.

(** The sign of a value that differs from zero. *)
Inductive sign_class (a : double) : Prop :=
| IsPositive : dgt a (Fin 0) = true -> dge a (Fin 0) = true ->
    dgt (- a) (Fin 0) = false -> dge (- a) (Fin 0) = false -> sign_class a
| IsNegative : dgt a (Fin 0) = false -> dge a (Fin 0) = false ->
    dgt (- a) (Fin 0) = true -> dge (- a) (Fin 0) = true -> sign_class a
| IsNaN : a = NaN -> sign_class a.

(** ** Sample controllers *)

(** Handles of a vehicle with two wheels and two steerings per side, every
    wheel reading [v] and every steering reading 0. *)
Definition handles_reading (v : double) : Handles :=
  {| registered_left_wheel_handles_ := [v; v];
     registered_right_wheel_handles_ := [v; v];
     registered_middle_wheel_handles_ := [Fin 0; Fin 0];
     registered_left_steering_handles_ := [Fin 0; Fin 0];
     registered_right_steering_handles_ := [Fin 0; Fin 0] |}.

(** An activated controller as [on_configure] leaves it (timeout 500 ms,
    publish period 20 ms, two empty previous commands, no odometry update
    yet), holding the message [msg]. *)
Definition configured (open : bool) (msg : Twist) (linear_limiter : SpeedLimiter)
  (h : Handles) : Controller :=
  {| inactive := false; is_halted := false;
     received_velocity_msg_ptr_ := Some msg;
     cmd_vel_timeout_ := 500%Z;
     wheel_params_ := unit_wheels;
     open_loop := open;
     odometry_ := [];
     previous_publish_timestamp_ := 0%Z;
     publish_period_ := 20000000%Z;
     previous_update_timestamp_ := 0%Z;
     previous_commands_ := [empty_twist; empty_twist];
     limiter_linear_ := linear_limiter;
     limiter_angular_ := unlimited;
     handles := h |}.

(** A linear limiter that only bounds the velocity to [-1, 1]. *)
Definition velocity_limited : SpeedLimiter :=
  {| has_velocity_limits := true; has_acceleration_limits := false; has_jerk_limits := false;
     min_velocity := Fin (-1); max_velocity := Fin 1;
     min_acceleration := NaN; max_acceleration := NaN;
     min_jerk := NaN; max_jerk := NaN |}.

(** One second on the clock. *)
Definition one_second : Time := 1000000000%Z.

(** A command of (1 m/s, 0.5 rad/s) stamped one second before [one_second]. *)
Definition stale_msg : Twist :=
  {| stamp := 0%Z; linear_x := Fin 1; angular_z := Fin 0.5 |}.

(** Commands stamped at [one_second]: a pure rotation, a fast forward
    command and a slow forward one. *)
Definition spin_msg : Twist :=
  {| stamp := one_second; linear_x := Fin 0; angular_z := Fin 1 |}.
Definition fast_msg : Twist :=
  {| stamp := one_second; linear_x := Fin 5; angular_z := Fin 0 |}.
Definition forward_msg : Twist :=
  {| stamp := one_second; linear_x := Fin 1; angular_z := Fin 0 |}.

(** Handles as [handles_reading], the first left wheel reading NaN. *)
Definition handles_nan : Handles :=
  {| registered_left_wheel_handles_ := [NaN; Fin 0];
     registered_right_wheel_handles_ := [Fin 0; Fin 0];
     registered_middle_wheel_handles_ := [Fin 0; Fin 0];
     registered_left_steering_handles_ := [Fin 0; Fin 0];
     registered_right_steering_handles_ := [Fin 0; Fin 0] |}.

(** * Further properties of the controller: definitions *)

(** The five handle vectors keep their lengths. *)
Definition same_shape (h h' : Handles) : Prop :=
  length (registered_left_wheel_handles_ h') = length (registered_left_wheel_handles_ h) /\
  length (registered_right_wheel_handles_ h') = length (registered_right_wheel_handles_ h) /\
  length (registered_middle_wheel_handles_ h') = length (registered_middle_wheel_handles_ h) /\
  length (registered_left_steering_handles_ h') = length (registered_left_steering_handles_ h) /\
  length (registered_right_steering_handles_ h') = length (registered_right_steering_handles_ h).

(** The configuration a tick never changes. *)
Definition same_configuration (c c' : Controller) : Prop :=
  inactive c' = inactive c /\
  cmd_vel_timeout_ c' = cmd_vel_timeout_ c /\
  wheel_params_ c' = wheel_params_ c /\
  open_loop c' = open_loop c /\
  publish_period_ c' = publish_period_ c /\
  limiter_linear_ c' = limiter_linear_ c /\
  limiter_angular_ c' = limiter_angular_ c.

(** ** Handles as references *)

(** A handle holds [std::reference_wrapper]s, so the member [update] reads
    and writes through refers to an interface that another handle may refer
    to as well (a joint name given twice, or the handles an earlier
    activation left in the vector).  [Interfaces] holds the values of the
    interfaces, and a handle is the position of the interface its member
    refers to. *)
Definition Interfaces : Type := list double.

Record References : Type := {
  left_wheel_references : list nat;
  right_wheel_references : list nat;
  middle_wheel_references : list nat;
  left_steering_references : list nat;
  right_steering_references : list nat
}.

(** [handles[index].member.get().set_value(v)]. *)
Definition set_through (references : list nat) (index : nat) (v : double) (s : Interfaces)
  : option Interfaces :=
  match nth_error references index with
  | Some k => set_value k v s
  | None => None
  end.

(** The loop "Set motor state", written through the references. *)
Fixpoint set_side_wheels_through (k index : nat) (vl vr : double) (left right : list nat)
  (s : Interfaces) : option Interfaces :=
  match k with
  | O => Some s
  | S k' =>
      s <- set_through left index vl s ;;
      s <- set_through right index vr s ;;
      set_side_wheels_through k' (S index) vl vr left right s
  end.

(** The writes that end [update], in the order of the source, through the
    references. *)
Definition write_setpoint_through (wheels_per_side : nat) (a : Actuation) (r : References)
  (s : Interfaces) : option Interfaces :=
  s <- set_side_wheels_through wheels_per_side 0 (left_wheels_rpm a) (right_wheels_rpm a)
         (left_wheel_references r) (right_wheel_references r) s ;;
  s <- set_through (middle_wheel_references r) 0 (middle_right_rpm a) s ;;
  s <- set_through (middle_wheel_references r) 1 (middle_left_rpm a) s ;;
  s <- set_through (left_steering_references r) 0 (front_left_steering a) s ;;
  s <- set_through (right_steering_references r) 0 (front_right_steering a) s ;;
  s <- set_through (left_steering_references r) 1 (rear_left_steering a) s ;;
  s <- set_through (right_steering_references r) 1 (rear_right_steering a) s ;;
  Some s.

(** [handles[index].member.get().get_value()] for every handle of a vector. *)
Definition read_through (s : Interfaces) (references : list nat) : list double :=
  map (fun k => nth k s NaN) references.

(** The cells the handles show. *)
Definition observed (r : References) (s : Interfaces) : Handles :=
  {| registered_left_wheel_handles_ := read_through s (left_wheel_references r);
     registered_right_wheel_handles_ := read_through s (right_wheel_references r);
     registered_middle_wheel_handles_ := read_through s (middle_wheel_references r);
     registered_left_steering_handles_ := read_through s (left_steering_references r);
     registered_right_steering_handles_ := read_through s (right_steering_references r) |}.





Definition interfaces_reading (v : double) : Interfaces :=
  [v; v; v; v; Fin 0; Fin 0; Fin 0; Fin 0; Fin 0; Fin 0].

(** The handles of a controller activated twice over two wheels per side:
    the handles of the second activation refer to the interfaces of the
    first. *)
Definition reactivated_references : References :=
  {| left_wheel_references := [0; 1; 0; 1]%nat;
     right_wheel_references := [2; 3; 2; 3]%nat;
     middle_wheel_references := [4; 5; 4; 5]%nat;
     left_steering_references := [6; 7; 6; 7]%nat;
     right_steering_references := [8; 9; 8; 9]%nat |}.

(** Every cell of every handle vector reads zero. *)
Definition all_zero (h : Handles) : Prop :=
  Forall (eq (Fin 0)) (registered_left_wheel_handles_ h) /\
  Forall (eq (Fin 0)) (registered_right_wheel_handles_ h) /\
  Forall (eq (Fin 0)) (registered_middle_wheel_handles_ h) /\
  Forall (eq (Fin 0)) (registered_left_steering_handles_ h) /\
  Forall (eq (Fin 0)) (registered_right_steering_handles_ h).

(** The handle vectors are long enough for the writes that end a tick. *)
Definition writable (n : nat) (h : Handles) : Prop :=
  (n <= length (registered_left_wheel_handles_ h))%nat /\
  (n <= length (registered_right_wheel_handles_ h))%nat /\
  (2 <= length (registered_middle_wheel_handles_ h))%nat /\
  (2 <= length (registered_left_steering_handles_ h))%nat /\
  (2 <= length (registered_right_steering_handles_ h))%nat.

(** The cells of [h'] hold the actuation [a] at the indices the tick writes
    ([n] wheels per side, two middle wheels, two steerings per side) and the
    cells of [h] elsewhere. *)
Definition holds_setpoint (n : nat) (a : Actuation) (h h' : Handles) : Prop :=
  (forall i, (i < n)%nat ->
     nth_error (registered_left_wheel_handles_ h') i = Some (left_wheels_rpm a) /\
     nth_error (registered_right_wheel_handles_ h') i = Some (right_wheels_rpm a)) /\
  (forall i, (n <= i)%nat ->
     nth_error (registered_left_wheel_handles_ h') i
       = nth_error (registered_left_wheel_handles_ h) i /\
     nth_error (registered_right_wheel_handles_ h') i
       = nth_error (registered_right_wheel_handles_ h) i) /\
  nth_error (registered_middle_wheel_handles_ h') 0 = Some (middle_right_rpm a) /\
  nth_error (registered_middle_wheel_handles_ h') 1 = Some (middle_left_rpm a) /\
  nth_error (registered_left_steering_handles_ h') 0 = Some (front_left_steering a) /\
  nth_error (registered_left_steering_handles_ h') 1 = Some (rear_left_steering a) /\
  nth_error (registered_right_steering_handles_ h') 0 = Some (front_right_steering a) /\
  nth_error (registered_right_steering_handles_ h') 1 = Some (rear_right_steering a) /\
  (forall i, (2 <= i)%nat ->
     nth_error (registered_middle_wheel_handles_ h') i
       = nth_error (registered_middle_wheel_handles_ h) i /\
     nth_error (registered_left_steering_handles_ h') i
       = nth_error (registered_left_steering_handles_ h) i /\
     nth_error (registered_right_steering_handles_ h') i
       = nth_error (registered_right_steering_handles_ h) i).

(** ** The outcomes of an active tick *)

(** The stamp the publishing block leaves in [previous_publish_timestamp_]. *)
Definition published (now : Time) (c : Controller) : Time :=
  if (previous_publish_timestamp_ c + publish_period_ c <? now)%Z
  then (previous_publish_timestamp_ c + publish_period_ c)%Z
  else previous_publish_timestamp_ c.

(** The call the odometry block makes on the estimator. *)
Definition estimator_call (now : Time) (command : Twist) (c : Controller) (o : OdometryCall)
  : Prop :=
  if open_loop c then o = UpdateOpenLoop (linear_x command) (angular_z command) now
  else exists angle_encoder velocity_encoder,
      encoders (wheels_per_side (wheel_params_ c)) (handles c)
        = Next (angle_encoder, velocity_encoder) /\
      o = UpdateVel angle_encoder velocity_encoder now.

(** The controller after the odometry, publishing and limiter blocks. *)
Definition passed (limit : Limit) (now : Time) (command : Twist) (o : OdometryCall)
  (c : Controller) : Controller :=
  set_previous_update now (tl (previous_commands_ c) ++ [shaped limit now command c])
    (set_previous_publish_timestamp (published now c)
       (set_odometry (o :: odometry_ c) (set_received (Some command) c))).

(** The four ways a tick of an active controller holding [msg] returns. *)
Inductive tick_result (limit : Limit) (now : Time) (c : Controller) (msg : Twist)
  : return_type -> Controller -> Prop :=
| tick_radius_undefined :
    radius_undefined (fetch now c msg) = true ->
    tick_result limit now c msg ERROR (set_received (Some (fetch now c msg)) c)
| tick_feedback_invalid :
    radius_undefined (fetch now c msg) = false ->
    open_loop c = false ->
    encoders (wheels_per_side (wheel_params_ c)) (handles c) = Exit ERROR ->
    tick_result limit now c msg ERROR (set_received (Some (fetch now c msg)) c)
| tick_solver_error (o : OdometryCall) :
    radius_undefined (fetch now c msg) = false ->
    estimator_call now (fetch now c msg) c o ->
    previous_commands_ c <> [] ->
    solve (wheel_params_ c) (linear_x (shaped limit now (fetch now c msg) c))
      (angular_z (shaped limit now (fetch now c msg) c)) = None ->
    tick_result limit now c msg ERROR (passed limit now (fetch now c msg) o c)
| tick_ok (o : OdometryCall) (sp : Setpoint) (h' : Handles) :
    radius_undefined (fetch now c msg) = false ->
    estimator_call now (fetch now c msg) c o ->
    previous_commands_ c <> [] ->
    solve (wheel_params_ c) (linear_x (shaped limit now (fetch now c msg) c))
      (angular_z (shaped limit now (fetch now c msg) c)) = Some sp ->
    write_setpoint (wheels_per_side (wheel_params_ c)) (actuation sp) (handles c) = Some h' ->
    tick_result limit now c msg OK (set_handles h' (passed limit now (fetch now c msg) o c)).

(** A run of ticks at the given clock values; [None] when one of them is
    undefined. *)
Fixpoint ticks (limit : Limit) (times : list Time) (c : Controller) : option Controller :=
  match times with
  | [] => Some c
  | now :: rest =>
      match update limit now c with
      | Ret _ c' => ticks limit rest c'
      | Undefined => None
      end
  end.

(** A linear limiter whose velocity bounds are both zero. *)
Definition stopped : SpeedLimiter :=
  {| has_velocity_limits := true; has_acceleration_limits := false; has_jerk_limits := false;
     min_velocity := Fin 0; max_velocity := Fin 0;
     min_acceleration := NaN; max_acceleration := NaN;
     min_jerk := NaN; max_jerk := NaN |}.

(** A command of (1 m/s, 1 rad/s) stamped at [one_second]. *)
Definition turn_msg : Twist :=
  {| stamp := one_second; linear_x := Fin 1; angular_z := Fin 1 |}.

(** Handles of a vehicle with a single middle wheel. *)
Definition handles_one_middle : Handles :=
  {| registered_left_wheel_handles_ := [Fin 0; Fin 0];
     registered_right_wheel_handles_ := [Fin 0; Fin 0];
     registered_middle_wheel_handles_ := [Fin 0];
     registered_left_steering_handles_ := [Fin 0; Fin 0];
     registered_right_steering_handles_ := [Fin 0; Fin 0] |}.

(** A deactivated controller that has not halted yet, its wheels reading
    60 rpm. *)
Definition deactivated : Controller :=
  {| inactive := true; is_halted := false;
     received_velocity_msg_ptr_ := Some forward_msg;
     cmd_vel_timeout_ := 500%Z;
     wheel_params_ := unit_wheels;
     open_loop := false;
     odometry_ := [];
     previous_publish_timestamp_ := 0%Z;
     publish_period_ := 20000000%Z;
     previous_update_timestamp_ := 0%Z;
     previous_commands_ := [empty_twist; empty_twist];
     limiter_linear_ := unlimited;
     limiter_angular_ := unlimited;
     handles := handles_reading (Fin 60) |}.

(** A forward command whose age at [one_second] is exactly the timeout of
    500 ms. *)
Definition boundary_msg : Twist :=
  {| stamp := 500000000%Z; linear_x := Fin 1; angular_z := Fin 0 |}.

(** A value that is not below zero: a nonnegative real, [+inf] or NaN; and
    its mirror image. *)
Definition not_negative (v : double) : Prop := dlt v (Fin 0) = false.
Definition not_positive (v : double) : Prop := dlt (Fin 0) v = false.

(** ** The subscription callbacks *)

(** The callback of the stamped subscription: ignored while the subscriber
    is inactive; a message whose stamp is zero (seconds and nanoseconds) is
    stamped with the current time; the box then points to the message. *)
Definition stamped_callback (subscriber_is_active_ : bool) (now : Time) (msg : Twist)
  (c : Controller) : Controller :=
  if negb subscriber_is_active_ then c
  else
    let msg := if (stamp msg =? 0)%Z
               then {| stamp := now; linear_x := linear_x msg; angular_z := angular_z msg |}
               else msg in
    set_received (Some msg) c.

(** The callback of the unstamped subscription: it writes the twist and the
    current time into the message the box points to; [None] when that pointer
    is null. *)
Definition unstamped_callback (subscriber_is_active_ : bool) (now : Time)
  (linear angular : double) (c : Controller) : option Controller :=
  if negb subscriber_is_active_ then Some c
  else
    match received_velocity_msg_ptr_ c with
    | None => None
    | Some twist_stamped =>
        Some (set_received
                (Some {| stamp := now; linear_x := linear; angular_z := angular |}) c)
    end.

(** A forward command that carries no stamp. *)
Definition unstamped_forward_msg : Twist :=
  {| stamp := 0%Z; linear_x := Fin 1; angular_z := Fin 0 |}.

(** ** Interfaces, registration and activation *)

From Stdlib Require String.
Import String.StringSyntax.

Module Lifecycle.

Local Open Scope string_scope.

Definition string : Type := String.string.

(** [hardware_interface::HW_IF_POSITION] and [HW_IF_VELOCITY], the interface
    type names of the hardware_interface library. *)
Definition HW_IF_POSITION : string := "position".
Definition HW_IF_VELOCITY : string := "velocity".

(** The five name vectors of the controller. *)
Record JointNames : Type := {
  left_wheel_names_ : list string;
  right_wheel_names_ : list string;
  middle_wheel_names_ : list string;
  left_steering_names_ : list string;
  right_steering_names_ : list string
}.

(** [joint_name + "/" + interface]. *)
Definition full_name (joint_name interface : string) : string :=
  String.append (String.append joint_name "/") interface.

(** [command_interface_configuration]: the names it returns (the type is
    always INDIVIDUAL). *)
Definition command_interface_configuration (n : JointNames) : list string :=
  map (fun joint_name => full_name joint_name HW_IF_VELOCITY) (left_wheel_names_ n)
  ++ map (fun joint_name => full_name joint_name HW_IF_VELOCITY) (right_wheel_names_ n)
  ++ map (fun joint_name => full_name joint_name HW_IF_VELOCITY) (middle_wheel_names_ n)
  ++ map (fun joint_name => full_name joint_name HW_IF_POSITION) (left_steering_names_ n)
  ++ map (fun joint_name => full_name joint_name HW_IF_POSITION) (right_steering_names_ n).

(** [state_interface_configuration]. *)
Definition both_states (joint_names : list string) : list string :=
  flat_map (fun joint_name =>
              [full_name joint_name HW_IF_POSITION; full_name joint_name HW_IF_VELOCITY])
    joint_names.

Definition state_interface_configuration (n : JointNames) : list string :=
  both_states (left_wheel_names_ n)
  ++ both_states (right_wheel_names_ n)
  ++ both_states (middle_wheel_names_ n)
  ++ both_states (left_steering_names_ n)
  ++ both_states (right_steering_names_ n).

(** A loaned interface, as far as registration looks at it. *)
Record Interface : Type := {
  get_name : string;
  get_interface_name : string
}.

(** [std::find_if] for the interface of a joint and a type: the position of
    the first match. *)
Fixpoint find_interface (interfaces : list Interface) (name interface_name : string)
  : option nat :=
  match interfaces with
  | [] => None
  | i :: rest =>
      if String.eqb (get_name i) name && String.eqb (get_interface_name i) interface_name
      then Some 0%nat
      else option_map S (find_interface rest name interface_name)
  end.

(** A registered handle: the three interfaces it is constructed from, as
    positions in [state_interfaces_], [state_interfaces_] and
    [command_interfaces_]. *)
Definition Handle : Type := (nat * nat * nat)%type.

(** [rclcpp_lifecycle] callback results. *)
Inductive CallbackReturn : Type := SUCCESS | ERROR.

(** The loop of [configure_side_wheel] over the names: a handle is appended
    for each name until one lacks an interface. *)
Fixpoint register_wheels (state_interfaces_ command_interfaces_ : list Interface)
  (wheel_names : list string) (registered_handles : list Handle)
  : CallbackReturn * list Handle :=
  match wheel_names with
  | [] => (SUCCESS, registered_handles)
  | wheel_name :: rest =>
      match find_interface state_interfaces_ wheel_name HW_IF_POSITION with
      | None => (ERROR, registered_handles)
      | Some state_handle_pos =>
          match find_interface state_interfaces_ wheel_name HW_IF_VELOCITY with
          | None => (ERROR, registered_handles)
          | Some state_handle_vel =>
              match find_interface command_interfaces_ wheel_name HW_IF_VELOCITY with
              | None => (ERROR, registered_handles)
              | Some command_handle =>
                  register_wheels state_interfaces_ command_interfaces_ rest
                    (registered_handles ++ [(state_handle_pos, state_handle_vel, command_handle)])
              end
          end
      end
  end.

(** [configure_side_wheel]. *)
Definition configure_side_wheel (state_interfaces_ command_interfaces_ : list Interface)
  (wheel_names : list string) (registered_handles : list Handle)
  : CallbackReturn * list Handle :=
  match wheel_names with
  | [] => (ERROR, registered_handles)
  | _ => register_wheels state_interfaces_ command_interfaces_ wheel_names registered_handles
  end.

(** The loop of [configure_side_steering]: the command interface is the
    position one, and the handle takes the position state twice. *)
Fixpoint register_steerings (state_interfaces_ command_interfaces_ : list Interface)
  (steering_names : list string) (registered_handles : list Handle)
  : CallbackReturn * list Handle :=
  match steering_names with
  | [] => (SUCCESS, registered_handles)
  | steering_name :: rest =>
      match find_interface state_interfaces_ steering_name HW_IF_POSITION with
      | None => (ERROR, registered_handles)
      | Some state_handle_pos =>
          match find_interface state_interfaces_ steering_name HW_IF_VELOCITY with
          | None => (ERROR, registered_handles)
          | Some _ =>
              match find_interface command_interfaces_ steering_name HW_IF_POSITION with
              | None => (ERROR, registered_handles)
              | Some command_handle =>
                  register_steerings state_interfaces_ command_interfaces_ rest
                    (registered_handles ++ [(state_handle_pos, state_handle_pos, command_handle)])
              end
          end
      end
  end.

(** [configure_side_steering]. *)
Definition configure_side_steering (state_interfaces_ command_interfaces_ : list Interface)
  (steering_names : list string) (registered_handles : list Handle)
  : CallbackReturn * list Handle :=
  match steering_names with
  | [] => (ERROR, registered_handles)
  | _ => register_steerings state_interfaces_ command_interfaces_ steering_names
           registered_handles
  end.

(** The members [on_activate] reads or writes. *)
Record Node : Type := {
  names : JointNames;
  state_interfaces_ : list Interface;
  command_interfaces_ : list Interface;
  registered_left_wheel_handles_ : list Handle;
  registered_right_wheel_handles_ : list Handle;
  registered_middle_wheel_handles_ : list Handle;
  registered_left_steering_handles_ : list Handle;
  registered_right_steering_handles_ : list Handle;
  is_halted : bool;
  subscriber_is_active_ : bool
}.

(** [on_activate]: the five registrations all run before their results are
    looked at. *)
Definition on_activate (n : Node) : CallbackReturn * Node :=
  let left_wheel := configure_side_wheel (state_interfaces_ n) (command_interfaces_ n)
                      (left_wheel_names_ (names n)) (registered_left_wheel_handles_ n) in
  let right_wheel := configure_side_wheel (state_interfaces_ n) (command_interfaces_ n)
                       (right_wheel_names_ (names n)) (registered_right_wheel_handles_ n) in
  let left_steering := configure_side_steering (state_interfaces_ n) (command_interfaces_ n)
                         (left_steering_names_ (names n))
                         (registered_left_steering_handles_ n) in
  let right_steering := configure_side_steering (state_interfaces_ n) (command_interfaces_ n)
                          (right_steering_names_ (names n))
                          (registered_right_steering_handles_ n) in
  let middle_wheel := configure_side_wheel (state_interfaces_ n) (command_interfaces_ n)
                        (middle_wheel_names_ (names n)) (registered_middle_wheel_handles_ n) in
  let registered (halted active : bool) : Node :=
    {| names := names n;
       state_interfaces_ := state_interfaces_ n;
       command_interfaces_ := command_interfaces_ n;
       registered_left_wheel_handles_ := snd left_wheel;
       registered_right_wheel_handles_ := snd right_wheel;
       registered_middle_wheel_handles_ := snd middle_wheel;
       registered_left_steering_handles_ := snd left_steering;
       registered_right_steering_handles_ := snd right_steering;
       is_halted := halted;
       subscriber_is_active_ := active |} in
  let failed (r : CallbackReturn) : bool := match r with ERROR => true | SUCCESS => false end in
  let is_empty (l : list Handle) : bool := match l with [] => true | _ => false end in
  if failed (fst left_wheel) || failed (fst right_wheel) || failed (fst left_steering)
     || failed (fst right_steering) || failed (fst middle_wheel)
  then (ERROR, registered (is_halted n) (subscriber_is_active_ n))
  else if is_empty (snd left_wheel) || is_empty (snd right_wheel)
  then (ERROR, registered (is_halted n) (subscriber_is_active_ n))
  else if is_empty (snd middle_wheel)
  then (ERROR, registered (is_halted n) (subscriber_is_active_ n))
  else if is_empty (snd left_steering) || is_empty (snd right_steering)
  then (ERROR, registered (is_halted n) (subscriber_is_active_ n))
  else (SUCCESS, registered false true).

(** [on_deactivate]. *)
Definition on_deactivate (n : Node) : CallbackReturn * Node :=
  (SUCCESS,
   {| names := names n;
      state_interfaces_ := state_interfaces_ n;
      command_interfaces_ := command_interfaces_ n;
      registered_left_wheel_handles_ := registered_left_wheel_handles_ n;
      registered_right_wheel_handles_ := registered_right_wheel_handles_ n;
      registered_middle_wheel_handles_ := registered_middle_wheel_handles_ n;
      registered_left_steering_handles_ := registered_left_steering_handles_ n;
      registered_right_steering_handles_ := registered_right_steering_handles_ n;
      is_halted := is_halted n;
      subscriber_is_active_ := false |}).

(** Every name of the list has the three interfaces a wheel needs. *)
Definition wheels_available (state_interfaces_ command_interfaces_ : list Interface)
  (wheel_names : list string) : Prop :=
  forall name, In name wheel_names ->
    find_interface state_interfaces_ name HW_IF_POSITION <> None /\
    find_interface state_interfaces_ name HW_IF_VELOCITY <> None /\
    find_interface command_interfaces_ name HW_IF_VELOCITY <> None.

(** Every name of the list has the three interfaces a steering needs. *)
Definition steerings_available (state_interfaces_ command_interfaces_ : list Interface)
  (steering_names : list string) : Prop :=
  forall name, In name steering_names ->
    find_interface state_interfaces_ name HW_IF_POSITION <> None /\
    find_interface state_interfaces_ name HW_IF_VELOCITY <> None /\
    find_interface command_interfaces_ name HW_IF_POSITION <> None.

(** A two-wheel, one-steering sample with every interface present. *)
Definition sample_names : JointNames :=
  {| left_wheel_names_ := ["fl"];
     right_wheel_names_ := ["fr"];
     middle_wheel_names_ := ["ml"];
     left_steering_names_ := ["sl"];
     right_steering_names_ := ["sr"] |}.

Definition sample_states : list Interface :=
  flat_map (fun j => [ {| get_name := j; get_interface_name := HW_IF_POSITION |};
                       {| get_name := j; get_interface_name := HW_IF_VELOCITY |} ])
    ["fl"; "fr"; "ml"; "sl"; "sr"].

Definition sample_commands : list Interface :=
  [ {| get_name := "fl"; get_interface_name := HW_IF_VELOCITY |};
    {| get_name := "fr"; get_interface_name := HW_IF_VELOCITY |};
    {| get_name := "ml"; get_interface_name := HW_IF_VELOCITY |};
    {| get_name := "sl"; get_interface_name := HW_IF_POSITION |};
    {| get_name := "sr"; get_interface_name := HW_IF_POSITION |} ].

Definition sample_node : Node :=
  {| names := sample_names;
     state_interfaces_ := sample_states;
     command_interfaces_ := sample_commands;
     registered_left_wheel_handles_ := [];
     registered_right_wheel_handles_ := [];
     registered_middle_wheel_handles_ := [];
     registered_left_steering_handles_ := [];
     registered_right_steering_handles_ := [];
     is_halted := true;
     subscriber_is_active_ := false |}.

End Lifecycle.

Module Registration.

(** The handles [configure_side_wheel] appends for a list of names, starting
    from no handle. *)
Definition wheel_handles (state_interfaces_ command_interfaces_ : list Lifecycle.Interface)
  (wheel_names : list Lifecycle.string) : list Lifecycle.Handle :=
  snd (Lifecycle.register_wheels state_interfaces_ command_interfaces_ wheel_names []).

Definition steering_handles (state_interfaces_ command_interfaces_ : list Lifecycle.Interface)
  (steering_names : list Lifecycle.string) : list Lifecycle.Handle :=
  snd (Lifecycle.register_steerings state_interfaces_ command_interfaces_ steering_names []).

(** The interface at a position has the given joint name and type. *)
Definition refers (interfaces : list Lifecycle.Interface) (position : nat)
  (name interface_name : Lifecycle.string) : Prop :=
  exists i, nth_error interfaces position = Some i /\
            Lifecycle.get_name i = name /\ Lifecycle.get_interface_name i = interface_name.

(** The joint names of a configuration, all five vectors in the order of the
    interface configurations. *)
Definition all_names (n : Lifecycle.JointNames) : list Lifecycle.string :=
  Lifecycle.left_wheel_names_ n ++ Lifecycle.right_wheel_names_ n
  ++ Lifecycle.middle_wheel_names_ n ++ Lifecycle.left_steering_names_ n
  ++ Lifecycle.right_steering_names_ n.

End Registration.

(** * Properties *)

(** ** Comparisons of reals *)

Lemma Rcmp_lt (a b : R) : (a < b)%R -> Rcmp a b = Lt.
Proof. intros H; unfold Rcmp; destruct (total_order_T a b) as [[?|?]|?]; trivial; lra. Qed.

Lemma Rcmp_eq (a b : R) : a = b -> Rcmp a b = Eq.
Proof. intros H; unfold Rcmp; destruct (total_order_T a b) as [[?|?]|?]; trivial; lra. Qed.

Lemma Rcmp_gt (a b : R) : (b < a)%R -> Rcmp a b = Gt.
Proof. intros H; unfold Rcmp; destruct (total_order_T a b) as [[?|?]|?]; trivial; lra. Qed.

(** Case analysis on every comparison in sight. *)
Ltac rcmp :=
  unfold Rcmp in *;
  repeat match goal with
    | |- context [total_order_T ?a ?b] =>
        destruct (total_order_T a b) as [[?|?]|?]; try lra
    | H : context [total_order_T ?a ?b] |- _ =>
        destruct (total_order_T a b) as [[?|?]|?]; try lra
    end.

(** Evaluation of the comparisons whose outcome [lra] decides. *)
Ltac rcmp_eval :=
  repeat match goal with
    | |- context [Rcmp ?a ?b] =>
        first [ rewrite (Rcmp_lt a b) by lra
              | rewrite (Rcmp_gt a b) by lra
              | rewrite (Rcmp_eq a b) by lra ]
    end.

Ltac fin_eq := try discriminate; try reflexivity; try (f_equal; lra).

(** ** Arithmetic of [double] *)

Lemma dopp_involutive (a : double) : - - a = a.
Proof. destruct a; simpl; fin_eq. Qed.

Lemma dabs_opp (a : double) : dabs (- a) = dabs a.
Proof. destruct a; simpl; trivial. now rewrite Rabs_Ropp. Qed.

Lemma dabs_idem (a : double) : dabs (dabs a) = dabs a.
Proof. destruct a; simpl; trivial. now rewrite Rabs_Rabsolu. Qed.

Lemma dmul_opp_l (a b : double) : (- a) * b = - (a * b).
Proof.
  destruct a, b; simpl; trivial; try (f_equal; lra);
    unfold scale_inf; rcmp; simpl; trivial.
Qed.

Lemma ddiv_opp_l (a b : double) : (- a) / b = - (a / b).
Proof.
  destruct a, b; simpl; trivial; try (f_equal; lra);
    unfold scale_inf; rcmp; simpl; trivial; f_equal; unfold Rdiv; lra.
Qed.

Lemma dabs_mul (a b : double) : dabs (a * b) = dabs a * dabs b.
Proof.
  destruct a, b; simpl; trivial; try (now rewrite Rabs_mult);
    unfold scale_inf; rcmp; simpl; trivial;
    try match goal with
      | |- context [Rabs ?x] =>
          first [ rewrite (Rabs_pos_eq x) in * by lra
                | rewrite (Rabs_left x) in * by lra
                | (assert (Rabs x = 0)%R by (subst; apply Rabs_R0)) ]
      end; try lra;
    try (pose proof (Rabs_pos r); unfold Rabs in *; destruct (Rcase_abs r); lra).
Qed.

Lemma dabs_div (a b : double) : dabs (a / b) = dabs a / dabs b.
Proof.
  destruct a as [x| | |], b as [y| | |]; simpl; trivial; try (now rewrite Rabs_R0).
  - destruct (Req_dec_T y 0) as [->|Hy].
    + rewrite Rabs_R0, (Rcmp_eq 0 0) by trivial.
      unfold scale_inf; pose proof (Rabs_pos x).
      unfold Rabs in *; destruct (Rcase_abs x); rcmp; simpl; trivial.
    + pose proof (Rabs_pos_lt y Hy).
      rewrite (Rcmp_gt (Rabs y) 0) by lra.
      replace (match Rcmp y 0 with Eq => scale_inf (Rcmp x 0) false | _ => Fin (x / y) end)
        with (Fin (x / y)) by (rcmp; trivial).
      simpl; f_equal. unfold Rdiv. now rewrite Rabs_mult, Rabs_inv.
  - pose proof (Rabs_pos y); rcmp; simpl; trivial.
  - pose proof (Rabs_pos y); rcmp; simpl; trivial.
Qed.

Lemma dabs_axis (a b r : double) : dabs (a * dabs b / r) = dabs (a * b / r).
Proof. now rewrite !dabs_div, !dabs_mul, dabs_idem. Qed.

Lemma dmul_one_l (a : double) : Fin 1 * a = a.
Proof. destruct a; simpl; trivial; [f_equal; lra | |]; now rewrite Rcmp_gt by lra. Qed.

Lemma dmul_minus_one_l (a : double) : Fin (-1) * a = - a.
Proof. destruct a; simpl; trivial; [f_equal; lra | |]; now rewrite Rcmp_lt by lra. Qed.

Lemma deq_zero (a : double) : deq a (Fin 0) = true -> a = Fin 0.
Proof. destruct a; simpl; try discriminate. rcmp; try discriminate. now intros _; subst. Qed.

Lemma ddiv_Fin (x y : R) : y <> 0%R -> Fin x / Fin y = Fin (x / y).
Proof. intros H; simpl; rcmp; trivial. Qed.

Lemma half_pi : M_PI / Fin 2 = Fin (PI / 2).
Proof. apply ddiv_Fin; lra. Qed.

(** ** Finite values *)

Lemma isfinite_inv (a : double) : isfinite a = true -> exists x, a = Fin x.
Proof. destruct a; try discriminate; eauto. Qed.

Lemma dne_Fin (x : R) : dne (Fin x) (Fin 0) = true -> x <> 0%R.
Proof. unfold dne; simpl; rcmp; simpl; intros; try discriminate; lra. Qed.

(** ** The quadrant *)

Lemma quadrant_lt_4 (l a : double) : (quadrant l a < 4)%nat.
Proof. unfold quadrant; destruct (dgt l (Fin 0)), (dge a (Fin 0)), (dgt a (Fin 0)); lia. Qed.

Lemma quadrant_straight (l : double) :
  quadrant l (Fin 0) = if dgt l (Fin 0) then 0%nat else 3%nat.
Proof.
  unfold quadrant, dge, dgt; simpl. now rewrite (Rcmp_eq 0 0) by trivial.
Qed.

Lemma dne_sign_class (a : double) : dne a (Fin 0) = true -> sign_class a.
Proof.
  destruct a as [x| | |]; intros H.
  - apply dne_Fin in H.
    destruct (Rlt_dec 0 x).
    + apply IsPositive; unfold dgt, dge; simpl; rcmp; trivial.
    + apply IsNegative; unfold dgt, dge; simpl; rcmp; trivial.
  - apply IsPositive; reflexivity.
  - apply IsNegative; reflexivity.
  - now apply IsNaN.
Qed.

(** ** The straight-line case *)

Lemma geometry_straight (wheels : WheelParams) (linear : double) :
  geometry wheels linear (Fin 0) =
  Some {| angle_left := Fin 0; angle_right := Fin 0;
          velocity_left := dabs (linear / left_wheel_radius wheels);
          velocity_right := dabs (linear / right_wheel_radius wheels);
          velocity_mid_left := dabs (linear / left_wheel_radius wheels);
          velocity_mid_right := dabs (linear / right_wheel_radius wheels) |}.
Proof. unfold geometry; simpl. now rewrite (Rcmp_eq 0 0) by trivial. Qed.

(** C4, as amended: with a zero angular command (and a finite steering
    correction) the four steering outputs are 0, and every left (right) wheel
    speed, the middle wheel included, is [|linear / radius_side|] when the
    linear command is positive and its negation otherwise: the sign comes
    from rows 0 and 3 of the direction matrix. *)
Theorem straight_line_setpoint (wheels : WheelParams) (linear angular : double) :
  deq angular (Fin 0) = true ->
  isfinite (steering_angle_correction wheels) = true ->
  exists sp,
    solve wheels linear angular = Some sp /\
    front_left_steering (actuation sp) = Fin 0 /\
    front_right_steering (actuation sp) = Fin 0 /\
    rear_left_steering (actuation sp) = Fin 0 /\
    rear_right_steering (actuation sp) = Fin 0 /\
    wheel_velocity_left sp =
      (if dgt linear (Fin 0) then dabs (linear / left_wheel_radius wheels)
       else - dabs (linear / left_wheel_radius wheels)) /\
    wheel_velocity_mid_left sp =
      (if dgt linear (Fin 0) then dabs (linear / left_wheel_radius wheels)
       else - dabs (linear / left_wheel_radius wheels)) /\
    wheel_velocity_right sp =
      (if dgt linear (Fin 0) then dabs (linear / right_wheel_radius wheels)
       else - dabs (linear / right_wheel_radius wheels)) /\
    wheel_velocity_mid_right sp =
      (if dgt linear (Fin 0) then dabs (linear / right_wheel_radius wheels)
       else - dabs (linear / right_wheel_radius wheels)).
Proof.
  intros Ha Hc. apply deq_zero in Ha; subst angular.
  apply isfinite_inv in Hc as [c Hc].
  unfold solve. rewrite geometry_straight, quadrant_straight.
  eexists; split; [reflexivity|].
  unfold actuation, direct; rewrite Hc.
  destruct (dgt linear (Fin 0)); cbn -[dmul ddiv dabs dopp];
    rewrite ?dmul_one_l, ?dmul_minus_one_l; simpl;
    repeat split; trivial; f_equal; lra.
Qed.

Lemma straight_line_setpoint_witness :
  exists sp,
    solve unit_wheels (Fin (-1)) (Fin 0) = Some sp /\
    front_left_steering (actuation sp) = Fin 0 /\
    front_right_steering (actuation sp) = Fin 0 /\
    rear_left_steering (actuation sp) = Fin 0 /\
    rear_right_steering (actuation sp) = Fin 0 /\
    wheel_velocity_left sp =
      (if dgt (Fin (-1)) (Fin 0) then dabs (Fin (-1) / left_wheel_radius unit_wheels)
       else - dabs (Fin (-1) / left_wheel_radius unit_wheels)) /\
    wheel_velocity_mid_left sp =
      (if dgt (Fin (-1)) (Fin 0) then dabs (Fin (-1) / left_wheel_radius unit_wheels)
       else - dabs (Fin (-1) / left_wheel_radius unit_wheels)) /\
    wheel_velocity_right sp =
      (if dgt (Fin (-1)) (Fin 0) then dabs (Fin (-1) / right_wheel_radius unit_wheels)
       else - dabs (Fin (-1) / right_wheel_radius unit_wheels)) /\
    wheel_velocity_mid_right sp =
      (if dgt (Fin (-1)) (Fin 0) then dabs (Fin (-1) / right_wheel_radius unit_wheels)
       else - dabs (Fin (-1) / right_wheel_radius unit_wheels)).
Proof.
  apply (straight_line_setpoint unit_wheels (Fin (-1)) (Fin 0)).
  - simpl. now rewrite (Rcmp_eq 0 0).
  - reflexivity.
Defined.

Ltac rabs_eval :=
  repeat match goal with
    | |- context [Rabs ?x] =>
        first [ rewrite (Rabs_pos_eq x) by lra | rewrite (Rabs_left x) by lra ]
    end.

(** Evaluation of a closed expression over [double]. *)
Ltac deval :=
  repeat (progress (cbn -[IZR Rplus Rmult Rminus Ropp Rdiv Rinv Rabs sin atan PI];
                    rcmp_eval; rabs_eval)).

(** C4, refuted as stated: reversing straight at 1 m/s with unit radii, the
    left wheel speed is -1, not [|linear| / radius = 1]. *)
Lemma straight_line_reverse_counterexample :
  exists sp,
    solve unit_wheels (Fin (-1)) (Fin 0) = Some sp /\
    wheel_velocity_left sp = Fin (-1) /\
    wheel_velocity_left sp <> dabs (Fin (-1)) / left_wheel_radius unit_wheels.
Proof.
  unfold solve. rewrite geometry_straight, quadrant_straight.
  eexists; split; [reflexivity|].
  unfold dgt, direct, d_at, left_wheel_radius, unit_wheels. deval.
  split.
  - f_equal; lra.
  - intros H; injection H; lra.
Qed.

(** ** The curved case *)

Lemma geometry_curved (wheels : WheelParams) (linear angular : double) :
  dne angular (Fin 0) = true ->
  dne linear (Fin 0) = true ->
  geometry wheels linear angular =
  let turningRadius := dabs (linear / angular) in
  let near := spec_angle false turningRadius (wheel_base wheels) (wheel_separation wheels) in
  let far := spec_angle true turningRadius (wheel_base wheels) (wheel_separation wheels) in
  let compensation := angular_velocity_compensation wheels in
  Some {| angle_left := near;
          angle_right := far;
          velocity_left :=
            spec_steered_speed angular (wheel_separation wheels) near
              (left_wheel_radius wheels) compensation;
          velocity_right :=
            spec_steered_speed angular (wheel_separation wheels) far
              (right_wheel_radius wheels) compensation;
          velocity_mid_left :=
            spec_middle_speed false angular turningRadius (wheel_base wheels)
              (left_wheel_radius wheels) compensation;
          velocity_mid_right :=
            spec_middle_speed true angular turningRadius (wheel_base wheels)
              (right_wheel_radius wheels) compensation |}.
Proof.
  unfold dne; intros Ha Hl.
  apply negb_true_iff in Ha. unfold geometry. rewrite Ha. unfold dne; rewrite Hl.
  unfold spec_steered_speed, spec_middle_speed, spec_angle; cbv zeta.
  now rewrite !dabs_axis.
Qed.

(** C5: for a command with nonzero linear and angular parts and
    turningRadius = [|linear / angular|], the pre-sign steering angles are
    [PI/2 - atan ((2 turningRadius -/+ wheelBase) / wheelSeparation)], the
    steered-axle speeds are
    [|angular (wheelSeparation / (2 sin angle)) / wheelRadius| compensation],
    the middle-axle speeds are
    [|angular (turningRadius -/+ wheelBase) / wheelRadius| compensation], and
    the final steering angles are the signed angle times the steering angle
    correction. *)
Theorem curved_case_formulas (wheels : WheelParams) (linear angular : double) :
  dne angular (Fin 0) = true ->
  dne linear (Fin 0) = true ->
  let turningRadius := dabs (linear / angular) in
  let near := spec_angle false turningRadius (wheel_base wheels) (wheel_separation wheels) in
  let far := spec_angle true turningRadius (wheel_base wheels) (wheel_separation wheels) in
  let compensation := angular_velocity_compensation wheels in
  let q := quadrant linear angular in
  exists g sp,
    geometry wheels linear angular = Some g /\
    solve wheels linear angular = Some sp /\
    angle_left g = near /\
    angle_right g = far /\
    velocity_left g =
      spec_steered_speed angular (wheel_separation wheels) near
        (left_wheel_radius wheels) compensation /\
    velocity_right g =
      spec_steered_speed angular (wheel_separation wheels) far
        (right_wheel_radius wheels) compensation /\
    velocity_mid_left g =
      spec_middle_speed false angular turningRadius (wheel_base wheels)
        (left_wheel_radius wheels) compensation /\
    velocity_mid_right g =
      spec_middle_speed true angular turningRadius (wheel_base wheels)
        (right_wheel_radius wheels) compensation /\
    steering_angle_left sp =
      d_at q 0 * (if near_is_left q then near else far) * steering_angle_correction wheels /\
    steering_angle_right sp =
      d_at q 1 * (if near_is_left q then far else near) * steering_angle_correction wheels.
Proof.
  intros Ha Hl; cbv zeta.
  unfold solve. rewrite (geometry_curved wheels linear angular Ha Hl); cbv zeta.
  do 2 eexists; repeat split; reflexivity.
Qed.

Lemma dne_Fin_true (x : R) : x <> 0%R -> dne (Fin x) (Fin 0) = true.
Proof. intros H; unfold dne; simpl; rcmp; trivial. Qed.

Lemma curved_case_formulas_witness :
  let wheels := unit_wheels in
  let linear := Fin 1 in
  let angular := Fin 0.5 in
  let turningRadius := dabs (linear / angular) in
  let near := spec_angle false turningRadius (wheel_base wheels) (wheel_separation wheels) in
  let far := spec_angle true turningRadius (wheel_base wheels) (wheel_separation wheels) in
  let compensation := angular_velocity_compensation wheels in
  let q := quadrant linear angular in
  exists g sp,
    geometry wheels linear angular = Some g /\
    solve wheels linear angular = Some sp /\
    angle_left g = near /\
    angle_right g = far /\
    velocity_left g =
      spec_steered_speed angular (wheel_separation wheels) near
        (left_wheel_radius wheels) compensation /\
    velocity_right g =
      spec_steered_speed angular (wheel_separation wheels) far
        (right_wheel_radius wheels) compensation /\
    velocity_mid_left g =
      spec_middle_speed false angular turningRadius (wheel_base wheels)
        (left_wheel_radius wheels) compensation /\
    velocity_mid_right g =
      spec_middle_speed true angular turningRadius (wheel_base wheels)
        (right_wheel_radius wheels) compensation /\
    steering_angle_left sp =
      d_at q 0 * (if near_is_left q then near else far) * steering_angle_correction wheels /\
    steering_angle_right sp =
      d_at q 1 * (if near_is_left q then far else near) * steering_angle_correction wheels.
Proof.
  apply (curved_case_formulas unit_wheels (Fin 1) (Fin 0.5)); apply dne_Fin_true; lra.
Defined.

(** ** Reversal of both command signs *)

Lemma dadd_NaN_r (a : double) : a + NaN = NaN.
Proof. now destruct a. Qed.

Lemma dmul_NaN_r (a : double) : a * NaN = NaN.
Proof. now destruct a. Qed.

Lemma ddiv_NaN_r (a : double) : a / NaN = NaN.
Proof. now destruct a. Qed.

Lemma dne_opp (a : double) : dne (- a) (Fin 0) = dne a (Fin 0).
Proof. destruct a; unfold dne; simpl; trivial. rcmp; trivial. Qed.

Lemma geometry_opp (wheels : WheelParams) (linear angular : double) :
  dne angular (Fin 0) = true ->
  dne linear (Fin 0) = true ->
  geometry wheels (- linear) (- angular) = geometry wheels linear angular.
Proof.
  intros Ha Hl.
  rewrite (geometry_curved wheels linear angular Ha Hl).
  rewrite geometry_curved by now rewrite dne_opp.
  cbv zeta. unfold spec_steered_speed, spec_middle_speed.
  replace (dabs (- linear / - angular)) with (dabs (linear / angular))
    by now rewrite !dabs_div, !dabs_opp.
  now rewrite !dmul_opp_l, !ddiv_opp_l, !dabs_opp.
Qed.

Lemma geometry_nan (wheels : WheelParams) (linear angular : double) :
  linear = NaN \/ angular = NaN ->
  dne angular (Fin 0) = true ->
  dne linear (Fin 0) = true ->
  geometry wheels linear angular = Some nan_geometry.
Proof.
  intros Hnan Ha Hl.
  rewrite (geometry_curved wheels linear angular Ha Hl); cbv zeta.
  assert (Htr : dabs (linear / angular) = NaN).
  { destruct Hnan; subst; [reflexivity | now rewrite ddiv_NaN_r]. }
  rewrite Htr.
  unfold spec_steered_speed, spec_middle_speed, spec_angle, dsub.
  rewrite half_pi; simpl.
  now rewrite !ddiv_NaN_r, !dmul_NaN_r.
Qed.

Lemma direct_nan (wheels : WheelParams) (q : nat) :
  direct wheels q nan_geometry = nan_setpoint.
Proof.
  unfold direct, nan_geometry, nan_setpoint; simpl.
  destruct (near_is_left q); now rewrite ?dmul_NaN_r.
Qed.

Lemma to_rpm_opp (v : double) : to_rpm (- v) = - to_rpm v.
Proof. unfold to_rpm. now rewrite dmul_opp_l, ddiv_opp_l. Qed.

Lemma d_at_opp (v : double) : of_int (-1) * v = - (of_int 1 * v).
Proof. unfold of_int. now rewrite dmul_one_l, dmul_minus_one_l. Qed.

(** C6: for a command with nonzero linear and angular parts, the setpoints
    for [(-linear, -angular)] have the same four steering angles as those for
    [(linear, angular)] and the negated wheel speeds; quadrants 0 and 3 assign
    near and far to left and right alike, quadrants 1 and 2 the other way. *)
Theorem quadrant_symmetry (wheels : WheelParams) (linear angular : double) :
  dne linear (Fin 0) = true ->
  dne angular (Fin 0) = true ->
  exists sp sp',
    solve wheels linear angular = Some sp /\
    solve wheels (- linear) (- angular) = Some sp' /\
    front_left_steering (actuation sp') = front_left_steering (actuation sp) /\
    front_right_steering (actuation sp') = front_right_steering (actuation sp) /\
    rear_left_steering (actuation sp') = rear_left_steering (actuation sp) /\
    rear_right_steering (actuation sp') = rear_right_steering (actuation sp) /\
    left_wheels_rpm (actuation sp') = - left_wheels_rpm (actuation sp) /\
    right_wheels_rpm (actuation sp') = - right_wheels_rpm (actuation sp) /\
    middle_left_rpm (actuation sp') = - middle_left_rpm (actuation sp) /\
    middle_right_rpm (actuation sp') = - middle_right_rpm (actuation sp) /\
    near_is_left 0 = near_is_left 3 /\ near_is_left 1 = near_is_left 2 /\
    near_is_left 0 <> near_is_left 1.
Proof.
  intros Hl Ha. unfold solve.
  rewrite (geometry_opp wheels linear angular Ha Hl).
  destruct (dne_sign_class linear Hl) as [L1 L2 L3 L4 | L1 L2 L3 L4 | Ln];
    [ | | rewrite (geometry_nan wheels linear angular (or_introl Ln) Ha Hl), !direct_nan;
          do 2 eexists; repeat split; try reflexivity; discriminate ];
    (destruct (dne_sign_class angular Ha) as [A1 A2 A3 A4 | A1 A2 A3 A4 | An];
     [ | | rewrite (geometry_nan wheels linear angular (or_intror An) Ha Hl), !direct_nan;
           do 2 eexists; repeat split; try reflexivity; discriminate ]);
    rewrite (geometry_curved wheels linear angular Ha Hl); cbv zeta;
    unfold quadrant; rewrite L1, L3, ?A1, ?A2, ?A3, ?A4;
    do 2 eexists; (split; [reflexivity|]); (split; [reflexivity|]);
    unfold actuation, direct, d_at; cbn [nth d near_is_left Nat.eqb orb
      steering_angle_left steering_angle_right wheel_velocity_left wheel_velocity_right
      wheel_velocity_mid_left wheel_velocity_mid_right
      left_wheels_rpm right_wheels_rpm middle_left_rpm middle_right_rpm
      front_left_steering front_right_steering rear_left_steering rear_right_steering];
    rewrite ?d_at_opp, ?to_rpm_opp, ?dopp_involutive; repeat split;
    try reflexivity; discriminate.
Qed.

Lemma quadrant_symmetry_witness :
  exists sp sp',
    solve unit_wheels (Fin 1) (Fin 0.5) = Some sp /\
    solve unit_wheels (- Fin 1) (- Fin 0.5) = Some sp' /\
    front_left_steering (actuation sp') = front_left_steering (actuation sp) /\
    front_right_steering (actuation sp') = front_right_steering (actuation sp) /\
    rear_left_steering (actuation sp') = rear_left_steering (actuation sp) /\
    rear_right_steering (actuation sp') = rear_right_steering (actuation sp) /\
    left_wheels_rpm (actuation sp') = - left_wheels_rpm (actuation sp) /\
    right_wheels_rpm (actuation sp') = - right_wheels_rpm (actuation sp) /\
    middle_left_rpm (actuation sp') = - middle_left_rpm (actuation sp) /\
    middle_right_rpm (actuation sp') = - middle_right_rpm (actuation sp) /\
    near_is_left 0 = near_is_left 3 /\ near_is_left 1 = near_is_left 2 /\
    near_is_left 0 <> near_is_left 1.
Proof.
  apply (quadrant_symmetry unit_wheels (Fin 1) (Fin 0.5)); apply dne_Fin_true; lra.
Defined.

(** ** Divisions of the curved case *)

(** C8, refuted as stated: with the wheel radius [WheelParams] starts from
    (0.0) the division by the wheel radius is a division by zero, and the
    middle-left wheel speed of the command (2, 1) is infinite. *)
Lemma unguarded_division_counterexample :
  exists sp,
    solve default_radius_wheels (Fin 2) (Fin 1) = Some sp /\
    wheel_velocity_mid_left sp = PInf /\
    isfinite (wheel_velocity_mid_left sp) = false.
Proof.
  unfold solve.
  rewrite geometry_curved by (apply dne_Fin_true; lra); cbv zeta.
  eexists; split; [reflexivity|].
  assert (Hq : quadrant (Fin 2) (Fin 1) = 0%nat).
  { unfold quadrant, dgt, dge; deval; reflexivity. }
  rewrite Hq.
  assert (Hv : spec_middle_speed false (Fin 1) (dabs (Fin 2 / Fin 1))
                 (wheel_base default_radius_wheels) (left_wheel_radius default_radius_wheels)
                 (angular_velocity_compensation default_radius_wheels) = PInf).
  { unfold spec_middle_speed, wheel_base, left_wheel_radius, default_radius_wheels, dsub.
    deval; reflexivity. }
  unfold direct; cbn [wheel_velocity_mid_left velocity_mid_left near_is_left Nat.eqb orb].
  rewrite Hv. unfold d_at; cbn [nth d]. unfold of_int; rewrite dmul_one_l. now split.
Qed.

(** A value that is not finite stays so through the operations that follow
    it in the solver: an infinity or NaN is never brought back to a finite
    value by [abs], by a product or as a dividend. *)
Lemma not_finite_abs (a : double) : isfinite (dabs a) = isfinite a.
Proof. now destruct a. Qed.

Lemma not_finite_mul_l (a b : double) : isfinite a = false -> isfinite (a * b) = false.
Proof.
  destruct a, b; try discriminate; trivial; intros _; simpl;
    now destruct (Rcmp _ _).
Qed.

Lemma not_finite_mul_r (a b : double) : isfinite b = false -> isfinite (a * b) = false.
Proof.
  destruct a, b; try discriminate; trivial; intros _; simpl;
    now destruct (Rcmp _ _).
Qed.

Lemma not_finite_div_l (a b : double) : isfinite a = false -> isfinite (a / b) = false.
Proof.
  destruct a, b; try discriminate; trivial; intros _; simpl;
    now destruct (Rcmp _ _).
Qed.

Lemma not_finite_to_rpm (v : double) : isfinite v = false -> isfinite (to_rpm v) = false.
Proof. intros H. unfold to_rpm. now apply not_finite_div_l, not_finite_mul_l. Qed.

(** No quotient by zero is finite, whatever the dividend. *)
Lemma ddiv_zero (a : double) (z : R) : z = 0%R -> isfinite (a / Fin z) = false.
Proof.
  intros ->. destruct a as [x| | |]; simpl; rewrite ?(Rcmp_eq 0 0) by trivial; trivial.
  now destruct (Rcmp x 0).
Qed.

(** The effective wheel radius of a zero wheel radius is zero or NaN, and
    no quotient by it is finite. *)
Lemma ddiv_zero_radius (a multiplier : double) : isfinite (a / (multiplier * Fin 0)) = false.
Proof.
  destruct multiplier as [m| | |].
  - apply ddiv_zero; lra.
  - simpl; rewrite (Rcmp_eq 0 0) by trivial; now destruct a.
  - simpl; rewrite (Rcmp_eq 0 0) by trivial; now destruct a.
  - now destruct a.
Qed.

(** A steering angle is finite unless the argument of [atan] is NaN. *)
Lemma spec_angle_finite (far : bool) (turningRadius wheelBase wheelSeparation : double) :
  isfinite (spec_angle far turningRadius wheelBase wheelSeparation) =
  negb (isnan ((if far then Fin 2 * turningRadius + wheelBase
                else Fin 2 * turningRadius - wheelBase) / wheelSeparation)).
Proof.
  unfold spec_angle; cbv zeta. rewrite half_pi.
  now destruct (_ / wheelSeparation).
Qed.

(** With a zero sine the axis distance is an infinity or NaN, and so is the
    speed of the steered wheels. *)
Lemma steered_speed_zero_sine (angular wheelSeparation angle wheelRadius compensation : double) :
  dsin angle = Fin 0 ->
  isfinite (spec_steered_speed angular wheelSeparation angle wheelRadius compensation) = false.
Proof.
  intros Hs. unfold spec_steered_speed. rewrite Hs.
  apply not_finite_mul_l. rewrite not_finite_abs.
  apply not_finite_div_l, not_finite_mul_r.
  change (Fin 2 * Fin 0) with (Fin (2 * 0)). apply ddiv_zero; lra.
Qed.

Lemma steered_speed_zero_radius
  (angular wheelSeparation angle wheelRadius compensation : double) :
  isfinite (angular * (wheelSeparation / (Fin 2 * dsin angle)) / wheelRadius) = false ->
  isfinite (spec_steered_speed angular wheelSeparation angle wheelRadius compensation) = false.
Proof.
  intros H. unfold spec_steered_speed. apply not_finite_mul_l. now rewrite not_finite_abs.
Qed.

Lemma middle_speed_zero_radius (far : bool)
  (angular turningRadius wheelBase wheelRadius compensation : double) :
  isfinite (angular * (if far then turningRadius + wheelBase else turningRadius - wheelBase)
            / wheelRadius) = false ->
  isfinite (spec_middle_speed far angular turningRadius wheelBase wheelRadius compensation)
  = false.
Proof.
  intros H. unfold spec_middle_speed; cbv zeta. apply not_finite_mul_l.
  now rewrite not_finite_abs.
Qed.

(** The signs and the side selection of the direction matrix keep a value
    that is not finite so. *)
Lemma direct_not_finite (q i : nat) (near_side : bool) (l r : double) :
  isfinite l = false -> isfinite r = false ->
  isfinite (to_rpm (d_at q i * (if near_side then l else r))) = false.
Proof.
  intros Hl Hr. apply not_finite_to_rpm, not_finite_mul_r. now destruct near_side.
Qed.

(** C8, as amended: of the divisors of the solver only [angular_command] is
    tested (the curved case is entered with [angular_command != 0]); the
    wheel separation, the sines and the wheel radii are divided by as they
    are, and the solver yields a setpoint whatever they hold.  The steering
    angles before the correction factor are finite unless the argument of
    [atan] is NaN.  The wheel speeds need not be finite: when the sine of a
    steering angle is zero the speed of the steered wheels of that side is
    an infinity or NaN, when an effective wheel radius is zero so are both
    speeds computed with it, and when the wheel radius is zero so are the
    four wheel speeds handed to the handles. *)
Theorem curved_divisions_unguarded (wheels : WheelParams) (linear angular : double) :
  dne angular (Fin 0) = true ->
  dne linear (Fin 0) = true ->
  exists g,
    geometry wheels linear angular = Some g /\
    solve wheels linear angular = Some (direct wheels (quadrant linear angular) g) /\
    isfinite (angle_left g) = negb (isnan (atan_argument false wheels linear angular)) /\
    isfinite (angle_right g) = negb (isnan (atan_argument true wheels linear angular)) /\
    (dsin (angle_left g) = Fin 0 -> isfinite (velocity_left g) = false) /\
    (dsin (angle_right g) = Fin 0 -> isfinite (velocity_right g) = false) /\
    (left_wheel_radius wheels = Fin 0 ->
     isfinite (velocity_left g) = false /\ isfinite (velocity_mid_left g) = false) /\
    (right_wheel_radius wheels = Fin 0 ->
     isfinite (velocity_right g) = false /\ isfinite (velocity_mid_right g) = false) /\
    (radius wheels = Fin 0 ->
     let a := actuation (direct wheels (quadrant linear angular) g) in
     isfinite (left_wheels_rpm a) = false /\ isfinite (right_wheels_rpm a) = false /\
     isfinite (middle_left_rpm a) = false /\ isfinite (middle_right_rpm a) = false).
Proof.
  intros Ha Hl. unfold solve.
  rewrite (geometry_curved wheels linear angular Ha Hl); cbv zeta.
  eexists; split; [reflexivity|]. split; [reflexivity|].
  cbn [angle_left angle_right velocity_left velocity_right velocity_mid_left velocity_mid_right].
  split; [apply spec_angle_finite|]. split; [apply spec_angle_finite|].
  split; [apply steered_speed_zero_sine|]. split; [apply steered_speed_zero_sine|].
  split; [|split].
  - intros ->. split.
    + apply steered_speed_zero_radius, ddiv_zero; trivial.
    + apply middle_speed_zero_radius, ddiv_zero; trivial.
  - intros ->. split.
    + apply steered_speed_zero_radius, ddiv_zero; trivial.
    + apply middle_speed_zero_radius, ddiv_zero; trivial.
  - intros Hr. unfold left_wheel_radius, right_wheel_radius. rewrite Hr.
    unfold actuation, direct;
      cbn [left_wheels_rpm right_wheels_rpm middle_left_rpm middle_right_rpm
           wheel_velocity_left wheel_velocity_right wheel_velocity_mid_left
           wheel_velocity_mid_right
           velocity_left velocity_right velocity_mid_left velocity_mid_right].
    repeat split; apply direct_not_finite;
      first [apply steered_speed_zero_radius | apply middle_speed_zero_radius];
      apply ddiv_zero_radius.
Qed.

Lemma curved_divisions_unguarded_witness :
  exists g,
    geometry default_radius_wheels (Fin 2) (Fin 1) = Some g /\
    solve default_radius_wheels (Fin 2) (Fin 1)
    = Some (direct default_radius_wheels (quadrant (Fin 2) (Fin 1)) g) /\
    isfinite (angle_left g)
    = negb (isnan (atan_argument false default_radius_wheels (Fin 2) (Fin 1))) /\
    isfinite (angle_right g)
    = negb (isnan (atan_argument true default_radius_wheels (Fin 2) (Fin 1))) /\
    (dsin (angle_left g) = Fin 0 -> isfinite (velocity_left g) = false) /\
    (dsin (angle_right g) = Fin 0 -> isfinite (velocity_right g) = false) /\
    (left_wheel_radius default_radius_wheels = Fin 0 ->
     isfinite (velocity_left g) = false /\ isfinite (velocity_mid_left g) = false) /\
    (right_wheel_radius default_radius_wheels = Fin 0 ->
     isfinite (velocity_right g) = false /\ isfinite (velocity_mid_right g) = false) /\
    (radius default_radius_wheels = Fin 0 ->
     let a := actuation (direct default_radius_wheels (quadrant (Fin 2) (Fin 1)) g) in
     isfinite (left_wheels_rpm a) = false /\ isfinite (right_wheels_rpm a) = false /\
     isfinite (middle_left_rpm a) = false /\ isfinite (middle_right_rpm a) = false).
Proof.
  apply (curved_divisions_unguarded default_radius_wheels (Fin 2) (Fin 1));
    apply dne_Fin_true; lra.
Defined.

(** The sine of a steering angle does reach zero: with a zero wheel
    separation the argument of [atan] for the command (2, 1) is [+inf], the
    near angle is [pi/2 - pi/2], and the speed of the steered wheels of that
    side is NaN. *)
Lemma zero_separation_zero_sine :
  exists g,
    geometry zero_separation_wheels (Fin 2) (Fin 1) = Some g /\
    atan_argument false zero_separation_wheels (Fin 2) (Fin 1) = PInf /\
    dsin (angle_left g) = Fin 0 /\
    velocity_left g = NaN.
Proof.
  rewrite geometry_curved by (apply dne_Fin_true; lra); cbv zeta.
  eexists; split; [reflexivity|].
  assert (Hx : atan_argument false zero_separation_wheels (Fin 2) (Fin 1) = PInf).
  { unfold atan_argument, wheel_base, wheel_separation, zero_separation_wheels, dsub.
    deval; reflexivity. }
  split; [exact Hx|].
  cbn [angle_left velocity_left].
  assert (Hs : dsin (spec_angle false (dabs (Fin 2 / Fin 1)) (wheel_base zero_separation_wheels)
                       (wheel_separation zero_separation_wheels)) = Fin 0).
  { unfold atan_argument in Hx; cbv zeta in Hx. unfold spec_angle; cbv zeta.
    rewrite Hx, half_pi. simpl. f_equal.
    replace (PI / 2 + - (PI / 2))%R with 0%R by lra. apply sin_0. }
  split; [exact Hs|].
  unfold spec_steered_speed. rewrite Hs.
  unfold wheel_separation, zero_separation_wheels; cbn [separation_multiplier separation].
  deval; reflexivity.
Qed.

(** ** Writes to the handles *)

Lemma set_value_defined (v : double) (l : list double) :
  forall index, (index < length l)%nat ->
  exists l', set_value index v l = Some l' /\ length l' = length l.
Proof.
  induction l as [|x l IH]; intros [|i] H; simpl in *; try lia.
  - eauto.
  - destruct (IH i) as (l' & -> & Hl); [lia|]. simpl; eexists; split; [reflexivity | simpl; lia].
Qed.

Lemma set_side_wheels_defined (vl vr : double) (k : nat) :
  forall index left right,
    (index + k <= length left)%nat -> (index + k <= length right)%nat ->
    exists p, set_side_wheels k index vl vr left right = Some p.
Proof.
  induction k as [|k IH]; intros index left right Hl Hr; simpl; [eauto|].
  destruct (set_value_defined vl left index) as (left' & -> & Hl'); [lia|].
  destruct (set_value_defined vr right index) as (right' & -> & Hr'); [lia|].
  apply IH; lia.
Qed.

Lemma write_setpoint_defined (n : nat) (a : Actuation) (h : Handles) :
  (n <= length (registered_left_wheel_handles_ h))%nat ->
  (n <= length (registered_right_wheel_handles_ h))%nat ->
  (2 <= length (registered_middle_wheel_handles_ h))%nat ->
  (2 <= length (registered_left_steering_handles_ h))%nat ->
  (2 <= length (registered_right_steering_handles_ h))%nat ->
  exists h', write_setpoint n a h = Some h'.
Proof.
  intros Hl Hr Hm Hls Hrs. unfold write_setpoint.
  destruct (set_side_wheels_defined (left_wheels_rpm a) (right_wheels_rpm a) n 0
              (registered_left_wheel_handles_ h) (registered_right_wheel_handles_ h))
    as (p & ->); [lia | lia |]; cbn [obind].
  destruct (set_value_defined (middle_right_rpm a) (registered_middle_wheel_handles_ h) 0)
    as (m0 & -> & Hm0); [lia|]; cbn [obind].
  destruct (set_value_defined (middle_left_rpm a) m0 1) as (m1 & -> & Hm1); [lia|]; cbn [obind].
  destruct (set_value_defined (front_left_steering a) (registered_left_steering_handles_ h) 0)
    as (l0 & -> & Hl0); [lia|]; cbn [obind].
  destruct (set_value_defined (front_right_steering a) (registered_right_steering_handles_ h) 0)
    as (r0 & -> & Hr0); [lia|]; cbn [obind].
  destruct (set_value_defined (rear_left_steering a) l0 1) as (l1 & -> & Hl1); [lia|]; cbn [obind].
  destruct (set_value_defined (rear_right_steering a) r0 1) as (r1 & -> & Hr1); [lia|]; cbn [obind].
  eauto.
Qed.

(** ** The blocks of the tick *)

Lemma well_formed_inv (c : Controller) :
  well_formed c = true ->
  let n := wheels_per_side (wheel_params_ c) in
  let h := handles c in
  (n <= length (registered_left_wheel_handles_ h))%nat /\
  (n <= length (registered_right_wheel_handles_ h))%nat /\
  (2 <= length (registered_middle_wheel_handles_ h))%nat /\
  (2 <= length (registered_left_steering_handles_ h))%nat /\
  (2 <= length (registered_right_steering_handles_ h))%nat /\
  (open_loop c = false ->
   (n <= length (registered_left_steering_handles_ h))%nat /\
   (n <= length (registered_right_steering_handles_ h))%nat) /\
  previous_commands_ c <> [].
Proof.
  unfold well_formed; cbv zeta; intros H.
  repeat (apply andb_true_iff in H; destruct H as [H ?]).
  repeat match goal with
    | H : (_ <=? _)%nat = true |- _ => apply Nat.leb_le in H
    end.
  repeat split; trivial.
  - destruct (open_loop c); [discriminate|]. simpl in *.
    apply andb_true_iff in H1 as [H1 _]. now apply Nat.leb_le.
  - destruct (open_loop c); [discriminate|]. simpl in *.
    apply andb_true_iff in H1 as [_ H1]. now apply Nat.leb_le.
  - destruct (previous_commands_ c); [discriminate | congruence].
Qed.

(** What a tick leaves of a controller: everything but the members named
    in the conclusion of the lemmas below. *)
Lemma actuate_defined (command : Twist) (c : Controller) :
  well_formed c = true ->
  exists r c',
    actuate command c = Ret r c' /\
    r = return_of (solve (wheel_params_ c) (linear_x command) (angular_z command)) /\
    odometry_ c' = odometry_ c /\
    received_velocity_msg_ptr_ c' = received_velocity_msg_ptr_ c /\
    previous_commands_ c' = previous_commands_ c.
Proof.
  intros H. destruct (well_formed_inv c H) as (Hl & Hr & Hm & Hls & Hrs & _ & _).
  unfold actuate.
  destruct (solve (wheel_params_ c) (linear_x command) (angular_z command)) as [sp|].
  - destruct (write_setpoint_defined (wheels_per_side (wheel_params_ c)) (actuation sp)
                (handles c) Hl Hr Hm Hls Hrs) as (h' & ->).
    do 2 eexists; repeat split; reflexivity.
  - do 2 eexists; repeat split; reflexivity.
Qed.


Lemma last_cons {A : Type} (a : A) (l : list A) (d : A) : last (a :: l) d = last l a.
Proof.
  revert a d; induction l as [|b l IH]; intros a d; [reflexivity|].
  change (last (a :: b :: l) d) with (last (b :: l) d).
  now rewrite (IH b d), (IH b a).
Qed.

Lemma shape_defined (limit : Limit) (now : Time) (command : Twist) (c : Controller) :
  previous_commands_ c <> [] ->
  shape limit now command c =
  Some (shaped limit now command c,
        set_previous_update now (tl (previous_commands_ c) ++ [shaped limit now command c]) c).
Proof.
  unfold shape, shaped. destruct (previous_commands_ c) as [|t rest]; [congruence|].
  intros _. now rewrite last_cons.
Qed.

Lemma well_formed_enqueue (t : Time) (q : list Twist) (x : Twist) (c : Controller) :
  well_formed c = true -> well_formed (set_previous_update t (q ++ [x]) c) = true.
Proof.
  unfold well_formed; cbn [set_previous_update wheel_params_ handles open_loop previous_commands_].
  intros H. apply andb_true_iff in H as [-> _].
  rewrite length_app; simpl. destruct (length q + 1)%nat eqn:E; [lia | reflexivity].
Qed.

(** The tick from the publishing block on: it returns, and leaves the
    odometry and the stored message as the odometry block left them. *)
Lemma finish_defined (limit : Limit) (now : Time) (command : Twist) (c : Controller) :
  well_formed c = true ->
  exists r c',
    match shape limit now command (publish now c) with
    | None => Undefined
    | Some (command', c2) => actuate command' c2
    end = Ret r c' /\
    r = return_of (solve (wheel_params_ c) (linear_x (shaped limit now command c))
                     (angular_z (shaped limit now command c))) /\
    odometry_ c' = odometry_ c /\
    received_velocity_msg_ptr_ c' = received_velocity_msg_ptr_ c /\
    previous_commands_ c' = tl (previous_commands_ c) ++ [shaped limit now command c].
Proof.
  intros H.
  assert (Hp : well_formed (publish now c) = true /\
               wheel_params_ (publish now c) = wheel_params_ c /\
               odometry_ (publish now c) = odometry_ c /\
               received_velocity_msg_ptr_ (publish now c) = received_velocity_msg_ptr_ c /\
               previous_commands_ (publish now c) = previous_commands_ c /\
               shaped limit now command (publish now c) = shaped limit now command c).
  { unfold publish.
    destruct (previous_publish_timestamp_ c + publish_period_ c <? now)%Z;
      repeat split; trivial. }
  destruct Hp as (Hw & Hwp & Ho & Hm & Hq & Hs).
  destruct (well_formed_inv _ Hw) as (_ & _ & _ & _ & _ & _ & Hne).
  rewrite (shape_defined limit now command _ Hne), Hs, Hq.
  destruct (actuate_defined (shaped limit now command c)
              (set_previous_update now
                 (tl (previous_commands_ c) ++ [shaped limit now command c]) (publish now c)))
    as (r & c' & -> & Hr' & Ho' & Hm' & Hq'); [now apply well_formed_enqueue|].
  exists r, c'. repeat split; trivial.
  - rewrite Hr'. cbn [set_previous_update wheel_params_]. now rewrite Hwp.
  - now rewrite Ho'.
  - now rewrite Hm'.
Qed.

(** ** The feedback loop *)

Lemma isnan_to_rads (v : double) : isnan (to_rads v) = isnan v.
Proof. destruct v; unfold to_rads; deval; reflexivity. Qed.

Lemma skipn_nth (d0 : double) (l : list double) :
  forall index, (index < length l)%nat ->
  skipn index l = nth index l d0 :: skipn (S index) l.
Proof.
  induction l as [|x l IH]; intros [|i] H; simpl in *; try lia; trivial.
  apply IH; lia.
Qed.


Section FeedbackLoop.
Variable h : Handles.

Let left := registered_left_wheel_handles_ h.
Let right := registered_right_wheel_handles_ h.
Let lsteer := registered_left_steering_handles_ h.
Let rsteer := registered_right_steering_handles_ h.

Lemma feedback_step (k index : nat) (acc : Feedback) :
  in_range h (index + S k) ->
  feedback_loop h (S k) index acc =
  if nan_at h index then Exit ERROR
  else
    feedback_loop h k (S index)
      {| q := if Nat.eqb index 0
              then quadrant (to_rads (nth index left (Fin 0))) (nth index lsteer (Fin 0))
              else q acc;
         left_velocity_mean :=
           left_velocity_mean acc + dabs (to_rads (nth index left (Fin 0)));
         right_velocity_mean :=
           right_velocity_mean acc + dabs (to_rads (nth index right (Fin 0)));
         left_angle_mean := left_angle_mean acc + dabs (nth index lsteer (Fin 0));
         right_angle_mean := right_angle_mean acc + dabs (nth index rsteer (Fin 0)) |}.
Proof.
  intros (Hl & Hr & Hls & Hrs). cbn [feedback_loop].
  unfold left, right, lsteer, rsteer.
  rewrite (nth_error_nth' (registered_left_wheel_handles_ h) (Fin 0)),
    (nth_error_nth' (registered_right_wheel_handles_ h) (Fin 0)),
    (nth_error_nth' (registered_left_steering_handles_ h) (Fin 0)),
    (nth_error_nth' (registered_right_steering_handles_ h) (Fin 0)) by lia.
  unfold nan_at. rewrite !isnan_to_rads.
  destruct (isnan (nth index (registered_left_wheel_handles_ h) (Fin 0))),
    (isnan (nth index (registered_right_wheel_handles_ h) (Fin 0))),
    (isnan (nth index (registered_left_steering_handles_ h) (Fin 0))),
    (isnan (nth index (registered_right_steering_handles_ h) (Fin 0))); reflexivity.
Qed.

(** A NaN reading among the indices the loop visits makes it return ERROR. *)
Lemma feedback_loop_exit (k : nat) :
  forall index acc,
    in_range h (index + k) ->
    (exists j, (index <= j < index + k)%nat /\ nan_at h j = true) ->
    feedback_loop h k index acc = Exit ERROR.
Proof.
  induction k as [|k IH]; intros index acc Hr (j & Hj & Hnan); [lia|].
  rewrite feedback_step by exact Hr.
  destruct (nan_at h index) eqn:E; [reflexivity|].
  apply IH.
  - replace (S index + k)%nat with (index + S k)%nat by lia. exact Hr.
  - exists j; split; trivial.
    assert (j <> index) by (intros ->; congruence). lia.
Qed.

(** Without a NaN reading the loop falls through with the quadrant of the
    first left wheel and the four sums. *)
Lemma feedback_loop_next (k : nat) :
  forall index acc,
    in_range h (index + k) ->
    (forall j, (index <= j < index + k)%nat -> nan_at h j = false) ->
    feedback_loop h k index acc =
    Next {| q := if Nat.eqb index 0 && negb (Nat.eqb k 0)
                 then quadrant (to_rads (nth 0 left (Fin 0))) (nth 0 lsteer (Fin 0))
                 else q acc;
            left_velocity_mean :=
              accumulate (left_velocity_mean acc) (map to_rads (firstn k (skipn index left)));
            right_velocity_mean :=
              accumulate (right_velocity_mean acc) (map to_rads (firstn k (skipn index right)));
            left_angle_mean := accumulate (left_angle_mean acc) (firstn k (skipn index lsteer));
            right_angle_mean := accumulate (right_angle_mean acc) (firstn k (skipn index rsteer)) |}.
Proof.
  induction k as [|k IH]; intros index acc Hr Hnan.
  - cbn [feedback_loop firstn map accumulate fold_left Nat.eqb negb].
    rewrite andb_false_r. now destruct acc.
  - rewrite feedback_step by exact Hr.
    rewrite Hnan by lia.
    rewrite IH.
    + destruct Hr as (Hl & Hr & Hls & Hrs). unfold left, right, lsteer, rsteer.
      rewrite (skipn_nth (Fin 0) (registered_left_wheel_handles_ h) index),
        (skipn_nth (Fin 0) (registered_right_wheel_handles_ h) index),
        (skipn_nth (Fin 0) (registered_left_steering_handles_ h) index),
        (skipn_nth (Fin 0) (registered_right_steering_handles_ h) index) by lia.
      cbn [firstn map accumulate fold_left q left_velocity_mean right_velocity_mean
           left_angle_mean right_angle_mean Nat.eqb negb andb].
      destruct index; reflexivity.
    + replace (S index + k)%nat with (index + S k)%nat by lia. exact Hr.
    + intros j Hj. apply Hnan. lia.
Qed.
End FeedbackLoop.

(** A sum of absolute values, and its quotient by a count, is its own
    absolute value. *)
Lemma dabs_accumulate (vs : list double) :
  forall acc, dabs acc = acc -> dabs (accumulate acc vs) = accumulate acc vs.
Proof.
  induction vs as [|v vs IH]; intros acc H; [exact H|].
  cbn [accumulate fold_left]. apply IH.
  destruct acc as [x| | |], v as [y| | |]; simpl in *; try discriminate; trivial.
  injection H as H. f_equal. pose proof (Rabs_pos x). pose proof (Rabs_pos y).
  apply Rabs_pos_eq. lra.
Qed.

Lemma dabs_mean (a : double) (n : nat) : dabs a = a -> dabs (a / of_size n) = a / of_size n.
Proof.
  intros H. pose proof (pos_INR n) as Hn.
  destruct a as [x| | |]; unfold of_size; simpl in *; try discriminate; trivial.
  - injection H as H. pose proof (Rabs_pos x).
    unfold scale_inf; rcmp; simpl; trivial.
    f_equal. apply Rabs_pos_eq. apply Rmult_le_pos; [lra|].
    left. now apply Rinv_0_lt_compat.
  - rcmp; reflexivity.
Qed.

Lemma dabs_mean_abs (vs : list double) (n : nat) :
  dabs (accumulate (Fin 0) vs / of_size n) = accumulate (Fin 0) vs / of_size n.
Proof.
  apply dabs_mean, dabs_accumulate. simpl. now rewrite Rabs_R0.
Qed.

(** The feedback reduction on valid readings, as the specification words
    it. *)
Lemma encoders_spec (n : nat) (h : Handles) :
  (1 <= n)%nat ->
  in_range h n ->
  (forall j, (j < n)%nat -> nan_at h j = false) ->
  encoders n h =
  Next (spec_representative
          (map to_rads (readings n (registered_left_wheel_handles_ h)))
          (map to_rads (readings n (registered_right_wheel_handles_ h)))
          (readings n (registered_left_steering_handles_ h))
          (readings n (registered_right_steering_handles_ h))).
Proof.
  intros Hn Hr Hnan. unfold encoders.
  rewrite feedback_loop_next; [ | exact Hr | intros j Hj; apply Hnan; lia ].
  destruct Hr as (Hl & Hr & Hls & Hrs).
  cbn [q left_velocity_mean right_velocity_mean left_angle_mean right_angle_mean
       feedback_init skipn Nat.eqb andb].
  replace (negb (Nat.eqb n 0)) with true by (destruct n; [lia | reflexivity]).
  unfold spec_representative, mean_abs, readings.
  rewrite !length_map, !firstn_length_le by lia.
  rewrite !dabs_mean_abs.
  assert (Hq : quadrant (to_rads (nth 0 (registered_left_wheel_handles_ h) (Fin 0)))
                 (nth 0 (registered_left_steering_handles_ h) (Fin 0)) =
               quadrant (hd (Fin 0) (map to_rads (firstn n (registered_left_wheel_handles_ h))))
                 (hd (Fin 0) (firstn n (registered_left_steering_handles_ h)))).
  { destruct n; [lia|].
    destruct (registered_left_wheel_handles_ h); [simpl in Hl; lia|].
    destruct (registered_left_steering_handles_ h); [simpl in Hls; lia|].
    reflexivity. }
  rewrite <- Hq. unfold velocity_sign, angle_sign, of_int.
  do 2 f_equal; f_equal;
    match goal with |- context [if ?b then _ else _] => destruct b end; reflexivity.
Qed.

(** ** The tick *)

Lemma feedback_loop_defined (h : Handles) (k : nat) :
  forall index acc,
    in_range h (index + k) -> feedback_loop h k index acc <> Fault.
Proof.
  induction k as [|k IH]; intros index acc Hr; [discriminate|].
  rewrite feedback_step by exact Hr.
  destruct (nan_at h index); [discriminate|].
  apply IH. replace (S index + k)%nat with (index + S k)%nat by lia. exact Hr.
Qed.

Lemma encoders_defined (n : nat) (h : Handles) : in_range h n -> encoders n h <> Fault.
Proof.
  intros Hr. unfold encoders.
  pose proof (feedback_loop_defined h n 0 feedback_init Hr).
  destruct (feedback_loop h n 0 feedback_init); congruence.
Qed.

Lemma brake_passes_check (msg : Twist) : radius_undefined (brake msg) = false.
Proof. unfold radius_undefined, dne; simpl. now rewrite (Rcmp_eq 0 0). Qed.

Lemma fetch_stale (now : Time) (c : Controller) (msg : Twist) :
  (cmd_vel_timeout_ c * 1000000 < now - stamp msg)%Z -> fetch now c msg = brake msg.
Proof.
  intros H. unfold fetch.
  now replace (now - stamp msg >? cmd_vel_timeout_ c * 1000000)%Z with true
    by (symmetry; apply Z.gtb_lt; lia).
Qed.

Lemma fetch_cases (now : Time) (c : Controller) (msg : Twist) :
  fetch now c msg = msg \/ fetch now c msg = brake msg.
Proof. unfold fetch. destruct (_ >? _)%Z; auto. Qed.

Lemma set_received_same (c : Controller) (msg : Twist) :
  received_velocity_msg_ptr_ c = Some msg -> set_received (Some msg) c = c.
Proof. destruct c; simpl; intros ->; reflexivity. Qed.

Section Tick.
Variable limit : Limit.
Variable now : Time.
Variable c : Controller.
Variable msg : Twist.
Hypothesis active : inactive c = false.
Hypothesis stored : received_velocity_msg_ptr_ c = Some msg.

Let command := fetch now c msg.

(** The tick that fails the turning-radius check. *)
Lemma update_radius_undefined :
  radius_undefined command = true ->
  update limit now c = Ret ERROR (set_received (Some command) c).
Proof.
  intros H. unfold update. rewrite active, stored. cbv zeta.
  fold command. now rewrite H.
Qed.

(** The open-loop tick. *)
Lemma update_open_loop :
  well_formed c = true ->
  radius_undefined command = false ->
  open_loop c = true ->
  exists r c',
    update limit now c = Ret r c' /\
    r = return_of (solve (wheel_params_ c) (linear_x (shaped limit now command c))
                     (angular_z (shaped limit now command c))) /\
    odometry_ c' = UpdateOpenLoop (linear_x command) (angular_z command) now :: odometry_ c /\
    received_velocity_msg_ptr_ c' = Some command /\
    previous_commands_ c' = tl (previous_commands_ c) ++ [shaped limit now command c].
Proof.
  intros Hw Hc Ho. unfold update. rewrite active, stored. cbv zeta.
  fold command. rewrite Hc. unfold estimate.
  cbn [set_received open_loop odometry_]. rewrite Ho.
  apply (finish_defined limit now command
           (set_odometry (updateOpenLoop (linear_x command) (angular_z command) now (odometry_ c))
              (set_received (Some command) c))).
  exact Hw.
Qed.

(** The closed-loop tick whose feedback loop falls through. *)
Lemma update_closed_loop (angle_encoder velocity_encoder : double) :
  well_formed c = true ->
  radius_undefined command = false ->
  open_loop c = false ->
  encoders (wheels_per_side (wheel_params_ c)) (handles c)
    = Next (angle_encoder, velocity_encoder) ->
  exists r c',
    update limit now c = Ret r c' /\
    r = return_of (solve (wheel_params_ c) (linear_x (shaped limit now command c))
                     (angular_z (shaped limit now command c))) /\
    odometry_ c' = UpdateVel angle_encoder velocity_encoder now :: odometry_ c /\
    received_velocity_msg_ptr_ c' = Some command /\
    previous_commands_ c' = tl (previous_commands_ c) ++ [shaped limit now command c].
Proof.
  intros Hw Hc Ho He. unfold update. rewrite active, stored. cbv zeta.
  fold command. rewrite Hc. unfold estimate.
  cbn [set_received open_loop odometry_ wheel_params_ handles]. rewrite Ho, He.
  apply (finish_defined limit now command
           (set_odometry (updateVel angle_encoder velocity_encoder now (odometry_ c))
              (set_received (Some command) c))).
  exact Hw.
Qed.

(** The closed-loop tick whose feedback loop returns. *)
Lemma update_closed_loop_exit (r : return_type) :
  radius_undefined command = false ->
  open_loop c = false ->
  encoders (wheels_per_side (wheel_params_ c)) (handles c) = Exit r ->
  update limit now c = Ret r (set_received (Some command) c).
Proof.
  intros Hc Ho He. unfold update. rewrite active, stored. cbv zeta.
  fold command. rewrite Hc. unfold estimate.
  cbn [set_received open_loop odometry_ wheel_params_ handles]. now rewrite Ho, He.
Qed.

(** A well-formed controller completes the tick, and the message it stores
    afterwards is the fetched command. *)
Lemma update_received :
  well_formed c = true ->
  exists r c',
    update limit now c = Ret r c' /\ received_velocity_msg_ptr_ c' = Some command.
Proof.
  intros Hw.
  destruct (radius_undefined command) eqn:Hc.
  { rewrite (update_radius_undefined Hc). do 2 eexists; split; reflexivity. }
  destruct (open_loop c) eqn:Ho.
  { destruct (update_open_loop Hw Hc Ho) as (r & c' & Hu & _ & _ & Hm & _). eauto. }
  destruct (well_formed_inv c Hw) as (Hl & Hr & _ & _ & _ & Hs & _).
  destruct (Hs Ho) as [Hls Hrs].
  assert (Hin : in_range (handles c) (wheels_per_side (wheel_params_ c)))
    by (repeat split; assumption).
  pose proof (encoders_defined _ _ Hin) as Hd.
  destruct (encoders (wheels_per_side (wheel_params_ c)) (handles c)) as [[a v]|r|] eqn:He.
  - destruct (update_closed_loop a v Hw Hc Ho He) as (r & c' & Hu & _ & _ & Hm & _). eauto.
  - rewrite (update_closed_loop_exit r Hc Ho He). do 2 eexists; split; reflexivity.
  - congruence.
Qed.
End Tick.

(** ** The stale command *)

(** C1, as amended: when the stored command is older than the timeout, the
    command of the tick is zero in both velocities (it is what the open-loop
    odometry receives), and the override is written into the stored message
    itself: after the tick the stored command holds zero velocities under its
    old stamp. *)
Theorem stale_command_braked (limit : Limit) (now : Time) (c : Controller) (msg : Twist) :
  well_formed c = true ->
  inactive c = false ->
  received_velocity_msg_ptr_ c = Some msg ->
  (cmd_vel_timeout_ c * 1000000 < now - stamp msg)%Z ->
  linear_x (fetch now c msg) = Fin 0 /\
  angular_z (fetch now c msg) = Fin 0 /\
  exists r c',
    update limit now c = Ret r c' /\
    received_velocity_msg_ptr_ c' = Some (brake msg) /\
    (open_loop c = true ->
     odometry_ c' = UpdateOpenLoop (Fin 0) (Fin 0) now :: odometry_ c).
Proof.
  intros Hw Ha Hm Hstale.
  pose proof (fetch_stale now c msg Hstale) as Hf.
  rewrite Hf. do 2 (split; [reflexivity|]).
  destruct (open_loop c) eqn:Ho.
  - destruct (update_open_loop limit now c msg Ha Hm Hw) as (r & c' & Hu & _ & Hod & Hr & _);
      [rewrite Hf; apply brake_passes_check | exact Ho |].
    rewrite Hf in Hod, Hr. exists r, c'. repeat split; trivial.
  - destruct (update_received limit now c msg Ha Hm Hw) as (r & c' & Hu & Hr).
    rewrite Hf in Hr. exists r, c'. repeat split; trivial. discriminate.
Qed.

Lemma stale_command_braked_witness :
  linear_x (fetch one_second (configured true stale_msg unlimited (handles_reading (Fin 0)))
              stale_msg) = Fin 0 /\
  angular_z (fetch one_second (configured true stale_msg unlimited (handles_reading (Fin 0)))
               stale_msg) = Fin 0 /\
  exists r c',
    update SpeedLimiter_limit one_second
      (configured true stale_msg unlimited (handles_reading (Fin 0))) = Ret r c' /\
    received_velocity_msg_ptr_ c' = Some (brake stale_msg) /\
    (open_loop (configured true stale_msg unlimited (handles_reading (Fin 0))) = true ->
     odometry_ c' = UpdateOpenLoop (Fin 0) (Fin 0) one_second
                      :: odometry_ (configured true stale_msg unlimited (handles_reading (Fin 0)))).
Proof.
  apply (stale_command_braked SpeedLimiter_limit one_second
           (configured true stale_msg unlimited (handles_reading (Fin 0))) stale_msg);
    reflexivity.
Defined.

(** C1, refuted as stated: a command of (1, 0.5) stamped one second ago,
    with the timeout of 0.5 s, is overwritten in the store by the tick. *)
Lemma stale_override_counterexample :
  exists r c',
    update SpeedLimiter_limit one_second
      (configured true stale_msg unlimited (handles_reading (Fin 0))) = Ret r c' /\
    received_velocity_msg_ptr_ c' = Some (brake stale_msg) /\
    received_velocity_msg_ptr_ c' <> Some stale_msg.
Proof.
  destruct (update_received SpeedLimiter_limit one_second
              (configured true stale_msg unlimited (handles_reading (Fin 0))) stale_msg)
    as (r & c' & Hu & Hr); try reflexivity.
  rewrite fetch_stale in Hr by reflexivity.
  exists r, c'. repeat split; trivial.
  rewrite Hr. intros H. injection H as H _. lra.
Qed.

(** ** The undefined turning radius *)

(** C2: a tick whose command, after the staleness override, has a nonzero
    angular and a zero linear velocity returns ERROR and leaves the
    controller, hence every wheel velocity and steering position handle, as
    it was. *)
Theorem undefined_radius_signals_error (limit : Limit) (now : Time) (c : Controller)
  (msg : Twist) :
  inactive c = false ->
  received_velocity_msg_ptr_ c = Some msg ->
  dne (angular_z (fetch now c msg)) (Fin 0) = true ->
  deq (linear_x (fetch now c msg)) (Fin 0) = true ->
  update limit now c = Ret ERROR c.
Proof.
  intros Ha Hm Hang Hlin.
  assert (Hc : radius_undefined (fetch now c msg) = true)
    by (unfold radius_undefined; now rewrite Hang, Hlin).
  assert (Hf : fetch now c msg = msg).
  { destruct (fetch_cases now c msg) as [H|H]; trivial.
    rewrite H, brake_passes_check in Hc. discriminate. }
  rewrite (update_radius_undefined limit now c msg Ha Hm Hc), Hf.
  now rewrite set_received_same.
Qed.

Lemma undefined_radius_signals_error_witness :
  update SpeedLimiter_limit one_second
    (configured true spin_msg unlimited (handles_reading (Fin 0)))
  = Ret ERROR (configured true spin_msg unlimited (handles_reading (Fin 0))).
Proof.
  apply (undefined_radius_signals_error SpeedLimiter_limit one_second
           (configured true spin_msg unlimited (handles_reading (Fin 0))) spin_msg);
    try reflexivity.
  - apply dne_Fin_true; lra.
  - simpl. now rewrite (Rcmp_eq 0 0).
Defined.

(** ** The order of the odometry and limiter blocks *)

(** C3, as amended: in open-loop mode the estimator is updated first, with
    the fetched command as it is before the limiter runs; the limiter is
    applied afterwards, and it is the limited command that enters the queue
    of previous commands and decides the solver's result. *)
Theorem odometry_consumes_unlimited_command (limit : Limit) (now : Time) (c : Controller)
  (msg : Twist) :
  well_formed c = true ->
  inactive c = false ->
  received_velocity_msg_ptr_ c = Some msg ->
  open_loop c = true ->
  radius_undefined (fetch now c msg) = false ->
  exists r c',
    update limit now c = Ret r c' /\
    odometry_ c' =
      UpdateOpenLoop (linear_x (fetch now c msg)) (angular_z (fetch now c msg)) now
        :: odometry_ c /\
    last (previous_commands_ c') empty_twist = shaped limit now (fetch now c msg) c /\
    r = return_of (solve (wheel_params_ c)
                     (linear_x (shaped limit now (fetch now c msg) c))
                     (angular_z (shaped limit now (fetch now c msg) c))).
Proof.
  intros Hw Ha Hm Ho Hc.
  destruct (update_open_loop limit now c msg Ha Hm Hw Hc Ho) as (r & c' & Hu & Hr & Hod & _ & Hq).
  exists r, c'. repeat split; trivial.
  rewrite Hq. apply last_last.
Qed.

Lemma radius_defined_straight (m : Twist) :
  angular_z m = Fin 0 -> radius_undefined m = false.
Proof. intros H; unfold radius_undefined, dne; rewrite H; simpl. now rewrite (Rcmp_eq 0 0). Qed.

Lemma odometry_consumes_unlimited_command_witness :
  exists r c',
    update SpeedLimiter_limit one_second
      (configured true fast_msg velocity_limited (handles_reading (Fin 0))) = Ret r c' /\
    odometry_ c' =
      UpdateOpenLoop
        (linear_x (fetch one_second
                     (configured true fast_msg velocity_limited (handles_reading (Fin 0)))
                     fast_msg))
        (angular_z (fetch one_second
                      (configured true fast_msg velocity_limited (handles_reading (Fin 0)))
                      fast_msg))
        one_second
        :: odometry_ (configured true fast_msg velocity_limited (handles_reading (Fin 0))) /\
    last (previous_commands_ c') empty_twist =
      shaped SpeedLimiter_limit one_second
        (fetch one_second (configured true fast_msg velocity_limited (handles_reading (Fin 0)))
           fast_msg)
        (configured true fast_msg velocity_limited (handles_reading (Fin 0))) /\
    r = return_of
          (solve (wheel_params_ (configured true fast_msg velocity_limited
                                   (handles_reading (Fin 0))))
             (linear_x (shaped SpeedLimiter_limit one_second
                          (fetch one_second
                             (configured true fast_msg velocity_limited
                                (handles_reading (Fin 0))) fast_msg)
                          (configured true fast_msg velocity_limited (handles_reading (Fin 0)))))
             (angular_z (shaped SpeedLimiter_limit one_second
                           (fetch one_second
                              (configured true fast_msg velocity_limited
                                 (handles_reading (Fin 0))) fast_msg)
                           (configured true fast_msg velocity_limited
                              (handles_reading (Fin 0)))))).
Proof.
  apply (odometry_consumes_unlimited_command SpeedLimiter_limit one_second
           (configured true fast_msg velocity_limited (handles_reading (Fin 0))) fast_msg);
    try reflexivity.
  now apply radius_defined_straight.
Defined.

(** C3, refuted as stated: with the linear velocity limited to [-1, 1] and
    a fresh command of 5 m/s, the open-loop estimator is updated with 5 m/s,
    while the limited command of that tick is 1 m/s. *)
Lemma odometry_before_limiter_counterexample :
  exists r c',
    update SpeedLimiter_limit one_second
      (configured true fast_msg velocity_limited (handles_reading (Fin 0))) = Ret r c' /\
    odometry_ c' = [UpdateOpenLoop (Fin 5) (Fin 0) one_second] /\
    linear_x (last (previous_commands_ c') empty_twist) = Fin 1 /\
    odometry_ c' <> [UpdateOpenLoop (Fin 1) (Fin 0) one_second].
Proof.
  destruct (update_open_loop SpeedLimiter_limit one_second
              (configured true fast_msg velocity_limited (handles_reading (Fin 0))) fast_msg)
    as (r & c' & Hu & _ & Hod & _ & Hq); try reflexivity.
  { now apply radius_defined_straight. }
  exists r, c'. repeat split; trivial.
  - rewrite Hq, last_last.
    unfold shaped, SpeedLimiter_limit, clamp; deval; reflexivity.
  - rewrite Hod. intros H. injection H as H. lra.
Qed.

(** ** Invalid feedback *)

(** C7, as amended: in closed-loop mode, when a sampled wheel velocity or
    steering angle is NaN the tick returns ERROR without updating the
    estimator or writing a handle.  Only NaN is tested: an infinite reading
    is not detected. *)
Theorem nan_feedback_freezes_estimate (limit : Limit) (now : Time) (c : Controller)
  (msg : Twist) (j : nat) :
  inactive c = false ->
  received_velocity_msg_ptr_ c = Some msg ->
  open_loop c = false ->
  in_range (handles c) (wheels_per_side (wheel_params_ c)) ->
  (j < wheels_per_side (wheel_params_ c))%nat ->
  nan_at (handles c) j = true ->
  exists c',
    update limit now c = Ret ERROR c' /\
    odometry_ c' = odometry_ c /\
    handles c' = handles c.
Proof.
  intros Ha Hm Ho Hr Hj Hnan.
  destruct (radius_undefined (fetch now c msg)) eqn:Hc.
  { rewrite (update_radius_undefined limit now c msg Ha Hm Hc).
    eexists; repeat split; reflexivity. }
  assert (He : encoders (wheels_per_side (wheel_params_ c)) (handles c) = Exit ERROR).
  { unfold encoders. rewrite feedback_loop_exit; trivial.
    exists j; split; [lia | exact Hnan]. }
  rewrite (update_closed_loop_exit limit now c msg Ha Hm ERROR Hc Ho He).
  eexists; repeat split; reflexivity.
Qed.

Lemma in_range_reading (h : Handles) :
  length (registered_left_wheel_handles_ h) = 2%nat ->
  length (registered_right_wheel_handles_ h) = 2%nat ->
  length (registered_left_steering_handles_ h) = 2%nat ->
  length (registered_right_steering_handles_ h) = 2%nat ->
  in_range h 2.
Proof. intros H1 H2 H3 H4; unfold in_range; rewrite H1, H2, H3, H4; repeat split; lia. Qed.

Lemma nan_feedback_freezes_estimate_witness :
  exists c',
    update SpeedLimiter_limit one_second (configured false forward_msg unlimited handles_nan)
      = Ret ERROR c' /\
    odometry_ c' = odometry_ (configured false forward_msg unlimited handles_nan) /\
    handles c' = handles (configured false forward_msg unlimited handles_nan).
Proof.
  apply (nan_feedback_freezes_estimate SpeedLimiter_limit one_second
           (configured false forward_msg unlimited handles_nan) forward_msg 0);
    try reflexivity.
  - now apply in_range_reading.
  - simpl; lia.
Defined.

(** C7, refuted as stated: with every wheel reading infinite, the
    closed-loop tick returns OK and updates the estimator with an infinite
    velocity. *)
Lemma infinite_feedback_counterexample :
  exists c',
    update SpeedLimiter_limit one_second
      (configured false forward_msg unlimited (handles_reading PInf)) = Ret OK c' /\
    odometry_ c' = [UpdateVel (Fin 0) PInf one_second].
Proof.
  assert (He : encoders 2 (handles_reading PInf) = Next (Fin 0, PInf)).
  { rewrite encoders_spec.
    - unfold spec_representative, mean_abs, accumulate, readings, handles_reading, to_rads,
        quadrant, dmin, dmax, dgt, dge, of_size.
      deval. do 2 f_equal. f_equal. lra.
    - lia.
    - now apply in_range_reading.
    - intros [|[|j]] Hj; try reflexivity; lia. }
  destruct (update_closed_loop SpeedLimiter_limit one_second
              (configured false forward_msg unlimited (handles_reading PInf)) forward_msg)
    with (angle_encoder := Fin 0) (velocity_encoder := PInf)
    as (r & c' & Hu & Hr & Hod & _); try reflexivity; trivial.
  { now apply radius_defined_straight. }
  exists c'. split; [|exact Hod].
  rewrite Hu, Hr. f_equal.
  unfold return_of, solve.
  now rewrite geometry_straight.
Qed.

(** ** The representative pair of the closed loop *)

(** C10: in closed-loop mode with valid feedback, the pair handed to the
    estimator is the one the specification describes: the velocity is the
    smaller of the two means of absolute wheel velocities, positive exactly
    in quadrants 0 and 1 of (first left wheel velocity, first left steering
    angle), and the angle is the larger of the two means of absolute steering
    angles, positive exactly in quadrants 0 and 2. *)
Theorem closed_loop_representative_pair (limit : Limit) (now : Time) (c : Controller)
  (msg : Twist) :
  well_formed c = true ->
  inactive c = false ->
  received_velocity_msg_ptr_ c = Some msg ->
  open_loop c = false ->
  radius_undefined (fetch now c msg) = false ->
  (1 <= wheels_per_side (wheel_params_ c))%nat ->
  (forall j, (j < wheels_per_side (wheel_params_ c))%nat -> nan_at (handles c) j = false) ->
  let n := wheels_per_side (wheel_params_ c) in
  let pair :=
    spec_representative
      (map to_rads (readings n (registered_left_wheel_handles_ (handles c))))
      (map to_rads (readings n (registered_right_wheel_handles_ (handles c))))
      (readings n (registered_left_steering_handles_ (handles c)))
      (readings n (registered_right_steering_handles_ (handles c))) in
  encoders n (handles c) = Next pair /\
  exists r c',
    update limit now c = Ret r c' /\
    odometry_ c' = UpdateVel (fst pair) (snd pair) now :: odometry_ c.
Proof.
  intros Hw Ha Hm Ho Hc Hn Hnan n pair.
  destruct (well_formed_inv c Hw) as (Hl & Hr & _ & _ & _ & Hs & _).
  destruct (Hs Ho) as [Hls Hrs].
  assert (He : encoders n (handles c) = Next pair)
    by (apply encoders_spec; [exact Hn | repeat split; assumption | exact Hnan]).
  split; [exact He|].
  destruct (update_closed_loop limit now c msg Ha Hm (fst pair) (snd pair) Hw Hc Ho)
    as (r & c' & Hu & _ & Hod & _).
  { fold n. rewrite He. now destruct pair. }
  eauto.
Qed.

Lemma closed_loop_representative_pair_witness :
  let c := configured false forward_msg unlimited (handles_reading (Fin 60)) in
  let n := wheels_per_side (wheel_params_ c) in
  let pair :=
    spec_representative
      (map to_rads (readings n (registered_left_wheel_handles_ (handles c))))
      (map to_rads (readings n (registered_right_wheel_handles_ (handles c))))
      (readings n (registered_left_steering_handles_ (handles c)))
      (readings n (registered_right_steering_handles_ (handles c))) in
  encoders n (handles c) = Next pair /\
  exists r c',
    update SpeedLimiter_limit one_second c = Ret r c' /\
    odometry_ c' = UpdateVel (fst pair) (snd pair) one_second :: odometry_ c.
Proof.
  apply (closed_loop_representative_pair SpeedLimiter_limit one_second
           (configured false forward_msg unlimited (handles_reading (Fin 60))) forward_msg);
    try reflexivity.
  - now apply radius_defined_straight.
  - simpl; lia.
  - intros [|[|j]] Hj; try reflexivity. simpl in Hj; lia.
Defined.

(** ** Unit conversions *)

Lemma PI_lower : (3.1415 < PI)%R.
Proof.
  destruct (PI_2_3_7_ineq 1) as [H _].
  unfold PI_2_3_7_tg, tg_alt, Ratan_seq in H. simpl in H. lra.
Qed.

(** C9, the behaviour of the code: a reading is scaled by [2 * 3.14 / 60] and
    a command by [60 / 6.283].  Neither factor is the exact one: a reading of
    60 rpm becomes 6.28 rad/s and not [2 PI], a command of 1 rad/s becomes
    [60 / 6.283] rpm and not [60 / (2 PI)], and a speed converted back and
    forth comes out as 6280/6283 of itself. *)
Theorem unit_conversions_inexact :
  (forall v : R, to_rads (Fin v) = Fin (v * (2 * 3.14 / 60))) /\
  (forall v : R, to_rpm (Fin v) = Fin (v * (60 / 6.283))) /\
  to_rads (Fin 60) <> Fin (exact_rpm_to_rads 60) /\
  to_rpm (Fin 1) <> Fin (exact_rads_to_rpm 1) /\
  to_rpm (to_rads (Fin 6283)) = Fin 6280.
Proof.
  pose proof PI_lower as Hpi.
  assert (Hr : forall v : R, to_rads (Fin v) = Fin (v * (2 * 3.14 / 60))).
  { intros v. unfold to_rads. deval. f_equal. lra. }
  assert (Hw : forall v : R, to_rpm (Fin v) = Fin (v * (60 / 6.283))).
  { intros v. unfold to_rpm. deval. f_equal. lra. }
  repeat split; trivial.
  - rewrite Hr. unfold exact_rpm_to_rads. intros H; injection H as H. lra.
  - rewrite Hw. unfold exact_rads_to_rpm. intros H; injection H as H.
    assert (Hinv : (/ (2 * PI) < / 6.283)%R) by (apply Rinv_lt_contravar; nra).
    unfold Rdiv in H. lra.
  - rewrite Hr, Hw. f_equal. lra.
Qed.

(** * Further properties of the controller *)

(** ** Cells written and cells kept *)

Lemma set_value_spec (v : double) (l : list double) :
  forall index l',
    set_value index v l = Some l' ->
    length l' = length l /\
    nth_error l' index = Some v /\
    forall j, j <> index -> nth_error l' j = nth_error l j.
Proof.
  induction l as [|x l IH]; intros [|i] l' H; simpl in H; try discriminate.
  - injection H as <-. repeat split. intros [|j] Hj; [congruence | reflexivity].
  - destruct (set_value i v l) as [l0|] eqn:E; [|discriminate].
    injection H as <-. destruct (IH i l0 E) as (Hl & Hn & Ho).
    repeat split; simpl; [lia | exact Hn |].
    intros [|j] Hj; [reflexivity|]. apply Ho. lia.
Qed.

Lemma set_value_none (v : double) (l : list double) :
  forall index, set_value index v l = None <-> (length l <= index)%nat.
Proof.
  induction l as [|x l IH]; intros [|i]; simpl; split; intros H;
    try discriminate; try reflexivity; try lia.
  - destruct (set_value i v l) eqn:E; [discriminate|].
    apply IH in E. lia.
  - assert (E : set_value i v l = None) by (apply IH; lia). now rewrite E.
Qed.

Lemma set_side_wheels_spec (vl vr : double) (k : nat) :
  forall index left right left' right',
    set_side_wheels k index vl vr left right = Some (left', right') ->
    (length left' = length left /\ length right' = length right) /\
    (forall j, (index <= j < index + k)%nat ->
       nth_error left' j = Some vl /\ nth_error right' j = Some vr) /\
    (forall j, (j < index \/ index + k <= j)%nat ->
       nth_error left' j = nth_error left j /\ nth_error right' j = nth_error right j).
Proof.
  induction k as [|k IH]; intros index left right left' right' H; simpl in H.
  - injection H as <- <-. repeat split; intros; lia.
  - destruct (set_value index vl left) as [l1|] eqn:El; [|discriminate].
    destruct (set_value index vr right) as [r1|] eqn:Er; [|discriminate].
    destruct (set_value_spec vl left index l1 El) as (Hl1 & Hl2 & Hl3).
    destruct (set_value_spec vr right index r1 Er) as (Hr1 & Hr2 & Hr3).
    destruct (IH (S index) l1 r1 left' right' H) as ((Ha & Hb) & Hin & Hout).
    repeat split; try lia.
    + destruct (Nat.eq_dec j index) as [->|Hne].
      * destruct (Hout index) as [-> _]; [lia | exact Hl2].
      * apply Hin; lia.
    + destruct (Nat.eq_dec j index) as [->|Hne].
      * destruct (Hout index) as [_ ->]; [lia | exact Hr2].
      * apply Hin; lia.
    + destruct (Hout j) as [-> _]; [lia|]. apply Hl3; lia.
    + destruct (Hout j) as [_ ->]; [lia|]. apply Hr3; lia.
Qed.

Lemma set_side_wheels_none (vl vr : double) (k : nat) :
  forall index left right,
    set_side_wheels k index vl vr left right = None <->
    ~ ((index + k <= length left)%nat /\ (index + k <= length right)%nat) /\ (0 < k)%nat.
Proof.
  induction k as [|k IH]; intros index left right; simpl.
  - split; [discriminate | intros [_ H]; lia].
  - destruct (set_value index vl left) as [l1|] eqn:El.
    + destruct (set_value_spec vl left index l1 El) as (Hl1 & Hl2 & _).
      assert (index < length left)%nat
        by (rewrite <- Hl1; apply nth_error_Some; congruence).
      destruct (set_value index vr right) as [r1|] eqn:Er.
      * destruct (set_value_spec vr right index r1 Er) as (Hr1 & Hr2 & _).
        assert (index < length right)%nat
          by (rewrite <- Hr1; apply nth_error_Some; congruence).
        rewrite IH, Hl1, Hr1. split.
        -- intros [Hn Hk]. split; [|lia]. intros [? ?]. apply Hn. lia.
        -- intros [Hn _]. destruct k; [exfalso; apply Hn; lia|].
           split; [|lia]. intros [? ?]. apply Hn. lia.
      * apply set_value_none in Er. split; [|reflexivity].
        intros _. split; [|lia]. lia.
    + apply set_value_none in El. split; [|reflexivity].
      intros _. split; [|lia]. lia.
Qed.

Lemma set_value_twice (v0 v1 : double) (l l0 l1 : list double) :
  set_value 0 v0 l = Some l0 ->
  set_value 1 v1 l0 = Some l1 ->
  (2 <= length l)%nat /\ length l1 = length l /\
  nth_error l1 0 = Some v0 /\ nth_error l1 1 = Some v1 /\
  forall i, (2 <= i)%nat -> nth_error l1 i = nth_error l i.
Proof.
  intros H0 H1.
  destruct (set_value_spec v0 l 0 l0 H0) as (A1 & A2 & A3).
  destruct (set_value_spec v1 l0 1 l1 H1) as (B1 & B2 & B3).
  assert (1 < length l1)%nat by (apply nth_error_Some; congruence).
  repeat split; try lia; trivial.
  - rewrite B3 by lia. exact A2.
  - intros i Hi. rewrite B3, A3 by lia. reflexivity.
Qed.

Lemma write_setpoint_spec (n : nat) (a : Actuation) (h h' : Handles) :
  write_setpoint n a h = Some h' ->
  writable n h /\ same_shape h h' /\ holds_setpoint n a h h'.
Proof.
  unfold write_setpoint. intros H.
  destruct (set_side_wheels n 0 (left_wheels_rpm a) (right_wheels_rpm a)
              (registered_left_wheel_handles_ h) (registered_right_wheel_handles_ h))
    as [[l' r']|] eqn:Es; [|discriminate]. cbn [obind] in H.
  destruct (set_value 0 (middle_right_rpm a) (registered_middle_wheel_handles_ h))
    as [m0|] eqn:Em0; [|discriminate]. cbn [obind] in H.
  destruct (set_value 1 (middle_left_rpm a) m0) as [m1|] eqn:Em1; [|discriminate].
  cbn [obind] in H.
  destruct (set_value 0 (front_left_steering a) (registered_left_steering_handles_ h))
    as [ls0|] eqn:El0; [|discriminate]. cbn [obind] in H.
  destruct (set_value 0 (front_right_steering a) (registered_right_steering_handles_ h))
    as [rs0|] eqn:Er0; [|discriminate]. cbn [obind] in H.
  destruct (set_value 1 (rear_left_steering a) ls0) as [ls1|] eqn:El1; [|discriminate].
  cbn [obind] in H.
  destruct (set_value 1 (rear_right_steering a) rs0) as [rs1|] eqn:Er1; [|discriminate].
  cbn [obind] in H. injection H as <-.
  destruct (set_side_wheels_spec _ _ _ _ _ _ _ _ Es) as ((S1 & S2) & Sin & Sout).
  destruct (set_value_twice _ _ _ _ _ Em0 Em1) as (M0 & M1 & M2 & M3 & M4).
  destruct (set_value_twice _ _ _ _ _ El0 El1) as (L0 & L1 & L2 & L3 & L4).
  destruct (set_value_twice _ _ _ _ _ Er0 Er1) as (R0 & R1 & R2 & R3 & R4).
  assert (Hn : (n <= length (registered_left_wheel_handles_ h))%nat /\
               (n <= length (registered_right_wheel_handles_ h))%nat).
  { destruct n as [|n]; [split; lia|].
    destruct (Sin n) as [A B]; [lia|].
    rewrite <- S1, <- S2. split.
    - assert (n < length l')%nat by (apply nth_error_Some; congruence). lia.
    - assert (n < length r')%nat by (apply nth_error_Some; congruence). lia. }
  unfold writable, same_shape, holds_setpoint; cbn [fst snd
    registered_left_wheel_handles_ registered_right_wheel_handles_
    registered_middle_wheel_handles_ registered_left_steering_handles_
    registered_right_steering_handles_].
  repeat split; try tauto; try lia; trivial.
  - apply Sin; lia.
  - apply Sin; lia.
  - apply Sout; lia.
  - apply Sout; lia.
  - now apply M4.
  - now apply L4.
  - now apply R4.
Qed.

Lemma write_setpoint_none (n : nat) (a : Actuation) (h : Handles) :
  ~ writable n h -> write_setpoint n a h = None.
Proof.
  intros H. destruct (write_setpoint n a h) as [h'|] eqn:E; [|reflexivity].
  apply write_setpoint_spec in E. tauto.
Qed.

(** ** The outcomes of an active tick *)

Lemma encoders_exit (n : nat) (h : Handles) (r : return_type) :
  encoders n h = Exit r -> r = ERROR.
Proof.
  unfold encoders.
  assert (H : forall k index acc r0, feedback_loop h k index acc = Exit r0 -> r0 = ERROR).
  { induction k as [|k IH]; intros index acc r0; cbn [feedback_loop]; [discriminate|].
    destruct (nth_error (registered_left_wheel_handles_ h) index); [|discriminate].
    destruct (nth_error (registered_right_wheel_handles_ h) index); [|discriminate].
    destruct (nth_error (registered_left_steering_handles_ h) index); [|discriminate].
    destruct (nth_error (registered_right_steering_handles_ h) index); [|discriminate].
    cbv zeta.
    destruct (isnan _ || isnan _); [congruence|].
    destruct (isnan _ || isnan _); [congruence|].
    apply IH. }
  destruct (feedback_loop h n 0 feedback_init) eqn:E; try discriminate.
  intros H0; injection H0 as <-. eapply H; eassumption.
Qed.

Lemma publish_published (now : Time) (c : Controller) :
  publish now c = set_previous_publish_timestamp (published now c) c.
Proof.
  unfold publish, published.
  destruct (previous_publish_timestamp_ c + publish_period_ c <? now)%Z; [reflexivity|].
  now destruct c.
Qed.

(** A tick of an active controller holding a message returns exactly in one
    of the four ways of [tick_result]. *)
Lemma update_tick_result (limit : Limit) (now : Time) (c : Controller) (msg : Twist)
  (r : return_type) (c' : Controller) :
  inactive c = false ->
  received_velocity_msg_ptr_ c = Some msg ->
  update limit now c = Ret r c' <-> tick_result limit now c msg r c'.
Proof.
  intros Ha Hm. unfold update. rewrite Ha, Hm. cbv zeta.
  set (command := fetch now c msg).
  split.
  - destruct (radius_undefined command) eqn:Hc.
    { intros H; injection H as <- <-. now apply tick_radius_undefined. }
    unfold estimate. cbn [set_received open_loop odometry_ wheel_params_ handles].
    destruct (open_loop c) eqn:Ho.
    + rewrite publish_published. unfold shape.
      cbn [set_previous_publish_timestamp set_odometry set_received previous_commands_
           previous_update_timestamp_ limiter_linear_ limiter_angular_].
      destruct (previous_commands_ c) as [|t rest] eqn:Eq; [discriminate|].
      unfold actuate.
      cbn [set_previous_update set_previous_publish_timestamp set_odometry set_received
           wheel_params_ handles].
      assert (Hs : {| stamp := stamp command;
                      linear_x := limit (limiter_linear_ c) (linear_x command)
                                    (linear_x (last rest t)) (linear_x t)
                                    (seconds (now - previous_update_timestamp_ c));
                      angular_z := limit (limiter_angular_ c) (angular_z command)
                                     (angular_z (last rest t)) (angular_z t)
                                     (seconds (now - previous_update_timestamp_ c)) |}
                   = shaped limit now command c).
      { unfold shaped. rewrite Eq. now rewrite last_cons. }
      rewrite Hs.
      destruct (solve (wheel_params_ c) (linear_x (shaped limit now command c))
                  (angular_z (shaped limit now command c))) as [sp|] eqn:Es.
      * destruct (write_setpoint _ _ _) as [h'|] eqn:Ew; [|discriminate].
        intros H; injection H as <- <-.
        replace rest with (tl (previous_commands_ c)) by now rewrite Eq.
        apply (tick_ok limit now c msg _ sp h'); trivial.
        -- unfold estimator_call. now rewrite Ho.
        -- congruence.
      * intros H; injection H as <- <-.
        replace rest with (tl (previous_commands_ c)) by now rewrite Eq.
        apply (tick_solver_error limit now c msg); trivial.
        -- unfold estimator_call. now rewrite Ho.
        -- congruence.
    + destruct (encoders (wheels_per_side (wheel_params_ c)) (handles c))
        as [[a v]|r0|] eqn:He; [ | | discriminate].
      * rewrite publish_published. unfold shape.
        cbn [set_previous_publish_timestamp set_odometry set_received previous_commands_
             previous_update_timestamp_ limiter_linear_ limiter_angular_].
        destruct (previous_commands_ c) as [|t rest] eqn:Eq; [discriminate|].
        unfold actuate.
        cbn [set_previous_update set_previous_publish_timestamp set_odometry set_received
             wheel_params_ handles].
        assert (Hs : {| stamp := stamp command;
                        linear_x := limit (limiter_linear_ c) (linear_x command)
                                      (linear_x (last rest t)) (linear_x t)
                                      (seconds (now - previous_update_timestamp_ c));
                        angular_z := limit (limiter_angular_ c) (angular_z command)
                                       (angular_z (last rest t)) (angular_z t)
                                       (seconds (now - previous_update_timestamp_ c)) |}
                     = shaped limit now command c).
        { unfold shaped. rewrite Eq. now rewrite last_cons. }
        rewrite Hs.
        destruct (solve (wheel_params_ c) (linear_x (shaped limit now command c))
                    (angular_z (shaped limit now command c))) as [sp|] eqn:Es.
        -- destruct (write_setpoint _ _ _) as [h'|] eqn:Ew; [|discriminate].
           intros H; injection H as <- <-.
           replace rest with (tl (previous_commands_ c)) by now rewrite Eq.
           apply (tick_ok limit now c msg _ sp h'); trivial.
           ++ unfold estimator_call. rewrite Ho. eauto.
           ++ congruence.
        -- intros H; injection H as <- <-.
           replace rest with (tl (previous_commands_ c)) by now rewrite Eq.
           apply (tick_solver_error limit now c msg); trivial.
           ++ unfold estimator_call. rewrite Ho. eauto.
           ++ congruence.
      * intros H; injection H as <- <-.
        pose proof (encoders_exit _ _ _ He); subst r0.
        now apply tick_feedback_invalid.
  - intros H. fold command in H. destruct H as [Hc | Hc Ho He | o Hc Hcall Hq Hs | o sp h' Hc Hcall Hq Hs Hw].
    + fold command in Hc. now rewrite Hc.
    + fold command in Hc. rewrite Hc. unfold estimate.
      cbn [set_received open_loop odometry_ wheel_params_ handles]. now rewrite Ho, He.
    + fold command in Hc, Hcall, Hs |- *. rewrite Hc. unfold estimate, estimator_call in *.
      cbn [set_received open_loop odometry_ wheel_params_ handles].
      destruct (open_loop c).
      * subst o. rewrite publish_published, shape_defined by exact Hq.
        unfold actuate.
        cbn [set_previous_update set_previous_publish_timestamp set_odometry set_received
             wheel_params_ handles].
        change (shaped limit now command _) with (shaped limit now command c).
        now rewrite Hs.
      * destruct Hcall as (a & v & -> & ->).
        rewrite publish_published, shape_defined by exact Hq.
        unfold actuate.
        cbn [set_previous_update set_previous_publish_timestamp set_odometry set_received
             wheel_params_ handles].
        change (shaped limit now command _) with (shaped limit now command c).
        now rewrite Hs.
    + fold command in Hc, Hcall, Hs |- *. rewrite Hc. unfold estimate, estimator_call in *.
      cbn [set_received open_loop odometry_ wheel_params_ handles].
      destruct (open_loop c).
      * subst o. rewrite publish_published, shape_defined by exact Hq.
        unfold actuate.
        cbn [set_previous_update set_previous_publish_timestamp set_odometry set_received
             wheel_params_ handles].
        change (shaped limit now command _) with (shaped limit now command c).
        now rewrite Hs, Hw.
      * destruct Hcall as (a & v & -> & ->).
        rewrite publish_published, shape_defined by exact Hq.
        unfold actuate.
        cbn [set_previous_update set_previous_publish_timestamp set_odometry set_received
             wheel_params_ handles].
        change (shaped limit now command _) with (shaped limit now command c).
        now rewrite Hs, Hw.
Qed.

Lemma same_shape_refl (h : Handles) : same_shape h h.
Proof. unfold same_shape; tauto. Qed.

Lemma same_configuration_refl (c : Controller) : same_configuration c c.
Proof. unfold same_configuration; tauto. Qed.

Lemma halt_shape (h : Handles) : same_shape h (halt h) /\ all_zero (halt h).
Proof.
  unfold same_shape, all_zero, halt; cbn [registered_left_wheel_handles_
    registered_right_wheel_handles_ registered_middle_wheel_handles_
    registered_left_steering_handles_ registered_right_steering_handles_].
  rewrite !length_map.
  repeat split; apply Forall_map, Forall_forall; reflexivity.
Qed.

Lemma length_enqueue {A : Type} (q : list A) (x : A) :
  q <> [] -> length (tl q ++ [x]) = length q.
Proof. destruct q; [congruence|]. intros _. rewrite length_app; simpl; lia. Qed.

(** What every returning tick keeps. *)
Lemma update_keeps (limit : Limit) (now : Time) (c : Controller) (r : return_type)
  (c' : Controller) :
  update limit now c = Ret r c' ->
  same_configuration c c' /\
  same_shape (handles c) (handles c') /\
  length (previous_commands_ c') = length (previous_commands_ c).
Proof.
  intros H.
  destruct (inactive c) eqn:Ha.
  { unfold update in H. rewrite Ha in H. injection H as <- <-.
    destruct (is_halted c).
    - split; [apply same_configuration_refl | split; [apply same_shape_refl | reflexivity]].
    - split; [unfold same_configuration; cbn; tauto|].
      split; [apply halt_shape | reflexivity]. }
  destruct (received_velocity_msg_ptr_ c) as [msg|] eqn:Hm.
  2:{ unfold update in H. rewrite Ha, Hm in H. injection H as <- <-.
      split; [apply same_configuration_refl | split; [apply same_shape_refl | reflexivity]]. }
  apply (update_tick_result limit now c msg r c' Ha Hm) in H.
  destruct H as [Hc | Hc Ho He | o Hc Hcall Hq Hs | o sp h' Hc Hcall Hq Hs Hw].
  - split; [unfold same_configuration; cbn; tauto|].
    split; [apply same_shape_refl | reflexivity].
  - split; [unfold same_configuration; cbn; tauto|].
    split; [apply same_shape_refl | reflexivity].
  - split; [unfold same_configuration; cbn; tauto|].
    split; [apply same_shape_refl|].
    cbn [passed set_previous_update previous_commands_]. now apply length_enqueue.
  - split; [unfold same_configuration; cbn; tauto|].
    split; [apply (write_setpoint_spec _ _ _ _ Hw)|].
    cbn [passed set_handles set_previous_update previous_commands_]. now apply length_enqueue.
Qed.

Lemma well_formed_kept (c c' : Controller) :
  same_configuration c c' ->
  same_shape (handles c) (handles c') ->
  length (previous_commands_ c') = length (previous_commands_ c) ->
  well_formed c' = well_formed c.
Proof.
  intros (_ & _ & Hw & Ho & _) (H1 & H2 & H3 & H4 & H5) Hq.
  unfold well_formed. now rewrite Hw, Ho, H1, H2, H3, H4, H5, Hq.
Qed.

(** Every tick of a well-formed controller returns. *)
Lemma update_defined (limit : Limit) (now : Time) (c : Controller) :
  well_formed c = true -> exists r c', update limit now c = Ret r c'.
Proof.
  intros Hw.
  destruct (inactive c) eqn:Ha.
  { unfold update. rewrite Ha. eauto. }
  destruct (received_velocity_msg_ptr_ c) as [msg|] eqn:Hm.
  - destruct (update_received limit now c msg Ha Hm Hw) as (r & c' & Hu & _). eauto.
  - unfold update. rewrite Ha, Hm. eauto.
Qed.

(** X1: a well-formed controller stays well-formed through any run of
    ticks: no tick of the run is undefined, and the run keeps the
    configuration, the lengths of the five handle vectors and the length of
    the queue of previous commands. *)
Theorem ticks_keep_well_formed (limit : Limit) (times : list Time) :
  forall c,
    well_formed c = true ->
    exists c',
      ticks limit times c = Some c' /\
      well_formed c' = true /\
      same_configuration c c' /\
      same_shape (handles c) (handles c') /\
      length (previous_commands_ c') = length (previous_commands_ c).
Proof.
  induction times as [|now rest IH]; intros c Hw.
  - exists c. repeat split; trivial; try apply same_shape_refl.
    all: apply (same_configuration_refl c).
  - destruct (update_defined limit now c Hw) as (r & c1 & Hu).
    destruct (update_keeps limit now c r c1 Hu) as (Hc & Hs & Hq).
    assert (Hw1 : well_formed c1 = true) by (rewrite (well_formed_kept c c1); trivial).
    destruct (IH c1 Hw1) as (c' & Ht & Hw' & Hc' & Hs' & Hq').
    exists c'. cbn [ticks]. rewrite Hu. split; [exact Ht|]. split; [exact Hw'|].
    destruct Hc as (a1 & a2 & a3 & a4 & a5 & a6 & a7).
    destruct Hc' as (b1 & b2 & b3 & b4 & b5 & b6 & b7).
    destruct Hs as (s1 & s2 & s3 & s4 & s5), Hs' as (t1 & t2 & t3 & t4 & t5).
    unfold same_configuration, same_shape. repeat split; congruence.
Qed.

Lemma ticks_keep_well_formed_witness :
  exists c',
    ticks SpeedLimiter_limit [one_second; (2 * one_second)%Z; (3 * one_second)%Z]
      (configured false forward_msg unlimited (handles_reading (Fin 60))) = Some c' /\
    well_formed c' = true /\
    same_configuration (configured false forward_msg unlimited (handles_reading (Fin 60))) c' /\
    same_shape (handles (configured false forward_msg unlimited (handles_reading (Fin 60))))
      (handles c') /\
    length (previous_commands_ c')
      = length (previous_commands_
                  (configured false forward_msg unlimited (handles_reading (Fin 60)))).
Proof.
  apply (ticks_keep_well_formed SpeedLimiter_limit
           [one_second; (2 * one_second)%Z; (3 * one_second)%Z]
           (configured false forward_msg unlimited (handles_reading (Fin 60)))).
  reflexivity.
Defined.

(** ** Halting *)

(** X2: the first tick of an inactive controller returns OK, sets every
    wheel velocity and steering position to zero, and latches [is_halted];
    every later tick of the inactive controller returns OK and changes
    nothing, whatever the cells hold by then.  Neither touches the stored
    command, the estimator or the queue of previous commands. *)
Theorem inactive_tick_halts_once (limit : Limit) (now now' : Time) (c : Controller) :
  inactive c = true ->
  is_halted c = false ->
  exists c',
    update limit now c = Ret OK c' /\
    is_halted c' = true /\
    all_zero (handles c') /\
    same_shape (handles c) (handles c') /\
    received_velocity_msg_ptr_ c' = received_velocity_msg_ptr_ c /\
    odometry_ c' = odometry_ c /\
    previous_commands_ c' = previous_commands_ c /\
    forall h, update limit now' (set_handles h c') = Ret OK (set_handles h c').
Proof.
  intros Ha Hh. unfold update. rewrite Ha, Hh.
  eexists; split; [reflexivity|].
  cbn [set_is_halted set_handles is_halted handles received_velocity_msg_ptr_ odometry_
       previous_commands_ inactive].
  destruct (halt_shape (handles c)) as [Hs Hz].
  do 6 (split; [trivial|]).
  intros h. now rewrite Ha.
Qed.

Lemma inactive_tick_halts_once_witness :
  exists c',
    update SpeedLimiter_limit one_second deactivated = Ret OK c' /\
    is_halted c' = true /\
    all_zero (handles c') /\
    same_shape (handles deactivated) (handles c') /\
    received_velocity_msg_ptr_ c' = received_velocity_msg_ptr_ deactivated /\
    odometry_ c' = odometry_ deactivated /\
    previous_commands_ c' = previous_commands_ deactivated /\
    forall h, update SpeedLimiter_limit (2 * one_second)%Z (set_handles h c')
              = Ret OK (set_handles h c').
Proof.
  apply (inactive_tick_halts_once SpeedLimiter_limit one_second (2 * one_second)%Z
           deactivated); reflexivity.
Defined.



(** ** What a tick writes *)

(** X3: a tick that returns ERROR, on whichever path (no stored message,
    undefined turning radius before or after the limiter, NaN feedback), has
    written no wheel velocity and no steering position. *)
Theorem error_tick_writes_no_handle (limit : Limit) (now : Time) (c c' : Controller) :
  update limit now c = Ret ERROR c' -> handles c' = handles c.
Proof.
  intros H.
  destruct (inactive c) eqn:Ha.
  { unfold update in H. rewrite Ha in H. discriminate. }
  destruct (received_velocity_msg_ptr_ c) as [msg|] eqn:Hm.
  2:{ unfold update in H. rewrite Ha, Hm in H. now injection H as <-. }
  apply (update_tick_result limit now c msg ERROR c' Ha Hm) in H.
  inversion H; reflexivity.
Qed.

Lemma error_tick_writes_no_handle_witness :
  handles (configured true spin_msg unlimited (handles_reading (Fin 60)))
  = handles (configured true spin_msg unlimited (handles_reading (Fin 60))).
Proof.
  apply (error_tick_writes_no_handle SpeedLimiter_limit one_second
           (configured true spin_msg unlimited (handles_reading (Fin 60)))
           (configured true spin_msg unlimited (handles_reading (Fin 60)))).
  unfold update; cbn [inactive configured received_velocity_msg_ptr_].
  assert (Hf : fetch one_second (configured true spin_msg unlimited (handles_reading (Fin 60)))
                 spin_msg = spin_msg) by reflexivity.
  rewrite Hf.
  assert (Hc : radius_undefined spin_msg = true).
  { unfold radius_undefined, dne, spin_msg; simpl.
    rewrite (Rcmp_gt 1 0), (Rcmp_eq 0 0) by lra. reflexivity. }
  now rewrite Hc.
Defined.

(** ** Writes through references *)











(** The handles of a controller activated twice are not apart, and the
    cells do not render its writes: what is written through the first two
    handles of a vector shows through the last two as well. *)
Lemma aliased_handles_share_writes (a : Actuation) :
  exists s' h',
    write_setpoint_through 2 a reactivated_references (interfaces_reading (Fin 60)) = Some s' /\
    write_setpoint 2 a (observed reactivated_references (interfaces_reading (Fin 60)))
    = Some h' /\
    nth_error (registered_left_wheel_handles_ (observed reactivated_references s')) 2
    = Some (left_wheels_rpm a) /\
    nth_error (registered_left_wheel_handles_ h') 2 = Some (Fin 60).
Proof. do 2 eexists. repeat split; reflexivity. Qed.




(** ** Undefined ticks *)

Lemma solve_none (wheels : WheelParams) (linear angular : double) :
  solve wheels linear angular = None <->
  dne angular (Fin 0) = true /\ deq linear (Fin 0) = true.
Proof.
  unfold solve, geometry, dne.
  destruct (deq angular (Fin 0)), (deq linear (Fin 0)); simpl; split;
    try discriminate; try tauto; intros [? ?]; discriminate.
Qed.

(** X5: an open-loop tick that passes the turning-radius check is undefined
    exactly when the queue of previous commands is empty, or the solver
    yields a setpoint and a handle vector is too short for the writes (fewer
    than [wheels_per_side] wheels on a side, fewer than two middle wheels, or
    fewer than two steerings on a side). *)
Theorem open_loop_tick_undefined_iff (limit : Limit) (now : Time) (c : Controller)
  (msg : Twist) :
  inactive c = false ->
  received_velocity_msg_ptr_ c = Some msg ->
  open_loop c = true ->
  radius_undefined (fetch now c msg) = false ->
  update limit now c = Undefined <->
  previous_commands_ c = [] \/
  (solve (wheel_params_ c) (linear_x (shaped limit now (fetch now c msg) c))
     (angular_z (shaped limit now (fetch now c msg) c)) <> None /\
   ~ writable (wheels_per_side (wheel_params_ c)) (handles c)).
Proof.
  intros Ha Hm Ho Hc.
  assert (Hcall : estimator_call now (fetch now c msg) c
                    (UpdateOpenLoop (linear_x (fetch now c msg)) (angular_z (fetch now c msg)) now))
    by (unfold estimator_call; now rewrite Ho).
  split.
  - intros Hu.
    destruct (previous_commands_ c) as [|t rest] eqn:Eq; [now left | right].
    assert (Hq : previous_commands_ c <> []) by congruence.
    destruct (solve (wheel_params_ c) (linear_x (shaped limit now (fetch now c msg) c))
                (angular_z (shaped limit now (fetch now c msg) c))) as [sp|] eqn:Es.
    + split; [discriminate|]. intros (W1 & W2 & W3 & W4 & W5).
      destruct (write_setpoint_defined (wheels_per_side (wheel_params_ c)) (actuation sp)
                  (handles c) W1 W2 W3 W4 W5) as (h' & Hw).
      pose proof (tick_ok limit now c msg _ sp h' Hc Hcall Hq Es Hw) as Ht.
      apply (update_tick_result limit now c msg _ _ Ha Hm) in Ht. congruence.
    + pose proof (tick_solver_error limit now c msg _ Hc Hcall Hq Es) as Ht.
      apply (update_tick_result limit now c msg _ _ Ha Hm) in Ht. congruence.
  - intros Hu.
    destruct (update limit now c) as [r c'|] eqn:E; [exfalso | reflexivity].
    apply (update_tick_result limit now c msg r c' Ha Hm) in E.
    destruct E as [Hc' | Hc' Ho' He | o Hc' Hcall' Hq Hs | o sp h' Hc' Hcall' Hq Hs Hw];
      try congruence.
    + destruct Hu as [Hu | [Hu _]]; congruence.
    + destruct Hu as [Hu | [_ Hu]]; [congruence|].
      apply Hu. apply (write_setpoint_spec _ _ _ _ Hw).
Qed.

Lemma open_loop_tick_undefined_iff_witness :
  update SpeedLimiter_limit one_second
    (configured true forward_msg unlimited handles_one_middle) = Undefined <->
  previous_commands_ (configured true forward_msg unlimited handles_one_middle) = [] \/
  (solve (wheel_params_ (configured true forward_msg unlimited handles_one_middle))
     (linear_x (shaped SpeedLimiter_limit one_second
                  (fetch one_second (configured true forward_msg unlimited handles_one_middle)
                     forward_msg)
                  (configured true forward_msg unlimited handles_one_middle)))
     (angular_z (shaped SpeedLimiter_limit one_second
                   (fetch one_second (configured true forward_msg unlimited handles_one_middle)
                      forward_msg)
                   (configured true forward_msg unlimited handles_one_middle))) <> None /\
   ~ writable (wheels_per_side (wheel_params_
                                  (configured true forward_msg unlimited handles_one_middle)))
       (handles (configured true forward_msg unlimited handles_one_middle))).
Proof.
  apply (open_loop_tick_undefined_iff SpeedLimiter_limit one_second
           (configured true forward_msg unlimited handles_one_middle) forward_msg);
    try reflexivity.
  now apply radius_defined_straight.
Defined.

(** ** The turning-radius check after the limiter *)

(** X6: when the limiter leaves a command with zero linear and nonzero
    angular velocity, an open-loop tick that passed the first turning-radius
    check returns ERROR only after the estimator has been updated with the
    unlimited command, the limited command has entered the queue of previous
    commands and [previous_update_timestamp_] has been set to the current
    time; no handle is written. *)
Theorem late_radius_error_after_odometry (limit : Limit) (now : Time) (c : Controller)
  (msg : Twist) :
  inactive c = false ->
  received_velocity_msg_ptr_ c = Some msg ->
  open_loop c = true ->
  previous_commands_ c <> [] ->
  radius_undefined (fetch now c msg) = false ->
  radius_undefined (shaped limit now (fetch now c msg) c) = true ->
  exists c',
    update limit now c = Ret ERROR c' /\
    odometry_ c' =
      UpdateOpenLoop (linear_x (fetch now c msg)) (angular_z (fetch now c msg)) now
        :: odometry_ c /\
    previous_commands_ c' =
      tl (previous_commands_ c) ++ [shaped limit now (fetch now c msg) c] /\
    previous_update_timestamp_ c' = now /\
    handles c' = handles c.
Proof.
  intros Ha Hm Ho Hq Hc Hs.
  assert (Hcall : estimator_call now (fetch now c msg) c
                    (UpdateOpenLoop (linear_x (fetch now c msg)) (angular_z (fetch now c msg)) now))
    by (unfold estimator_call; now rewrite Ho).
  assert (Hn : solve (wheel_params_ c) (linear_x (shaped limit now (fetch now c msg) c))
                 (angular_z (shaped limit now (fetch now c msg) c)) = None).
  { apply solve_none. unfold radius_undefined in Hs. now apply andb_true_iff in Hs. }
  pose proof (tick_solver_error limit now c msg _ Hc Hcall Hq Hn) as Ht.
  apply (update_tick_result limit now c msg _ _ Ha Hm) in Ht.
  eexists; split; [exact Ht|]. repeat split.
Qed.

Lemma late_radius_error_after_odometry_witness :
  exists c',
    update SpeedLimiter_limit one_second
      (configured true turn_msg stopped (handles_reading (Fin 60))) = Ret ERROR c' /\
    odometry_ c' =
      UpdateOpenLoop
        (linear_x (fetch one_second (configured true turn_msg stopped (handles_reading (Fin 60)))
                     turn_msg))
        (angular_z (fetch one_second (configured true turn_msg stopped (handles_reading (Fin 60)))
                      turn_msg))
        one_second
        :: odometry_ (configured true turn_msg stopped (handles_reading (Fin 60))) /\
    previous_commands_ c' =
      tl (previous_commands_ (configured true turn_msg stopped (handles_reading (Fin 60))))
      ++ [shaped SpeedLimiter_limit one_second
            (fetch one_second (configured true turn_msg stopped (handles_reading (Fin 60)))
               turn_msg)
            (configured true turn_msg stopped (handles_reading (Fin 60)))] /\
    previous_update_timestamp_ c' = one_second /\
    handles c' = handles (configured true turn_msg stopped (handles_reading (Fin 60))).
Proof.
  apply (late_radius_error_after_odometry SpeedLimiter_limit one_second
           (configured true turn_msg stopped (handles_reading (Fin 60))) turn_msg);
    try reflexivity.
  - discriminate.
  - unfold radius_undefined, dne, fetch, turn_msg; deval; reflexivity.
  - unfold radius_undefined, dne, shaped, SpeedLimiter_limit, clamp, fetch, turn_msg, stopped,
      configured, unlimited; deval; reflexivity.
Defined.

(** ** The age of the stored command *)

Lemma fetch_fresh (now : Time) (c : Controller) (msg : Twist) :
  (now - stamp msg <= cmd_vel_timeout_ c * 1000000)%Z -> fetch now c msg = msg.
Proof.
  intros H. unfold fetch. rewrite Z.gtb_ltb.
  now replace (cmd_vel_timeout_ c * 1000000 <? now - stamp msg)%Z with false
    by (symmetry; apply Z.ltb_ge; lia).
Qed.

Lemma update_fresh (limit : Limit) (now : Time) (c : Controller) (msg : Twist) :
  well_formed c = true ->
  inactive c = false ->
  received_velocity_msg_ptr_ c = Some msg ->
  (now - stamp msg <= cmd_vel_timeout_ c * 1000000)%Z ->
  fetch now c msg = msg /\
  exists r c',
    update limit now c = Ret r c' /\
    received_velocity_msg_ptr_ c' = Some msg /\
    (open_loop c = true -> radius_undefined msg = false ->
     odometry_ c' = UpdateOpenLoop (linear_x msg) (angular_z msg) now :: odometry_ c).
Proof.
  intros Hw Ha Hm Hf. pose proof (fetch_fresh now c msg Hf) as E.
  split; [exact E|].
  destruct (open_loop c) eqn:Ho; [destruct (radius_undefined msg) eqn:Hc|].
  - destruct (update_received limit now c msg Ha Hm Hw) as (r & c' & Hu & Hr).
    rewrite E in Hr. exists r, c'. repeat split; trivial. discriminate.
  - destruct (update_open_loop limit now c msg Ha Hm Hw) as (r & c' & Hu & _ & Hod & Hr & _);
      [now rewrite E | exact Ho |].
    rewrite E in Hod, Hr. exists r, c'. repeat split; trivial.
  - destruct (update_received limit now c msg Ha Hm Hw) as (r & c' & Hu & Hr).
    rewrite E in Hr. exists r, c'. repeat split; trivial. discriminate.
Qed.

(** X7: a command whose age is at most the timeout, the timeout itself
    included, is the command of the tick as stored, and the tick leaves the
    stored message as it is; in open loop it is what the estimator
    receives. *)
Theorem fresh_command_is_used (limit : Limit) (now : Time) (c : Controller) (msg : Twist) :
  well_formed c = true ->
  inactive c = false ->
  received_velocity_msg_ptr_ c = Some msg ->
  (now - stamp msg <= cmd_vel_timeout_ c * 1000000)%Z ->
  fetch now c msg = msg /\
  exists r c',
    update limit now c = Ret r c' /\
    received_velocity_msg_ptr_ c' = Some msg /\
    (open_loop c = true -> radius_undefined msg = false ->
     odometry_ c' = UpdateOpenLoop (linear_x msg) (angular_z msg) now :: odometry_ c).
Proof. exact (update_fresh limit now c msg). Qed.

Lemma fresh_command_is_used_witness :
  fetch one_second (configured true boundary_msg unlimited (handles_reading (Fin 0)))
    boundary_msg = boundary_msg /\
  exists r c',
    update SpeedLimiter_limit one_second
      (configured true boundary_msg unlimited (handles_reading (Fin 0))) = Ret r c' /\
    received_velocity_msg_ptr_ c' = Some boundary_msg /\
    (open_loop (configured true boundary_msg unlimited (handles_reading (Fin 0))) = true ->
     radius_undefined boundary_msg = false ->
     odometry_ c' =
       UpdateOpenLoop (linear_x boundary_msg) (angular_z boundary_msg) one_second
         :: odometry_ (configured true boundary_msg unlimited (handles_reading (Fin 0)))).
Proof.
  apply (fresh_command_is_used SpeedLimiter_limit one_second
           (configured true boundary_msg unlimited (handles_reading (Fin 0))) boundary_msg);
    reflexivity.
Defined.

(** X8: once a tick has braked a stale command, every later tick finds the
    stored command still stale (the override keeps the old stamp) and still
    zero: the controller stays braked until a new message is stored, and in
    open loop the estimator keeps receiving the zero command. *)
Theorem braked_command_stays_braked (limit : Limit) (now : Time) (c : Controller)
  (msg : Twist) :
  well_formed c = true ->
  inactive c = false ->
  received_velocity_msg_ptr_ c = Some msg ->
  (cmd_vel_timeout_ c * 1000000 < now - stamp msg)%Z ->
  exists r c1,
    update limit now c = Ret r c1 /\
    forall now', (now <= now')%Z ->
      exists r' c2,
        update limit now' c1 = Ret r' c2 /\
        received_velocity_msg_ptr_ c2 = Some (brake msg) /\
        (open_loop c = true ->
         odometry_ c2 =
           UpdateOpenLoop (Fin 0) (Fin 0) now'
             :: UpdateOpenLoop (Fin 0) (Fin 0) now :: odometry_ c).
Proof.
  intros Hw Ha Hm Hstale.
  pose proof (fetch_stale now c msg Hstale) as Hf.
  assert (H1 : exists r c1,
             update limit now c = Ret r c1 /\
             received_velocity_msg_ptr_ c1 = Some (brake msg) /\
             (open_loop c = true ->
              odometry_ c1 = UpdateOpenLoop (Fin 0) (Fin 0) now :: odometry_ c)).
  { destruct (open_loop c) eqn:Ho.
    - destruct (update_open_loop limit now c msg Ha Hm Hw) as (r & c1 & Hu & _ & Hod & Hr & _);
        [rewrite Hf; apply brake_passes_check | exact Ho |].
      rewrite Hf in Hod, Hr. exists r, c1. repeat split; trivial.
    - destruct (update_received limit now c msg Ha Hm Hw) as (r & c1 & Hu & Hr).
      rewrite Hf in Hr. exists r, c1. repeat split; trivial. discriminate. }
  destruct H1 as (r & c1 & Hu & Hr & Hod).
  exists r, c1. split; [exact Hu|]. intros now' Hle.
  destruct (update_keeps limit now c r c1 Hu) as (Hc & Hs & Hq).
  assert (Hw1 : well_formed c1 = true) by (rewrite (well_formed_kept c c1); trivial).
  destruct Hc as (Ha1 & Ht1 & _ & Ho1 & _).
  assert (Ha1' : inactive c1 = false) by congruence.
  assert (Hf' : fetch now' c1 (brake msg) = brake msg).
  { rewrite fetch_stale; [reflexivity|]. rewrite Ht1. cbn [brake stamp]. lia. }
  destruct (open_loop c) eqn:Ho.
  - destruct (update_open_loop limit now' c1 (brake msg) Ha1' Hr Hw1)
      as (r' & c2 & Hu2 & _ & Hod2 & Hr2 & _);
      [rewrite Hf'; apply brake_passes_check | exact Ho1 |].
    rewrite Hf' in Hod2, Hr2. exists r', c2. repeat split; trivial.
    intros _. rewrite Hod2, Hod; reflexivity.
  - destruct (update_received limit now' c1 (brake msg) Ha1' Hr Hw1) as (r' & c2 & Hu2 & Hr2).
    rewrite Hf' in Hr2. exists r', c2. repeat split; trivial. discriminate.
Qed.

Lemma braked_command_stays_braked_witness :
  exists r c1,
    update SpeedLimiter_limit one_second
      (configured true stale_msg unlimited (handles_reading (Fin 0))) = Ret r c1 /\
    forall now', (one_second <= now')%Z ->
      exists r' c2,
        update SpeedLimiter_limit now' c1 = Ret r' c2 /\
        received_velocity_msg_ptr_ c2 = Some (brake stale_msg) /\
        (open_loop (configured true stale_msg unlimited (handles_reading (Fin 0))) = true ->
         odometry_ c2 =
           UpdateOpenLoop (Fin 0) (Fin 0) now'
             :: UpdateOpenLoop (Fin 0) (Fin 0) one_second
             :: odometry_ (configured true stale_msg unlimited (handles_reading (Fin 0)))).
Proof.
  apply (braked_command_stays_braked SpeedLimiter_limit one_second
           (configured true stale_msg unlimited (handles_reading (Fin 0))) stale_msg);
    reflexivity.
Defined.

(** ** Turning the other way *)

Lemma geometry_opp_angular (wheels : WheelParams) (linear angular : double) :
  dne angular (Fin 0) = true ->
  dne linear (Fin 0) = true ->
  geometry wheels linear (- angular) = geometry wheels linear angular.
Proof.
  intros Ha Hl.
  rewrite (geometry_curved wheels linear angular Ha Hl).
  rewrite geometry_curved by (trivial; now rewrite dne_opp).
  cbv zeta. unfold spec_steered_speed, spec_middle_speed.
  replace (dabs (linear / - angular)) with (dabs (linear / angular))
    by now rewrite !dabs_div, !dabs_opp.
  now rewrite !dmul_opp_l, !ddiv_opp_l, !dabs_opp.
Qed.

Lemma dmul_opp_one (a b : double) : of_int (-1) * a * b = - (of_int 1 * a * b).
Proof. unfold of_int. now rewrite dmul_one_l, dmul_minus_one_l, dmul_opp_l. Qed.

(** X9: for a command with nonzero linear and angular parts, reversing the
    angular velocity alone swaps the values written to the left and to the
    right handles: each side's wheel speed, middle wheel speed, front and
    rear steering angle becomes that of the other side. *)
Theorem mirrored_turn_swaps_sides (wheels : WheelParams) (linear angular : double) :
  dne linear (Fin 0) = true ->
  dne angular (Fin 0) = true ->
  exists sp sp',
    solve wheels linear angular = Some sp /\
    solve wheels linear (- angular) = Some sp' /\
    left_wheels_rpm (actuation sp') = right_wheels_rpm (actuation sp) /\
    right_wheels_rpm (actuation sp') = left_wheels_rpm (actuation sp) /\
    middle_left_rpm (actuation sp') = middle_right_rpm (actuation sp) /\
    middle_right_rpm (actuation sp') = middle_left_rpm (actuation sp) /\
    front_left_steering (actuation sp') = front_right_steering (actuation sp) /\
    front_right_steering (actuation sp') = front_left_steering (actuation sp) /\
    rear_left_steering (actuation sp') = rear_right_steering (actuation sp) /\
    rear_right_steering (actuation sp') = rear_left_steering (actuation sp).
Proof.
  intros Hl Ha. unfold solve.
  rewrite (geometry_opp_angular wheels linear angular Ha Hl).
  destruct (dne_sign_class linear Hl) as [L1 L2 L3 L4 | L1 L2 L3 L4 | Ln];
    [ | | rewrite (geometry_nan wheels linear angular (or_introl Ln) Ha Hl), !direct_nan;
          do 2 eexists; repeat split; reflexivity ];
    (destruct (dne_sign_class angular Ha) as [A1 A2 A3 A4 | A1 A2 A3 A4 | An];
     [ | | rewrite (geometry_nan wheels linear angular (or_intror An) Ha Hl), !direct_nan;
           do 2 eexists; repeat split; reflexivity ]);
    rewrite (geometry_curved wheels linear angular Ha Hl); cbv zeta;
    unfold quadrant; rewrite L1, ?A1, ?A2, ?A3, ?A4;
    do 2 eexists; (split; [reflexivity|]); (split; [reflexivity|]);
    unfold actuation, direct, d_at; cbn [nth d near_is_left Nat.eqb orb
      steering_angle_left steering_angle_right wheel_velocity_left wheel_velocity_right
      wheel_velocity_mid_left wheel_velocity_mid_right
      left_wheels_rpm right_wheels_rpm middle_left_rpm middle_right_rpm
      front_left_steering front_right_steering rear_left_steering rear_right_steering];
    rewrite ?dmul_opp_one, ?dopp_involutive; repeat split; reflexivity.
Qed.

Lemma mirrored_turn_swaps_sides_witness :
  exists sp sp',
    solve unit_wheels (Fin 1) (Fin 0.5) = Some sp /\
    solve unit_wheels (Fin 1) (- Fin 0.5) = Some sp' /\
    left_wheels_rpm (actuation sp') = right_wheels_rpm (actuation sp) /\
    right_wheels_rpm (actuation sp') = left_wheels_rpm (actuation sp) /\
    middle_left_rpm (actuation sp') = middle_right_rpm (actuation sp) /\
    middle_right_rpm (actuation sp') = middle_left_rpm (actuation sp) /\
    front_left_steering (actuation sp') = front_right_steering (actuation sp) /\
    front_right_steering (actuation sp') = front_left_steering (actuation sp) /\
    rear_left_steering (actuation sp') = rear_right_steering (actuation sp) /\
    rear_right_steering (actuation sp') = rear_left_steering (actuation sp).
Proof.
  apply (mirrored_turn_swaps_sides unit_wheels (Fin 1) (Fin 0.5)); apply dne_Fin_true; lra.
Defined.

(** ** Signs of the wheel speeds *)

Lemma not_negative_abs (a : double) : not_negative (dabs a).
Proof.
  unfold not_negative. destruct a as [x| | |]; simpl; trivial.
  pose proof (Rabs_pos x). rcmp; trivial.
Qed.

Lemma not_negative_mul (a c : double) :
  not_negative a -> dge c (Fin 0) = true -> not_negative (a * c).
Proof.
  unfold not_negative, dge.
  destruct a as [x| | |], c as [y| | |]; simpl; try discriminate; trivial;
    unfold scale_inf; rcmp; simpl; trivial; try discriminate; intros; nra.
Qed.

Lemma not_positive_opp (a : double) : not_negative a -> not_positive (- a).
Proof.
  unfold not_negative, not_positive. destruct a as [x| | |]; simpl; trivial.
  rcmp; trivial; discriminate.
Qed.

Lemma geometry_not_negative (wheels : WheelParams) (linear angular : double) (g : Geometry) :
  dge (angular_velocity_compensation wheels) (Fin 0) = true ->
  geometry wheels linear angular = Some g ->
  not_negative (velocity_left g) /\ not_negative (velocity_right g) /\
  not_negative (velocity_mid_left g) /\ not_negative (velocity_mid_right g).
Proof.
  intros Hc. unfold geometry.
  destruct (deq angular (Fin 0)).
  - intros H; injection H as <-; cbn. repeat split; apply not_negative_abs.
  - destruct (dne linear (Fin 0)); [|discriminate].
    intros H; injection H as <-; cbn.
    repeat split; apply not_negative_mul; trivial; apply not_negative_abs.
Qed.

(** X11: with a nonnegative angular velocity compensation, no wheel is
    commanded against the linear command: when the linear command is
    positive none of the four wheel speeds of the setpoint is below zero, and
    otherwise none is above zero. *)
Theorem wheel_speeds_follow_linear_sign (wheels : WheelParams) (linear angular : double)
  (sp : Setpoint) :
  dge (angular_velocity_compensation wheels) (Fin 0) = true ->
  solve wheels linear angular = Some sp ->
  if dgt linear (Fin 0)
  then not_negative (wheel_velocity_left sp) /\ not_negative (wheel_velocity_right sp) /\
       not_negative (wheel_velocity_mid_left sp) /\ not_negative (wheel_velocity_mid_right sp)
  else not_positive (wheel_velocity_left sp) /\ not_positive (wheel_velocity_right sp) /\
       not_positive (wheel_velocity_mid_left sp) /\ not_positive (wheel_velocity_mid_right sp).
Proof.
  intros Hc. unfold solve.
  destruct (geometry wheels linear angular) as [g|] eqn:Eg; [|discriminate].
  destruct (geometry_not_negative wheels linear angular g Hc Eg) as (H1 & H2 & H3 & H4).
  intros H; injection H as <-.
  unfold quadrant.
  destruct (dgt linear (Fin 0));
    [destruct (dge angular (Fin 0)) | destruct (dgt angular (Fin 0))];
    unfold direct, d_at, of_int;
    cbn [nth d near_is_left Nat.eqb orb wheel_velocity_left wheel_velocity_right
         wheel_velocity_mid_left wheel_velocity_mid_right];
    rewrite ?dmul_one_l, ?dmul_minus_one_l;
    repeat split; trivial; now apply not_positive_opp.
Qed.

Lemma wheel_speeds_follow_linear_sign_witness :
  exists sp,
    solve unit_wheels (Fin (-1)) (Fin 0) = Some sp /\
    if dgt (Fin (-1)) (Fin 0)
    then not_negative (wheel_velocity_left sp) /\ not_negative (wheel_velocity_right sp) /\
         not_negative (wheel_velocity_mid_left sp) /\ not_negative (wheel_velocity_mid_right sp)
    else not_positive (wheel_velocity_left sp) /\ not_positive (wheel_velocity_right sp) /\
         not_positive (wheel_velocity_mid_left sp) /\ not_positive (wheel_velocity_mid_right sp).
Proof.
  eexists. split.
  - unfold solve. rewrite geometry_straight. reflexivity.
  - apply (wheel_speeds_follow_linear_sign unit_wheels (Fin (-1)) (Fin 0)).
    + unfold dge, unit_wheels; simpl. now rewrite (Rcmp_lt 0 1) by lra.
    + unfold solve. rewrite geometry_straight. reflexivity.
Defined.

(** ** The feedback block *)

Lemma nan_search (h : Handles) (n : nat) :
  (exists j, (j < n)%nat /\ nan_at h j = true) \/
  (forall j, (j < n)%nat -> nan_at h j = false).
Proof.
  induction n as [|n [(j & Hj & Hn) | IH]].
  - right. intros j Hj. lia.
  - left. exists j. split; [lia | exact Hn].
  - destruct (nan_at h n) eqn:E.
    + left. exists n. split; [lia | exact E].
    + right. intros j Hj. destruct (Nat.eq_dec j n) as [->|]; [exact E|]. apply IH. lia.
Qed.

(** X13: when the four handle vectors have [n] elements at least, the
    feedback reduction over [n] wheels returns ERROR exactly when one of the
    readings of the first [n] indices is NaN, and otherwise hands over a pair
    for the estimator; it never returns OK by itself and is never
    undefined. *)
Theorem feedback_error_iff_nan (n : nat) (h : Handles) :
  in_range h n ->
  (encoders n h = Exit ERROR <-> exists j, (j < n)%nat /\ nan_at h j = true) /\
  ((forall j, (j < n)%nat -> nan_at h j = false) <-> exists pair, encoders n h = Next pair) /\
  encoders n h <> Exit OK /\
  encoders n h <> Fault.
Proof.
  intros Hr.
  assert (Hexit : (exists j, (j < n)%nat /\ nan_at h j = true) -> encoders n h = Exit ERROR).
  { intros (j & Hj & Hn). unfold encoders.
    rewrite feedback_loop_exit; trivial. exists j; split; [lia | exact Hn]. }
  assert (Hnext : (forall j, (j < n)%nat -> nan_at h j = false) ->
                  exists pair, encoders n h = Next pair).
  { intros Hn. unfold encoders.
    rewrite feedback_loop_next; [eauto | exact Hr | intros j Hj; apply Hn; lia]. }
  repeat split.
  - intros E. destruct (nan_search h n) as [H|H]; [exact H|].
    destruct (Hnext H) as [pair Hp]. congruence.
  - exact Hexit.
  - exact Hnext.
  - intros [pair Hp] j Hj. destruct (nan_at h j) eqn:E; [|reflexivity].
    rewrite Hexit in Hp by eauto. discriminate.
  - intros E. apply encoders_exit in E. discriminate.
  - now apply encoders_defined.
Qed.

Lemma feedback_error_iff_nan_witness :
  (encoders 2 handles_nan = Exit ERROR <-> exists j, (j < 2)%nat /\ nan_at handles_nan j = true) /\
  ((forall j, (j < 2)%nat -> nan_at handles_nan j = false) <->
   exists pair, encoders 2 handles_nan = Next pair) /\
  encoders 2 handles_nan <> Exit OK /\
  encoders 2 handles_nan <> Fault.
Proof.
  apply (feedback_error_iff_nan 2 handles_nan). now apply in_range_reading.
Defined.

(** ** Commands received between ticks *)

(** X19: a stamped message that arrives with a zero stamp while the
    subscriber is active is stamped with the time of arrival: a tick at most
    the timeout later uses its velocities unbraked (in open loop they are
    what the estimator receives) and keeps it stored. *)
Theorem zero_stamped_command_is_fresh (limit : Limit) (arrival now : Time) (c : Controller)
  (msg : Twist) :
  well_formed c = true ->
  inactive c = false ->
  stamp msg = 0%Z ->
  (now - arrival <= cmd_vel_timeout_ c * 1000000)%Z ->
  let stored := {| stamp := arrival; linear_x := linear_x msg; angular_z := angular_z msg |} in
  received_velocity_msg_ptr_ (stamped_callback true arrival msg c) = Some stored /\
  exists r c',
    update limit now (stamped_callback true arrival msg c) = Ret r c' /\
    received_velocity_msg_ptr_ c' = Some stored /\
    (open_loop c = true -> radius_undefined msg = false ->
     odometry_ c' = UpdateOpenLoop (linear_x msg) (angular_z msg) now :: odometry_ c).
Proof.
  intros Hw Ha Hz Hage stored.
  assert (E : stamped_callback true arrival msg c = set_received (Some stored) c).
  { unfold stamped_callback. cbn [negb]. now rewrite Hz. }
  rewrite E. split; [reflexivity|].
  destruct (update_fresh limit now (set_received (Some stored) c) stored)
    as (_ & r & c' & Hu & Hr & Hod); trivial.
  exists r, c'. repeat split; trivial.
Qed.

Lemma zero_stamped_command_is_fresh_witness :
  let c := configured true stale_msg unlimited (handles_reading (Fin 0)) in
  let stored := {| stamp := one_second; linear_x := linear_x unstamped_forward_msg;
                   angular_z := angular_z unstamped_forward_msg |} in
  received_velocity_msg_ptr_ (stamped_callback true one_second unstamped_forward_msg c)
    = Some stored /\
  exists r c',
    update SpeedLimiter_limit one_second
      (stamped_callback true one_second unstamped_forward_msg c) = Ret r c' /\
    received_velocity_msg_ptr_ c' = Some stored /\
    (open_loop c = true -> radius_undefined unstamped_forward_msg = false ->
     odometry_ c' =
       UpdateOpenLoop (linear_x unstamped_forward_msg) (angular_z unstamped_forward_msg)
         one_second :: odometry_ c).
Proof.
  apply (zero_stamped_command_is_fresh SpeedLimiter_limit one_second one_second
           (configured true stale_msg unlimited (handles_reading (Fin 0)))
           unstamped_forward_msg); try reflexivity.
  cbn [configured cmd_vel_timeout_]; unfold one_second; lia.
Defined.

(** X20: an unstamped message that arrives while the subscriber is active
    overwrites, in the stored message, both velocities and the stamp (with
    the time of arrival), whatever a stale override left there: a tick at
    most the timeout later uses the new velocities.  With a null stored
    pointer the callback is undefined. *)
Theorem unstamped_command_replaces_store (limit : Limit) (arrival now : Time)
  (c : Controller) (old : Twist) (linear angular : double) :
  well_formed c = true ->
  inactive c = false ->
  received_velocity_msg_ptr_ c = Some old ->
  (now - arrival <= cmd_vel_timeout_ c * 1000000)%Z ->
  let stored := {| stamp := arrival; linear_x := linear; angular_z := angular |} in
  unstamped_callback true arrival linear angular (set_received None c) = None /\
  exists c1,
    unstamped_callback true arrival linear angular c = Some c1 /\
    received_velocity_msg_ptr_ c1 = Some stored /\
    exists r c',
      update limit now c1 = Ret r c' /\
      received_velocity_msg_ptr_ c' = Some stored /\
      (open_loop c = true -> radius_undefined stored = false ->
       odometry_ c' = UpdateOpenLoop linear angular now :: odometry_ c).
Proof.
  intros Hw Ha Hm Hage stored.
  split; [reflexivity|].
  exists (set_received (Some stored) c).
  split; [unfold unstamped_callback; cbn [negb]; now rewrite Hm|].
  split; [reflexivity|].
  destruct (update_fresh limit now (set_received (Some stored) c) stored)
    as (_ & r & c' & Hu & Hr & Hod); trivial.
  exists r, c'. repeat split; trivial.
Qed.

Lemma unstamped_command_replaces_store_witness :
  let c := configured true (brake stale_msg) unlimited (handles_reading (Fin 0)) in
  let stored := {| stamp := one_second; linear_x := Fin 1; angular_z := Fin 0 |} in
  unstamped_callback true one_second (Fin 1) (Fin 0) (set_received None c) = None /\
  exists c1,
    unstamped_callback true one_second (Fin 1) (Fin 0) c = Some c1 /\
    received_velocity_msg_ptr_ c1 = Some stored /\
    exists r c',
      update SpeedLimiter_limit one_second c1 = Ret r c' /\
      received_velocity_msg_ptr_ c' = Some stored /\
      (open_loop c = true -> radius_undefined stored = false ->
       odometry_ c' = UpdateOpenLoop (Fin 1) (Fin 0) one_second :: odometry_ c).
Proof.
  apply (unstamped_command_replaces_store SpeedLimiter_limit one_second one_second
           (configured true (brake stale_msg) unlimited (handles_reading (Fin 0)))
           (brake stale_msg) (Fin 1) (Fin 0)); try reflexivity.
  cbn [configured cmd_vel_timeout_]; unfold one_second; lia.
Defined.

(** ** Interface configuration and activation *)

Module LifecycleProperties.
Import Lifecycle Registration.

Lemma in_both_states (joint_name interface : string) (joint_names : list string) :
  In joint_name joint_names ->
  interface = HW_IF_POSITION \/ interface = HW_IF_VELOCITY ->
  In (full_name joint_name interface) (both_states joint_names).
Proof.
  intros Hin Hi. unfold both_states. apply in_flat_map. exists joint_name.
  split; [exact Hin|]. destruct Hi as [-> | ->]; simpl; auto.
Qed.

Lemma length_both_states (joint_names : list string) :
  length (both_states joint_names) = (2 * length joint_names)%nat.
Proof.
  unfold both_states. induction joint_names as [|j l IH]; simpl in *; [reflexivity | lia].
Qed.

(** X14: every command interface the controller asks for is also among the
    state interfaces it asks for; it asks for one command interface and two
    state interfaces (position and velocity) per joint name. *)
Theorem commanded_interfaces_are_observed (n : JointNames) :
  incl (command_interface_configuration n) (state_interface_configuration n) /\
  length (command_interface_configuration n) = length (all_names n) /\
  length (state_interface_configuration n) = (2 * length (all_names n))%nat /\
  forall joint_name, In joint_name (all_names n) ->
    In (full_name joint_name HW_IF_POSITION) (state_interface_configuration n) /\
    In (full_name joint_name HW_IF_VELOCITY) (state_interface_configuration n).
Proof.
  unfold command_interface_configuration, state_interface_configuration, all_names.
  split; [|split; [|split]].
  - intros x Hx.
    repeat (apply in_app_or in Hx; destruct Hx as [Hx | Hx]);
      apply in_map_iff in Hx; destruct Hx as (j & <- & Hj);
      repeat rewrite in_app_iff;
      [ left | right; left | do 2 right; left | do 3 right; left | do 4 right ];
      apply in_both_states; auto.
  - rewrite !length_app, !length_map. reflexivity.
  - rewrite !length_app, !length_both_states. lia.
  - intros j Hj.
    repeat (apply in_app_or in Hj; destruct Hj as [Hj | Hj]);
      split; repeat rewrite in_app_iff;
      [ left | left | right; left | right; left | do 2 right; left | do 2 right; left
      | do 3 right; left | do 3 right; left | do 4 right | do 4 right ];
      apply in_both_states; auto.
Qed.

Lemma find_interface_refers (interfaces : list Interface) (name interface_name : string) :
  forall position,
    find_interface interfaces name interface_name = Some position ->
    refers interfaces position name interface_name.
Proof.
  induction interfaces as [|i rest IH]; intros position H; simpl in H; [discriminate|].
  destruct (String.eqb (get_name i) name && String.eqb (get_interface_name i) interface_name)
    eqn:E.
  - injection H as <-. apply andb_true_iff in E as [E1 E2].
    apply String.eqb_eq in E1, E2. exists i. simpl. auto.
  - destruct (find_interface rest name interface_name) as [p|]; [|discriminate].
    injection H as <-. destruct (IH p eq_refl) as (j & Hj & Hn). exists j. simpl. auto.
Qed.

Lemma register_wheels_app (S C : list Interface) (wheel_names : list string) :
  forall registered,
    register_wheels S C wheel_names registered =
    (fst (register_wheels S C wheel_names []), registered ++ wheel_handles S C wheel_names).
Proof.
  unfold wheel_handles.
  induction wheel_names as [|w rest IH]; intros registered; simpl.
  - now rewrite app_nil_r.
  - destruct (find_interface S w HW_IF_POSITION); [|now rewrite app_nil_r].
    destruct (find_interface S w HW_IF_VELOCITY); [|now rewrite app_nil_r].
    destruct (find_interface C w HW_IF_VELOCITY); [|now rewrite app_nil_r].
    rewrite (IH (registered ++ _)), (IH [_]). simpl. now rewrite <- app_assoc.
Qed.

Lemma register_steerings_app (S C : list Interface) (steering_names : list string) :
  forall registered,
    register_steerings S C steering_names registered =
    (fst (register_steerings S C steering_names []),
     registered ++ steering_handles S C steering_names).
Proof.
  unfold steering_handles.
  induction steering_names as [|w rest IH]; intros registered; simpl.
  - now rewrite app_nil_r.
  - destruct (find_interface S w HW_IF_POSITION); [|now rewrite app_nil_r].
    destruct (find_interface S w HW_IF_VELOCITY); [|now rewrite app_nil_r].
    destruct (find_interface C w HW_IF_POSITION); [|now rewrite app_nil_r].
    rewrite (IH (registered ++ _)), (IH [_]). simpl. now rewrite <- app_assoc.
Qed.

Lemma register_wheels_success (S C : list Interface) (wheel_names : list string) :
  (fst (register_wheels S C wheel_names []) = SUCCESS <-> wheels_available S C wheel_names) /\
  (length (wheel_handles S C wheel_names) <= length wheel_names)%nat /\
  (fst (register_wheels S C wheel_names []) = SUCCESS ->
   length (wheel_handles S C wheel_names) = length wheel_names).
Proof.
  unfold wheel_handles, wheels_available.
  induction wheel_names as [|w rest (IH1 & IH2 & IH3)]; simpl.
  - split; [split; [intros _ x [] | reflexivity] | split; [lia | reflexivity]].
  - destruct (find_interface S w HW_IF_POSITION) as [p|] eqn:E1.
    2:{ simpl. split; [split; [discriminate|] | split; [lia | discriminate]].
        intros H. destruct (H w (or_introl eq_refl)) as (A & _). congruence. }
    destruct (find_interface S w HW_IF_VELOCITY) as [v|] eqn:E2.
    2:{ simpl. split; [split; [discriminate|] | split; [lia | discriminate]].
        intros H. destruct (H w (or_introl eq_refl)) as (_ & A & _). congruence. }
    destruct (find_interface C w HW_IF_VELOCITY) as [c|] eqn:E3.
    2:{ simpl. split; [split; [discriminate|] | split; [lia | discriminate]].
        intros H. destruct (H w (or_introl eq_refl)) as (_ & _ & A). congruence. }
    rewrite register_wheels_app. unfold wheel_handles. simpl.
    split; [split | split].
    + intros H x [<- | Hin].
      * rewrite E1, E2, E3. repeat split; discriminate.
      * now apply IH1.
    + intros H. apply IH1. intros x Hin. apply H. now right.
    + lia.
    + intros H. now rewrite IH3.
Qed.

Lemma register_steerings_success (S C : list Interface) (steering_names : list string) :
  (fst (register_steerings S C steering_names []) = SUCCESS <-> steerings_available S C steering_names) /\
  (length (steering_handles S C steering_names) <= length steering_names)%nat /\
  (fst (register_steerings S C steering_names []) = SUCCESS ->
   length (steering_handles S C steering_names) = length steering_names).
Proof.
  unfold steering_handles, steerings_available.
  induction steering_names as [|w rest (IH1 & IH2 & IH3)]; simpl.
  - split; [split; [intros _ x [] | reflexivity] | split; [lia | reflexivity]].
  - destruct (find_interface S w HW_IF_POSITION) as [p|] eqn:E1.
    2:{ simpl. split; [split; [discriminate|] | split; [lia | discriminate]].
        intros H. destruct (H w (or_introl eq_refl)) as (A & _). congruence. }
    destruct (find_interface S w HW_IF_VELOCITY) as [v|] eqn:E2.
    2:{ simpl. split; [split; [discriminate|] | split; [lia | discriminate]].
        intros H. destruct (H w (or_introl eq_refl)) as (_ & A & _). congruence. }
    destruct (find_interface C w HW_IF_POSITION) as [c|] eqn:E3.
    2:{ simpl. split; [split; [discriminate|] | split; [lia | discriminate]].
        intros H. destruct (H w (or_introl eq_refl)) as (_ & _ & A). congruence. }
    rewrite register_steerings_app. unfold steering_handles. simpl.
    split; [split | split].
    + intros H x [<- | Hin].
      * rewrite E1, E2, E3. repeat split; discriminate.
      * now apply IH1.
    + intros H. apply IH1. intros x Hin. apply H. now right.
    + lia.
    + intros H. now rewrite IH3.
Qed.

Lemma configure_side_wheel_spec (S C : list Interface) (wheel_names : list string)
  (registered : list Handle) :
  snd (configure_side_wheel S C wheel_names registered)
    = registered ++ wheel_handles S C wheel_names /\
  (fst (configure_side_wheel S C wheel_names registered) = SUCCESS <->
   wheel_names <> [] /\ wheels_available S C wheel_names).
Proof.
  destruct wheel_names as [|w rest].
  - simpl. unfold wheel_handles; simpl. rewrite app_nil_r.
    split; [reflexivity|]. split; [discriminate | intros [H _]; congruence].
  - unfold configure_side_wheel. rewrite register_wheels_app. cbn [fst snd].
    split; [reflexivity|].
    destruct (register_wheels_success S C (w :: rest)) as (H & _).
    rewrite H. split; [intros A; split; [discriminate | exact A] | tauto].
Qed.

Lemma configure_side_steering_spec (S C : list Interface) (steering_names : list string)
  (registered : list Handle) :
  snd (configure_side_steering S C steering_names registered)
    = registered ++ steering_handles S C steering_names /\
  (fst (configure_side_steering S C steering_names registered) = SUCCESS <->
   steering_names <> [] /\ steerings_available S C steering_names).
Proof.
  destruct steering_names as [|w rest].
  - simpl. unfold steering_handles; simpl. rewrite app_nil_r.
    split; [reflexivity|]. split; [discriminate | intros [H _]; congruence].
  - unfold configure_side_steering. rewrite register_steerings_app. cbn [fst snd].
    split; [reflexivity|].
    destruct (register_steerings_success S C (w :: rest)) as (H & _).
    rewrite H. split; [intros A; split; [discriminate | exact A] | tauto].
Qed.

Lemma failed_iff (r : CallbackReturn) :
  match r with ERROR => true | SUCCESS => false end = false <-> r = SUCCESS.
Proof. destruct r; split; congruence. Qed.

Lemma nonempty_app (registered added : list Handle) (names0 : list string) :
  names0 <> [] -> length added = length names0 ->
  match registered ++ added with [] => true | _ => false end = false.
Proof.
  intros Hn Hl. destruct names0; [congruence|].
  destruct added; [discriminate|]. now destruct registered.
Qed.

Lemma on_activate_success (n : Node) :
  fst (on_activate n) = SUCCESS <->
  (left_wheel_names_ (names n) <> [] /\
   wheels_available (state_interfaces_ n) (command_interfaces_ n) (left_wheel_names_ (names n))) /\
  (right_wheel_names_ (names n) <> [] /\
   wheels_available (state_interfaces_ n) (command_interfaces_ n) (right_wheel_names_ (names n))) /\
  (left_steering_names_ (names n) <> [] /\
   steerings_available (state_interfaces_ n) (command_interfaces_ n)
     (left_steering_names_ (names n))) /\
  (right_steering_names_ (names n) <> [] /\
   steerings_available (state_interfaces_ n) (command_interfaces_ n)
     (right_steering_names_ (names n))) /\
  (middle_wheel_names_ (names n) <> [] /\
   wheels_available (state_interfaces_ n) (command_interfaces_ n)
     (middle_wheel_names_ (names n))).
Proof.
  unfold on_activate; cbv zeta.
  destruct (configure_side_wheel_spec (state_interfaces_ n) (command_interfaces_ n)
              (left_wheel_names_ (names n)) (registered_left_wheel_handles_ n)) as [L1 L2].
  destruct (configure_side_wheel_spec (state_interfaces_ n) (command_interfaces_ n)
              (right_wheel_names_ (names n)) (registered_right_wheel_handles_ n)) as [R1 R2].
  destruct (configure_side_wheel_spec (state_interfaces_ n) (command_interfaces_ n)
              (middle_wheel_names_ (names n)) (registered_middle_wheel_handles_ n)) as [M1 M2].
  destruct (configure_side_steering_spec (state_interfaces_ n) (command_interfaces_ n)
              (left_steering_names_ (names n)) (registered_left_steering_handles_ n))
    as [SL1 SL2].
  destruct (configure_side_steering_spec (state_interfaces_ n) (command_interfaces_ n)
              (right_steering_names_ (names n)) (registered_right_steering_handles_ n))
    as [SR1 SR2].
  rewrite <- L2, <- R2, <- M2, <- SL2, <- SR2.
  destruct (fst (configure_side_wheel _ _ (left_wheel_names_ (names n)) _)) eqn:EL;
    [|cbn; split; [discriminate | intros (A & _); discriminate]].
  destruct (fst (configure_side_wheel _ _ (right_wheel_names_ (names n)) _)) eqn:ER;
    [|cbn; split; [discriminate | intros (_ & A & _); discriminate]].
  destruct (fst (configure_side_steering _ _ (left_steering_names_ (names n)) _)) eqn:ESL;
    [|cbn; split; [discriminate | intros (_ & _ & A & _); discriminate]].
  destruct (fst (configure_side_steering _ _ (right_steering_names_ (names n)) _)) eqn:ESR;
    [|cbn; split; [discriminate | intros (_ & _ & _ & A & _); discriminate]].
  destruct (fst (configure_side_wheel _ _ (middle_wheel_names_ (names n)) _)) eqn:EM;
    [|cbn; split; [discriminate | intros (_ & _ & _ & _ & A); discriminate]].
  cbn [orb].
  clear EL ER EM ESL ESR.
  pose proof (proj1 L2 eq_refl) as EL. pose proof (proj1 R2 eq_refl) as ER.
  pose proof (proj1 M2 eq_refl) as EM. pose proof (proj1 SL2 eq_refl) as ESL.
  pose proof (proj1 SR2 eq_refl) as ESR.
  rewrite L1, R1, M1, SL1, SR1.
  rewrite (nonempty_app _ _ (left_wheel_names_ (names n)));
    [ | tauto | apply register_wheels_success, register_wheels_success; tauto ].
  rewrite (nonempty_app _ _ (right_wheel_names_ (names n)));
    [ | tauto | apply register_wheels_success, register_wheels_success; tauto ].
  rewrite (nonempty_app _ _ (middle_wheel_names_ (names n)));
    [ | tauto | apply register_wheels_success, register_wheels_success; tauto ].
  rewrite (nonempty_app _ _ (left_steering_names_ (names n)));
    [ | tauto | apply register_steerings_success, register_steerings_success; tauto ].
  rewrite (nonempty_app _ _ (right_steering_names_ (names n)));
    [ | tauto | apply register_steerings_success, register_steerings_success; tauto ].
  cbn. tauto.
Qed.

(** X15: activation succeeds exactly when none of the five name vectors is
    empty and every wheel name has a position state, a velocity state and a
    velocity command interface, and every steering name a position state, a
    velocity state and a position command interface; the emptiness tests on
    the registered handles that follow the registrations never fail by
    themselves. *)
Theorem activation_succeeds_iff (n : Node) :
  fst (on_activate n) = SUCCESS <->
  (left_wheel_names_ (names n) <> [] /\
   wheels_available (state_interfaces_ n) (command_interfaces_ n) (left_wheel_names_ (names n))) /\
  (right_wheel_names_ (names n) <> [] /\
   wheels_available (state_interfaces_ n) (command_interfaces_ n) (right_wheel_names_ (names n))) /\
  (left_steering_names_ (names n) <> [] /\
   steerings_available (state_interfaces_ n) (command_interfaces_ n)
     (left_steering_names_ (names n))) /\
  (right_steering_names_ (names n) <> [] /\
   steerings_available (state_interfaces_ n) (command_interfaces_ n)
     (right_steering_names_ (names n))) /\
  (middle_wheel_names_ (names n) <> [] /\
   wheels_available (state_interfaces_ n) (command_interfaces_ n)
     (middle_wheel_names_ (names n))).
Proof. exact (on_activate_success n). Qed.

Lemma on_activate_registers (n : Node) :
  names (snd (on_activate n)) = names n /\
  state_interfaces_ (snd (on_activate n)) = state_interfaces_ n /\
  command_interfaces_ (snd (on_activate n)) = command_interfaces_ n /\
  registered_left_wheel_handles_ (snd (on_activate n))
    = registered_left_wheel_handles_ n
      ++ wheel_handles (state_interfaces_ n) (command_interfaces_ n)
           (left_wheel_names_ (names n)) /\
  registered_right_wheel_handles_ (snd (on_activate n))
    = registered_right_wheel_handles_ n
      ++ wheel_handles (state_interfaces_ n) (command_interfaces_ n)
           (right_wheel_names_ (names n)) /\
  registered_middle_wheel_handles_ (snd (on_activate n))
    = registered_middle_wheel_handles_ n
      ++ wheel_handles (state_interfaces_ n) (command_interfaces_ n)
           (middle_wheel_names_ (names n)) /\
  registered_left_steering_handles_ (snd (on_activate n))
    = registered_left_steering_handles_ n
      ++ steering_handles (state_interfaces_ n) (command_interfaces_ n)
           (left_steering_names_ (names n)) /\
  registered_right_steering_handles_ (snd (on_activate n))
    = registered_right_steering_handles_ n
      ++ steering_handles (state_interfaces_ n) (command_interfaces_ n)
           (right_steering_names_ (names n)).
Proof.
  destruct (configure_side_wheel_spec (state_interfaces_ n) (command_interfaces_ n)
              (left_wheel_names_ (names n)) (registered_left_wheel_handles_ n)) as [L1 _].
  destruct (configure_side_wheel_spec (state_interfaces_ n) (command_interfaces_ n)
              (right_wheel_names_ (names n)) (registered_right_wheel_handles_ n)) as [R1 _].
  destruct (configure_side_wheel_spec (state_interfaces_ n) (command_interfaces_ n)
              (middle_wheel_names_ (names n)) (registered_middle_wheel_handles_ n)) as [M1 _].
  destruct (configure_side_steering_spec (state_interfaces_ n) (command_interfaces_ n)
              (left_steering_names_ (names n)) (registered_left_steering_handles_ n))
    as [SL1 _].
  destruct (configure_side_steering_spec (state_interfaces_ n) (command_interfaces_ n)
              (right_steering_names_ (names n)) (registered_right_steering_handles_ n))
    as [SR1 _].
  rewrite <- L1, <- R1, <- M1, <- SL1, <- SR1.
  unfold on_activate; cbv zeta.
  repeat match goal with
    | |- context [if ?b then _ else _] => destruct b
    end; cbn; repeat split; reflexivity.
Qed.

(** X16: activation never removes a registered handle: whatever it returns,
    each of the five handle vectors is the old one followed by the handles
    registered for its names, in order, up to the first name that lacks an
    interface.  The flags [is_halted] and [subscriber_is_active_] change only
    on success (to false and true), and then each vector has grown by exactly
    the number of its names. *)
Theorem activation_appends_handles (n : Node) :
  let S := state_interfaces_ n in
  let C := command_interfaces_ n in
  let n' := snd (on_activate n) in
  names n' = names n /\ state_interfaces_ n' = S /\ command_interfaces_ n' = C /\
  registered_left_wheel_handles_ n'
    = registered_left_wheel_handles_ n ++ wheel_handles S C (left_wheel_names_ (names n)) /\
  registered_right_wheel_handles_ n'
    = registered_right_wheel_handles_ n ++ wheel_handles S C (right_wheel_names_ (names n)) /\
  registered_middle_wheel_handles_ n'
    = registered_middle_wheel_handles_ n ++ wheel_handles S C (middle_wheel_names_ (names n)) /\
  registered_left_steering_handles_ n'
    = registered_left_steering_handles_ n
      ++ steering_handles S C (left_steering_names_ (names n)) /\
  registered_right_steering_handles_ n'
    = registered_right_steering_handles_ n
      ++ steering_handles S C (right_steering_names_ (names n)) /\
  (fst (on_activate n) = ERROR ->
   is_halted n' = is_halted n /\ subscriber_is_active_ n' = subscriber_is_active_ n) /\
  (fst (on_activate n) = SUCCESS ->
   is_halted n' = false /\ subscriber_is_active_ n' = true /\
   length (wheel_handles S C (left_wheel_names_ (names n)))
     = length (left_wheel_names_ (names n)) /\
   length (wheel_handles S C (right_wheel_names_ (names n)))
     = length (right_wheel_names_ (names n)) /\
   length (wheel_handles S C (middle_wheel_names_ (names n)))
     = length (middle_wheel_names_ (names n)) /\
   length (steering_handles S C (left_steering_names_ (names n)))
     = length (left_steering_names_ (names n)) /\
   length (steering_handles S C (right_steering_names_ (names n)))
     = length (right_steering_names_ (names n))).
Proof.
  cbv zeta.
  pose proof (on_activate_success n) as Hiff.
  destruct (configure_side_wheel_spec (state_interfaces_ n) (command_interfaces_ n)
              (left_wheel_names_ (names n)) (registered_left_wheel_handles_ n)) as [L1 _].
  destruct (configure_side_wheel_spec (state_interfaces_ n) (command_interfaces_ n)
              (right_wheel_names_ (names n)) (registered_right_wheel_handles_ n)) as [R1 _].
  destruct (configure_side_wheel_spec (state_interfaces_ n) (command_interfaces_ n)
              (middle_wheel_names_ (names n)) (registered_middle_wheel_handles_ n)) as [M1 _].
  destruct (configure_side_steering_spec (state_interfaces_ n) (command_interfaces_ n)
              (left_steering_names_ (names n)) (registered_left_steering_handles_ n))
    as [SL1 _].
  destruct (configure_side_steering_spec (state_interfaces_ n) (command_interfaces_ n)
              (right_steering_names_ (names n)) (registered_right_steering_handles_ n))
    as [SR1 _].
  assert (Hreg : names (snd (on_activate n)) = names n /\
                 state_interfaces_ (snd (on_activate n)) = state_interfaces_ n /\
                 command_interfaces_ (snd (on_activate n)) = command_interfaces_ n /\
                 registered_left_wheel_handles_ (snd (on_activate n))
                   = snd (configure_side_wheel (state_interfaces_ n) (command_interfaces_ n)
                            (left_wheel_names_ (names n)) (registered_left_wheel_handles_ n)) /\
                 registered_right_wheel_handles_ (snd (on_activate n))
                   = snd (configure_side_wheel (state_interfaces_ n) (command_interfaces_ n)
                            (right_wheel_names_ (names n)) (registered_right_wheel_handles_ n)) /\
                 registered_middle_wheel_handles_ (snd (on_activate n))
                   = snd (configure_side_wheel (state_interfaces_ n) (command_interfaces_ n)
                            (middle_wheel_names_ (names n))
                            (registered_middle_wheel_handles_ n)) /\
                 registered_left_steering_handles_ (snd (on_activate n))
                   = snd (configure_side_steering (state_interfaces_ n) (command_interfaces_ n)
                            (left_steering_names_ (names n))
                            (registered_left_steering_handles_ n)) /\
                 registered_right_steering_handles_ (snd (on_activate n))
                   = snd (configure_side_steering (state_interfaces_ n) (command_interfaces_ n)
                            (right_steering_names_ (names n))
                            (registered_right_steering_handles_ n)) /\
                 (fst (on_activate n) = ERROR ->
                  is_halted (snd (on_activate n)) = is_halted n /\
                  subscriber_is_active_ (snd (on_activate n)) = subscriber_is_active_ n) /\
                 (fst (on_activate n) = SUCCESS ->
                  is_halted (snd (on_activate n)) = false /\
                  subscriber_is_active_ (snd (on_activate n)) = true)).
  { unfold on_activate; cbv zeta.
    repeat match goal with
      | |- context [if ?b then _ else _] => destruct b
      end; cbn; repeat split; trivial; discriminate. }
  destruct Hreg as (H1 & H2 & H3 & H4 & H5 & H6 & H7 & H8 & H9 & H10).
  rewrite H4, H5, H6, H7, H8, L1, R1, M1, SL1, SR1.
  do 8 (split; [trivial|]). split; [exact H9|].
  intros Hs. destruct (H10 Hs) as [A B]. split; [exact A|]. split; [exact B|].
  apply Hiff in Hs. destruct Hs as ((_ & a) & (_ & b) & (_ & c0) & (_ & d0) & (_ & e)).
  repeat split.
  - apply register_wheels_success, register_wheels_success, a.
  - apply register_wheels_success, register_wheels_success, b.
  - apply register_wheels_success, register_wheels_success, e.
  - apply register_steerings_success, register_steerings_success, c0.
  - apply register_steerings_success, register_steerings_success, d0.
Qed.

(** X17: deactivation keeps the registered handles, so a controller that is
    activated, deactivated and activated again holds every handle twice:
    each vector is the old one followed by two copies of the handles of its
    names. *)
Theorem reactivation_registers_again (n : Node) :
  fst (on_activate n) = SUCCESS ->
  let S := state_interfaces_ n in
  let C := command_interfaces_ n in
  let n2 := on_activate (snd (on_deactivate (snd (on_activate n)))) in
  fst n2 = SUCCESS /\
  registered_left_wheel_handles_ (snd n2)
    = registered_left_wheel_handles_ n
      ++ wheel_handles S C (left_wheel_names_ (names n))
      ++ wheel_handles S C (left_wheel_names_ (names n)) /\
  registered_right_wheel_handles_ (snd n2)
    = registered_right_wheel_handles_ n
      ++ wheel_handles S C (right_wheel_names_ (names n))
      ++ wheel_handles S C (right_wheel_names_ (names n)) /\
  registered_middle_wheel_handles_ (snd n2)
    = registered_middle_wheel_handles_ n
      ++ wheel_handles S C (middle_wheel_names_ (names n))
      ++ wheel_handles S C (middle_wheel_names_ (names n)) /\
  registered_left_steering_handles_ (snd n2)
    = registered_left_steering_handles_ n
      ++ steering_handles S C (left_steering_names_ (names n))
      ++ steering_handles S C (left_steering_names_ (names n)) /\
  registered_right_steering_handles_ (snd n2)
    = registered_right_steering_handles_ n
      ++ steering_handles S C (right_steering_names_ (names n))
      ++ steering_handles S C (right_steering_names_ (names n)).
Proof.
  intros Hs; cbv zeta.
  destruct (on_activate_registers n) as (N1 & N2 & N3 & L & R & M & SL & SR).
  set (n1 := snd (on_deactivate (snd (on_activate n)))).
  assert (E : names n1 = names n /\ state_interfaces_ n1 = state_interfaces_ n /\
              command_interfaces_ n1 = command_interfaces_ n) by (cbn; auto).
  destruct E as (E1 & E2 & E3).
  destruct (on_activate_registers n1) as (_ & _ & _ & L' & R' & M' & SL' & SR').
  rewrite E1, E2, E3 in L', R', M', SL', SR'.
  split.
  - apply on_activate_success. rewrite E1, E2, E3. now apply on_activate_success.
  - rewrite L', R', M', SL', SR'. cbn [n1 on_deactivate snd registered_left_wheel_handles_
      registered_right_wheel_handles_ registered_middle_wheel_handles_
      registered_left_steering_handles_ registered_right_steering_handles_].
    rewrite L, R, M, SL, SR, <- !app_assoc. repeat split; reflexivity.
Qed.

Lemma reactivation_registers_again_witness :
  let S := state_interfaces_ sample_node in
  let C := command_interfaces_ sample_node in
  let n2 := on_activate (snd (on_deactivate (snd (on_activate sample_node)))) in
  fst n2 = SUCCESS /\
  registered_left_wheel_handles_ (snd n2)
    = registered_left_wheel_handles_ sample_node
      ++ wheel_handles S C (left_wheel_names_ (names sample_node))
      ++ wheel_handles S C (left_wheel_names_ (names sample_node)) /\
  registered_right_wheel_handles_ (snd n2)
    = registered_right_wheel_handles_ sample_node
      ++ wheel_handles S C (right_wheel_names_ (names sample_node))
      ++ wheel_handles S C (right_wheel_names_ (names sample_node)) /\
  registered_middle_wheel_handles_ (snd n2)
    = registered_middle_wheel_handles_ sample_node
      ++ wheel_handles S C (middle_wheel_names_ (names sample_node))
      ++ wheel_handles S C (middle_wheel_names_ (names sample_node)) /\
  registered_left_steering_handles_ (snd n2)
    = registered_left_steering_handles_ sample_node
      ++ steering_handles S C (left_steering_names_ (names sample_node))
      ++ steering_handles S C (left_steering_names_ (names sample_node)) /\
  registered_right_steering_handles_ (snd n2)
    = registered_right_steering_handles_ sample_node
      ++ steering_handles S C (right_steering_names_ (names sample_node))
      ++ steering_handles S C (right_steering_names_ (names sample_node)).
Proof.
  apply (reactivation_registers_again sample_node). reflexivity.
Defined.

Lemma wheel_handles_cons (S C : list Interface) (w : string) (rest : list string) :
  wheel_handles S C (w :: rest) =
  match find_interface S w HW_IF_POSITION, find_interface S w HW_IF_VELOCITY,
        find_interface C w HW_IF_VELOCITY with
  | Some p, Some v, Some c => (p, v, c) :: wheel_handles S C rest
  | _, _, _ => []
  end.
Proof.
  unfold wheel_handles at 1. simpl.
  destruct (find_interface S w HW_IF_POSITION); [|reflexivity].
  destruct (find_interface S w HW_IF_VELOCITY); [|reflexivity].
  destruct (find_interface C w HW_IF_VELOCITY); [|reflexivity].
  now rewrite register_wheels_app.
Qed.

Lemma steering_handles_cons (S C : list Interface) (w : string) (rest : list string) :
  steering_handles S C (w :: rest) =
  match find_interface S w HW_IF_POSITION, find_interface S w HW_IF_VELOCITY,
        find_interface C w HW_IF_POSITION with
  | Some p, Some _, Some c => (p, p, c) :: steering_handles S C rest
  | _, _, _ => []
  end.
Proof.
  unfold steering_handles at 1. simpl.
  destruct (find_interface S w HW_IF_POSITION); [|reflexivity].
  destruct (find_interface S w HW_IF_VELOCITY); [|reflexivity].
  destruct (find_interface C w HW_IF_POSITION); [|reflexivity].
  now rewrite register_steerings_app.
Qed.

(** X18: the handle registered at a position belongs to the name at that
    position.  A wheel handle refers to the position state, the velocity
    state and the velocity command interface of its joint.  A steering
    handle refers to the position state interface of its joint twice (the
    velocity state interface is looked up but not kept) and to its position
    command interface. *)
Theorem registered_handles_refer_to_their_joint (S C : list Interface) :
  (forall wheel_names i p v c,
     nth_error (wheel_handles S C wheel_names) i = Some (p, v, c) ->
     exists name,
       nth_error wheel_names i = Some name /\
       refers S p name HW_IF_POSITION /\
       refers S v name HW_IF_VELOCITY /\
       refers C c name HW_IF_VELOCITY) /\
  (forall steering_names i p v c,
     nth_error (steering_handles S C steering_names) i = Some (p, v, c) ->
     exists name,
       nth_error steering_names i = Some name /\
       v = p /\
       refers S p name HW_IF_POSITION /\
       refers C c name HW_IF_POSITION).
Proof.
  split.
  - induction wheel_names as [|w rest IH]; intros i p v c H.
    + destruct i; discriminate.
    + rewrite wheel_handles_cons in H.
      destruct (find_interface S w HW_IF_POSITION) as [p0|] eqn:E1;
        [|destruct i; discriminate].
      destruct (find_interface S w HW_IF_VELOCITY) as [v0|] eqn:E2;
        [|destruct i; discriminate].
      destruct (find_interface C w HW_IF_VELOCITY) as [c0|] eqn:E3;
        [|destruct i; discriminate].
      destruct i as [|i]; simpl in H.
      * injection H as <- <- <-. exists w. simpl.
        repeat split; trivial; now apply find_interface_refers.
      * destruct (IH i p v c H) as (x & Hx & Hr). exists x. simpl. auto.
  - induction steering_names as [|w rest IH]; intros i p v c H.
    + destruct i; discriminate.
    + rewrite steering_handles_cons in H.
      destruct (find_interface S w HW_IF_POSITION) as [p0|] eqn:E1;
        [|destruct i; discriminate].
      destruct (find_interface S w HW_IF_VELOCITY) as [v0|] eqn:E2;
        [|destruct i; discriminate].
      destruct (find_interface C w HW_IF_POSITION) as [c0|] eqn:E3;
        [|destruct i; discriminate].
      destruct i as [|i]; simpl in H.
      * injection H as <- <- <-. exists w. simpl.
        repeat split; trivial; now apply find_interface_refers.
      * destruct (IH i p v c H) as (x & Hx & Hr). exists x. simpl. auto.
Qed.

End LifecycleProperties.
